(** * CourseOutlinePlanner: the calendar layout code, embedded and verified

    The development follows the TypeScript sources of the front end:

    - [types/calendar.ts]: [CalendarEvent], [mapBackendEventToCalendarEvent]
      and [getEventColor];
    - [components/CalendarGrid.tsx]: the month view;
    - [components/CalendarWeekView.tsx]: the week view;
    - [components/CalendarView.tsx]: the container choosing between the two,
      with its state and its handlers;
    - [components/CalendarToolbar.tsx] and [components/EventDetailPopup.tsx]:
      the children of the container;
    - [components/ParsedEvents.tsx]: the list of the parsed events;
    - [App.tsx]: the files selected for upload;
    - [components/CalendarAssistant.tsx]: the chat with the calendar.

    The components call the [date-fns] library, which in turn calls the
    methods of the ECMAScript [Date] object.  Both layers are embedded here:
    module [ES] holds the date arithmetic of ECMA-262 (section "Date
    Objects"), module [JSDate] the methods of [Date], module [DateFns] the
    functions imported from [date-fns] (their bodies as of date-fns 3 and 4);
    module [Navigation] has the functions [CalendarView.tsx] navigates with,
    module [LongFormat] the format tokens of the toolbar and of the popup.

    Modelling choices.

    - A [Date] is either [Invalid] (its time value is NaN) or [Valid t] with
      [t] the time value in milliseconds since the epoch, an integer.  The
      range limit of ECMA-262 (|t| <= 8.64e15) is not part of the model.
    - Local time is a fixed offset [LocalTZA] from UTC (class [TimeZone]);
      daylight-saving transitions are not part of the model.
    - [isToday] reads the clock: the components take the readings as an
      argument, one for each day they show.
    - Time values, calendar fields and minute counts are integers, as they
      are exactly in the double-precision numbers of the engine.  Pixel
      positions are rationals: in the records of the week view the
      expression [(m / 60) * HOUR_HEIGHT] is evaluated exactly.  Module
      [CalendarWeekView64] has [getEventPosition] with the two roundings of
      double precision, which module [Binary64] defines on the rationals;
      module [Double] has the offset in the primitive binary64 numbers, for
      the order of the offsets and for the comparison with [Binary64].
    - A string is a sequence of code units below 256.
    - React elements are records holding the attributes, classes and children
      the component computes.
    - The functions are given twice: on values (modules [JSDate], [DateFns],
      [CalendarGrid], [CalendarWeekView], [CalendarView]), and on a store of
      [Date] objects passed by reference (module [Store]), where the setters
      of [Date] work in place; [StoreFacts] relates the two.
    - The state of a component is a record and a handler a function on it;
      what the user does is a list of actions, handled one after the other.
      The asynchronous [send] of the chat is cut at its [await]: the part
      after it runs when the call is settled.
    - The icons of [ParsedEvents.tsx], emoji, are the constructors of a
      type. *)

From Stdlib Require Import ZArith Lia QArith Ascii String.
From Stdlib Require PrimFloat Uint63 FloatOps SpecFloat Qround Qpower Lqa.
From stdpp Require Import base list strings pretty.

Local Open Scope Z_scope.

(** * Part I: the embedding *)

(** ** ECMA-262 date arithmetic *)

Module ES.

Definition msPerDay : Z := 86400000.
Definition msPerHour : Z := 3600000.
Definition msPerMinute : Z := 60000.
Definition msPerSecond : Z := 1000.

(** [Day(t)] and [TimeWithinDay(t)]; the division is the floor. *)
Definition Day (t : Z) : Z := t / msPerDay.
Definition TimeWithinDay (t : Z) : Z := t mod msPerDay.

Definition DaysInYear (y : Z) : Z :=
  if negb (y mod 4 =? 0) then 365
  else if negb (y mod 100 =? 0) then 366
  else if negb (y mod 400 =? 0) then 365
  else 366.

Definition DayFromYear (y : Z) : Z :=
  365 * (y - 1970) + (y - 1969) / 4 - (y - 1901) / 100 + (y - 1601) / 400.

Definition TimeFromYear (y : Z) : Z := msPerDay * DayFromYear y.

(** ECMA-262 defines [YearFromTime(t)] as the largest [y] with
    [TimeFromYear(y) <= t].  It is computed from the mean year length and
    adjusted by one; [ESFacts.YearFromDay_spec] proves the defining
    property. *)
Definition YearFromDay (d : Z) : Z :=
  let y := 1970 + (400 * d) / 146097 in
  if d <? DayFromYear y then y - 1
  else if DayFromYear (y + 1) <=? d then y + 1
  else y.

Definition YearFromTime (t : Z) : Z := YearFromDay (Day t).

Definition leapOfYear (y : Z) : Z := if DaysInYear y =? 366 then 1 else 0.
Definition InLeapYear (t : Z) : Z := leapOfYear (YearFromTime t).

Definition DayWithinYear (t : Z) : Z := Day t - DayFromYear (YearFromTime t).

(** The table of [MonthFromTime]; [d] is the day within the year. *)
Definition monthOfYearDay (d leap : Z) : Z :=
  if d <? 31 then 0
  else if d <? 59 + leap then 1
  else if d <? 90 + leap then 2
  else if d <? 120 + leap then 3
  else if d <? 151 + leap then 4
  else if d <? 181 + leap then 5
  else if d <? 212 + leap then 6
  else if d <? 243 + leap then 7
  else if d <? 273 + leap then 8
  else if d <? 304 + leap then 9
  else if d <? 334 + leap then 10
  else 11.

(** The day within the year on which month [m] (0 to 11) starts. *)
Definition monthStartDay (m leap : Z) : Z :=
  match m with
  | 0 => 0
  | 1 => 31
  | 2 => 59 + leap
  | 3 => 90 + leap
  | 4 => 120 + leap
  | 5 => 151 + leap
  | 6 => 181 + leap
  | 7 => 212 + leap
  | 8 => 243 + leap
  | 9 => 273 + leap
  | 10 => 304 + leap
  | _ => 334 + leap
  end.

(** The length of month [m] (0 to 11). *)
Definition monthLength (m leap : Z) : Z :=
  match m with
  | 1 => 28 + leap
  | 3 | 5 | 8 | 10 => 30
  | _ => 31
  end.

Definition MonthFromTime (t : Z) : Z :=
  monthOfYearDay (DayWithinYear t) (InLeapYear t).

(** The table of [DateFromTime]: the day within the year, less the start
    of the month, plus one. *)
Definition DateFromTime (t : Z) : Z :=
  DayWithinYear t - monthStartDay (MonthFromTime t) (InLeapYear t) + 1.

Definition WeekDay (t : Z) : Z := (Day t + 4) mod 7.

Definition HourFromTime (t : Z) : Z := (t / msPerHour) mod 24.
Definition MinFromTime (t : Z) : Z := (t / msPerMinute) mod 60.
Definition SecFromTime (t : Z) : Z := (t / msPerSecond) mod 60.
Definition msFromTime (t : Z) : Z := t mod msPerSecond.

Definition MakeTime (hour min sec ms : Z) : Z :=
  hour * msPerHour + min * msPerMinute + sec * msPerSecond + ms.

(** [MakeDay(year, month, date)]: months outside 0..11 carry into the
    year, dates outside the month carry into the neighbouring months. *)
Definition MakeDay (year month date : Z) : Z :=
  let ym := year + month / 12 in
  let mn := month mod 12 in
  DayFromYear ym + monthStartDay mn (leapOfYear ym) + date - 1.

Definition MakeDate (day time : Z) : Z := day * msPerDay + time.

End ES.

(** ** Results of code that can throw *)

Inductive Res (A : Type) : Type :=
| Ok (a : A) : Res A
| Throw (error : string) : Res A.
Arguments Ok {A} a.
Arguments Throw {A} error.

#[global] Instance Res_ret : MRet Res := @Ok.
#[global] Instance Res_bind : MBind Res := fun A B k m =>
  match m with Ok a => k a | Throw e => Throw e end.

(** [array.map((x, index) => ...)] for a callback that can throw: the first
    exception ends the traversal. *)
Definition imapM `{MBind M, MRet M} {A B : Type} (f : nat -> A -> M B)
    (l : list A) : M (list B) :=
  mapM (fun p : nat * A => f p.1 p.2) (zip (seq 0 (length l)) l).

(** ** The [Date] object *)

(** The offset of local time from UTC, in milliseconds. *)
Class TimeZone := LocalTZA : Z.

(** A JavaScript number that is an integer or NaN. *)
Inductive Num : Type :=
| NaN : Num
| Int (z : Z) : Num.

Declare Scope num_scope.
Delimit Scope num_scope with num.
Bind Scope num_scope with Num.

Module JSNum.

Definition lift2 (f : Z -> Z -> Z) (a b : Num) : Num :=
  match a, b with
  | Int x, Int y => Int (f x y)
  | _, _ => NaN
  end.

Definition add := lift2 Z.add.
Definition sub := lift2 Z.sub.
Definition mul := lift2 Z.mul.

(** Comparisons with NaN are false. *)
Definition ltb (a b : Num) : bool :=
  match a, b with Int x, Int y => x <? y | _, _ => false end.
Definition leb (a b : Num) : bool :=
  match a, b with Int x, Int y => x <=? y | _, _ => false end.
Definition gtb (a b : Num) : bool := ltb b a.
(** [===] on numbers. *)
Definition eqb (a b : Num) : bool :=
  match a, b with Int x, Int y => x =? y | _, _ => false end.

(** [Math.trunc] of the quotient [a / d] for a positive integer [d]. *)
Definition truncDiv (a : Num) (d : Z) : Num :=
  match a with Int x => Int (Z.quot x d) | NaN => NaN end.

End JSNum.

Notation "a + b" := (JSNum.add a b) : num_scope.
Notation "a - b" := (JSNum.sub a b) : num_scope.
Notation "a * b" := (JSNum.mul a b) : num_scope.
Notation "a <? b" := (JSNum.ltb a b) : num_scope.
Notation "a <=? b" := (JSNum.leb a b) : num_scope.
Notation "a >? b" := (JSNum.gtb a b) : num_scope.
Notation "a =? b" := (JSNum.eqb a b) : num_scope.
Coercion Int : Z >-> Num.

Inductive Date : Type :=
| Invalid : Date
| Valid (t : Z) : Date.

Module JSDate.
Import ES.

Section Methods.
Context {tz : TimeZone}.

Definition LocalTime (t : Z) : Z := t + LocalTZA.
Definition UTC (t : Z) : Z := t - LocalTZA.

(** The number of the local day a time value falls on, the time value of
    the local midnight that starts a day, and the time value of its last
    millisecond. *)
Definition localDay (t : Z) : Z := Day (LocalTime t).
Definition midnight (day : Z) : Z := UTC (MakeDate day 0).
Definition lastMs (day : Z) : Z := UTC (MakeDate day (MakeTime 23 59 59 999)).

(** The day of the week of a day number, and the first and last day of
    the calendar month a time value falls in. *)
Definition dayOfWeek (day : Z) : Z := (day + 4) mod 7.
Definition monthFirst (t : Z) : Z :=
  MakeDay (YearFromTime (LocalTime t)) (MonthFromTime (LocalTime t)) 1.
Definition monthLast (t : Z) : Z :=
  MakeDay (YearFromTime (LocalTime t)) (MonthFromTime (LocalTime t) + 1) 1
  - 1.

(** [date.getTime()], also [+date]. *)
Definition getTime (d : Date) : Num :=
  match d with Valid t => Int t | Invalid => NaN end.

(** [new Date(value)] for a number. *)
Definition ofTime (n : Num) : Date :=
  match n with Int t => Valid t | NaN => Invalid end.

Definition getter (f : Z -> Z) (d : Date) : Num :=
  match d with Valid t => Int (f (LocalTime t)) | Invalid => NaN end.

Definition getFullYear : Date -> Num := getter YearFromTime.
Definition getMonth : Date -> Num := getter MonthFromTime.
Definition getDate : Date -> Num := getter DateFromTime.
Definition getDay : Date -> Num := getter WeekDay.
Definition getHours : Date -> Num := getter HourFromTime.
Definition getMinutes : Date -> Num := getter MinFromTime.

(** [date.setDate(dt)] *)
Definition setDate (d : Date) (dt : Num) : Date :=
  match d, dt with
  | Valid t, Int dt =>
      let lt := LocalTime t in
      Valid (UTC (MakeDate (MakeDay (YearFromTime lt) (MonthFromTime lt) dt)
                           (TimeWithinDay lt)))
  | _, _ => Invalid
  end.

(** [date.setFullYear(y, m, dt)]; on an invalid date the time within the
    day is taken from the time value +0. *)
Definition setFullYear (d : Date) (y m dt : Num) : Date :=
  match y, m, dt with
  | Int y, Int m, Int dt =>
      let lt := match d with Valid t => LocalTime t | Invalid => 0 end in
      Valid (UTC (MakeDate (MakeDay y m dt) (TimeWithinDay lt)))
  | _, _, _ => Invalid
  end.

(** [date.setHours(h, m, s, ms)] *)
Definition setHours (d : Date) (h m s ms : Z) : Date :=
  match d with
  | Valid t =>
      let lt := LocalTime t in
      Valid (UTC (MakeDate (Day lt) (MakeTime h m s ms)))
  | Invalid => Invalid
  end.

(** [String(n).padStart(width, "0")] for a natural number [n]. *)
Definition padZeros (width : nat) (n : Z) : string :=
  let digits := pretty n in
  (String.concat "" (replicate (width - String.length digits) "0")
   +:+ digits)%string.

(** [date.toISOString()]: the fields of UTC; years outside 0..9999 are
    written with a sign and six digits.  It throws on an invalid date. *)
Definition toISOString (d : Date) : Res string :=
  match d with
  | Invalid => Throw "RangeError: Invalid time value"
  | Valid t =>
      let y := YearFromTime t in
      let year :=
        if (0 <=? y) && (y <=? 9999) then padZeros 4 y
        else
          let sign : string := if (y <? 0)%Z then "-" else "+" in
          (sign +:+ padZeros 6 (Z.abs y))%string in
      Ok (year +:+ "-" +:+ padZeros 2 (MonthFromTime t + 1)
          +:+ "-" +:+ padZeros 2 (DateFromTime t)
          +:+ "T" +:+ padZeros 2 (HourFromTime t)
          +:+ ":" +:+ padZeros 2 (MinFromTime t)
          +:+ ":" +:+ padZeros 2 (SecFromTime t)
          +:+ "." +:+ padZeros 3 (msFromTime t) +:+ "Z")%string
  end.

End Methods.
End JSDate.

(** ** The functions imported from [date-fns] *)

Module DateFns.
Import ES JSDate.

Definition millisecondsInMinute : Z := 60000.

(** The tokens of the format strings the components use. *)
Inductive Token : Type :=
| tok_d        (* day of the month *)
| tok_h        (* hour, 1 to 12 *)
| tok_mm       (* minute, two digits *)
| tok_a        (* AM or PM *)
| tok_EEE      (* abbreviated name of the day of the week *)
| tok_lit (s : string).

Definition fmt_d : list Token := [tok_d].
Definition fmt_EEE : list Token := [tok_EEE].
Definition fmt_ha : list Token := [tok_h; tok_a].
Definition fmt_h_mm_a : list Token :=
  [tok_h; tok_lit ":"; tok_mm; tok_lit " "; tok_a].

Definition dayNames : list string :=
  ["Sun"; "Mon"; "Tue"; "Wed"; "Thu"; "Fri"; "Sat"].

Definition addLeadingZeros (n : Z) : string :=
  if n <? 10 then ("0" +:+ pretty n)%string else pretty n.

Section Functions.
Context {tz : TimeZone}.

(** [toDate] clones its argument. *)
Definition toDate (date : Date) : Date := date.

Definition isValid (date : Date) : bool :=
  match date with Valid _ => true | Invalid => false end.

Definition startOfDay (date : Date) : Date :=
  let _date := toDate date in
  setHours _date 0 0 0 0.

Definition startOfMonth (date : Date) : Date :=
  let _date := toDate date in
  let _date := setDate _date 1 in
  setHours _date 0 0 0 0.

Definition endOfMonth (date : Date) : Date :=
  let _date := toDate date in
  let month := getMonth _date in
  let _date := setFullYear _date (getFullYear _date) (month + 1)%num 0 in
  setHours _date 23 59 59 999.

(** [options?.weekStartsOn ?? ... ?? 0]; the default options are never
    set by the application. *)
Definition weekStartsOnOf (options : option Z) : Z :=
  match options with Some w => w | None => 0 end.

Definition startOfWeek (date : Date) (options : option Z) : Date :=
  let weekStartsOn := weekStartsOnOf options in
  let _date := toDate date in
  let day := getDay _date in
  let diff :=
    ((if (day <? weekStartsOn)%num then 7 else 0) + day - weekStartsOn)%num in
  let _date := setDate _date (getDate _date - diff)%num in
  setHours _date 0 0 0 0.

Definition endOfWeek (date : Date) (options : option Z) : Date :=
  let weekStartsOn := weekStartsOnOf options in
  let _date := toDate date in
  let day := getDay _date in
  let diff :=
    ((if (day <? weekStartsOn)%num then -7 else 0) + 6
     - (day - weekStartsOn))%num in
  let _date := setDate _date (getDate _date + diff)%num in
  setHours _date 23 59 59 999.

(** The body of the [while] loop of [eachDayOfInterval]; [fuel] bounds
    the number of iterations. *)
Fixpoint eachDayLoop (fuel : nat) (date : Date) (endTime : Num) : list Date :=
  match fuel with
  | O => []
  | S fuel' =>
      if (getTime date <=? endTime)%num then
        toDate date ::
        eachDayLoop fuel'
          (setHours (setDate date (getDate date + 1)%num) 0 0 0 0) endTime
      else []
  end.

(** One more than the number of days the loop lists: the loop leaves on its
    test before the fuel is used up ([DateFnsFacts.eachDayLoop_fuel],
    [DateFnsFacts.eachDayFuel_enough]). *)
Definition eachDayFuel (date : Date) (endTime : Num) : nat :=
  match getTime date, endTime with
  | Int a, Int b => Z.to_nat ((b - a) / msPerDay + 2)
  | _, _ => 0
  end.

Definition eachDayOfInterval (start end_ : Date) : list Date :=
  let start := toDate start in
  let end_ := toDate end_ in
  let reversed := (getTime start >? getTime end_)%num in
  let endTime := if reversed then getTime start else getTime end_ in
  let date := if reversed then end_ else start in
  let date := setHours date 0 0 0 0 in
  let dates := eachDayLoop (eachDayFuel date endTime) date endTime in
  if reversed then reverse dates else dates.

Definition isSameMonth (laterDate earlierDate : Date) : bool :=
  (getFullYear laterDate =? getFullYear earlierDate)%num
  && (getMonth laterDate =? getMonth earlierDate)%num.

Definition isSameDay (laterDate earlierDate : Date) : bool :=
  (getTime (startOfDay laterDate) =? getTime (startOfDay earlierDate))%num.

(** [isToday(date)] compares with [Date.now()], whose reading is the
    argument [now]. *)
Definition isToday (now : Z) (date : Date) : bool :=
  isSameDay date (Valid now).

Definition differenceInMilliseconds (laterDate earlierDate : Date) : Num :=
  (getTime (toDate laterDate) - getTime (toDate earlierDate))%num.

(** The default rounding method is [Math.trunc]. *)
Definition differenceInMinutes (dateLeft dateRight : Date) : Num :=
  JSNum.truncDiv (differenceInMilliseconds dateLeft dateRight)
    millisecondsInMinute.

Definition addMinutes (date : Date) (amount : Z) : Date :=
  let _date := toDate date in
  ofTime (getTime _date + amount * millisecondsInMinute)%num.

Definition formatToken (t : Z) (tok : Token) : string :=
  let lt := LocalTime t in
  match tok with
  | tok_d => pretty (DateFromTime lt)
  | tok_h =>
      let h := HourFromTime lt mod 12 in
      pretty (if h =? 0 then 12 else h)
  | tok_mm => addLeadingZeros (MinFromTime lt)
  | tok_a => if 12 <=? HourFromTime lt then "PM" else "AM"
  | tok_EEE => default "" (dayNames !! Z.to_nat (WeekDay lt))
  | tok_lit s => s
  end.

(** [format(date, formatStr)] throws on an invalid date. *)
Definition format (date : Date) (formatStr : list Token) : Res string :=
  match date with
  | Invalid => Throw "RangeError: Invalid time value"
  | Valid t =>
      Ok (foldr (fun tok acc => (formatToken t tok +:+ acc)%string) ""
            formatStr)
  end.

End Functions.
End DateFns.

(** ** [api.ts]: the events of the back end *)

Module Api.

Record BackendEvent : Type := {
  id : string;
  course_id : string;
  title : string;
  type : string;
  start : string;            (* ISO *)
  end_ : option string;      (* string | null *)
  location : option string;  (* string | null *)
}.

Record BackendCourse : Type := {
  course_ident : string;     (* id *)
  name : option string;
  code : option string;
  term : option string;
  events : list BackendEvent;
}.

End Api.

(** ** [types/calendar.ts] *)

Module Calendar.

Inductive CalendarView : Type := month | week.

Record CalendarEvent : Type := {
  id : string;
  title : string;
  type : string;
  start : Date;
  end_ : Date;
  location : option string;
  courseId : string;
}.

(** A string used as a condition is false when it is empty. *)
Definition truthy (s : string) : bool :=
  match s with EmptyString => false | String _ _ => true end.

(** [new Date(string)] is the parser of the engine, a parameter here. *)
Definition mapBackendEventToCalendarEvent (newDate : string -> Date)
    (event : Api.BackendEvent) : CalendarEvent :=
  {| id := Api.id event;
     title := Api.title event;
     type := Api.type event;
     start := newDate (Api.start event);
     end_ :=
       match Api.end_ event with
       | Some e => if truthy e then newDate e else newDate (Api.start event)
       | None => newDate (Api.start event)
       end;
     location := Api.location event;
     courseId := Api.course_id event |}.

(** [toLowerCase] on one code unit below 256: the letters A to Z, and the
    capital letters of Latin-1 (U+00C0 to U+00DE without U+00D7). *)
Definition lowerUnit (c : ascii) : ascii :=
  let n := N_of_ascii c in
  if ((65 <=? n) && (n <=? 90)
      || (192 <=? n) && (n <=? 222) && negb (n =? 215))%N
  then ascii_of_N (n + 32) else c.

Fixpoint toLowerCase (s : string) : string :=
  match s with
  | EmptyString => EmptyString
  | String c s' => String (lowerUnit c) (toLowerCase s')
  end.

(** [s.includes(searchString)] *)
Fixpoint includes (s searchString : string) : bool :=
  String.prefix searchString s
  || match s with
     | EmptyString => false
     | String _ s' => includes s' searchString
     end.

Definition getEventColor (type : string) : string :=
  let normalized := toLowerCase type in
  if includes normalized "class" || includes normalized "lecture"
     || includes normalized "lab" then "blue"
  else if includes normalized "midterm" || includes normalized "test" then
    "orange"
  else if includes normalized "final" || includes normalized "exam" then "red"
  else if includes normalized "assignment" || includes normalized "homework"
  then "purple"
  else if includes normalized "quiz" then "green"
  else "gray".

(** The rules of [getEventColor] as a list, in the order of the source:
    the keywords of a rule and its colour. *)
Definition colorRules : list (list string * string) :=
  [ (["class"; "lecture"; "lab"], "blue");
    (["midterm"; "test"], "orange");
    (["final"; "exam"], "red");
    (["assignment"; "homework"], "purple");
    (["quiz"], "green") ].

(** The first rule with a keyword that occurs in the string gives the
    colour; "gray" when there is none. *)
Fixpoint firstMatch (rules : list (list string * string)) (normalized : string)
  : string :=
  match rules with
  | [] => "gray"
  | (keywords, color) :: rules' =>
      if existsb (includes normalized) keywords then color
      else firstMatch rules' normalized
  end.

(** The keywords of the rules, and the colours of the function. *)
Definition matchedKeywords : list string :=
  concat (fst <$> colorRules).
Definition colors : list string :=
  ["blue"; "orange"; "red"; "purple"; "green"; "gray"].

(** [keyword] occurs in [s] when the case of the letters is ignored. *)
Definition occursNoCase (s keyword : string) : Prop :=
  exists pre w post, s = (pre +:+ w +:+ post)%string /\ toLowerCase w = keyword.

End Calendar.

(** ** [components/CalendarGrid.tsx]: the month view *)

Module CalendarGrid.
Import JSDate DateFns Calendar.

(** The [button] of an event in a day cell. *)
Record EventPill : Type := {
  pill_key : string;             (* key = event.id *)
  pill_color : string;           (* the class after calendar-event-pill *)
  pill_onClick : CalendarEvent;  (* the event handed to onEventClick *)
  pill_title : string;           (* title = event.title *)
  pill_time : string;            (* format(event.start, "h:mm a") *)
  pill_text : string;            (* event.title *)
}.

(** A [calendar-day-cell]; the class other-month is set when
    [isCurrentMonth] is false, the class today when [isCurrentDay] is
    true. *)
Record DayCell : Type := {
  cell_key : nat;
  cell_day : Date;               (* the day the cell is built from *)
  isCurrentMonth : bool;
  isCurrentDay : bool;
  cell_number : string;          (* format(day, "d") *)
  cell_pills : list EventPill;
  cell_more : option Z;          (* the n of "+n more" *)
}.

Record Grid : Type := {
  header_row : list string;
  body : list DayCell;
}.

Section Component.
Context {tz : TimeZone}.

Definition weekDays : list string :=
  ["Sun"; "Mon"; "Tue"; "Wed"; "Thu"; "Fri"; "Sat"].

(** The Sunday on or before the first day of the month of a time value,
    and the Saturday on or after its last day. *)
Definition gridFirst (t : Z) : Z :=
  monthFirst t - dayOfWeek (monthFirst t).
Definition gridLast (t : Z) : Z :=
  monthLast t + 6 - dayOfWeek (monthLast t).

(** The array [days]. *)
Definition days (currentDate : Date) : list Date :=
  let monthStart := startOfMonth currentDate in
  let monthEnd := endOfMonth currentDate in
  let calendarStart := startOfWeek monthStart None in
  let calendarEnd := endOfWeek monthEnd None in
  eachDayOfInterval calendarStart calendarEnd.

Definition getEventsForDay (events : list CalendarEvent) (day : Date)
  : list CalendarEvent :=
  List.filter
    (fun event =>
       let eventStart := toDate (start event) in
       isSameDay eventStart day)
    events.

Definition eventPill (event : CalendarEvent) : Res EventPill :=
  time ← format (start event) fmt_h_mm_a;
  mret {| pill_key := id event;
          pill_color := getEventColor (type event);
          pill_onClick := event;
          pill_title := title event;
          pill_time := time;
          pill_text := title event |}.

Definition dayCell (currentDate : Date) (events : list CalendarEvent)
    (now : nat -> Z) (index : nat) (day : Date) : Res DayCell :=
  let dayEvents := getEventsForDay events day in
  let isCurrentMonth := isSameMonth day currentDate in
  let isCurrentDay := isToday (now index) day in
  number ← format day fmt_d;
  pills ← mapM eventPill (take 3 dayEvents);
  mret {| cell_key := index;
          cell_day := day;
          isCurrentMonth := isCurrentMonth;
          isCurrentDay := isCurrentDay;
          cell_number := number;
          cell_pills := pills;
          cell_more :=
            if (3 <? length dayEvents)%nat
            then Some (Z.of_nat (length dayEvents) - 3) else None |}.

(** The component; [now index] is the reading of the clock taken by
    [isToday] while the cell [index] is built. *)
Definition CalendarGrid (currentDate : Date) (events : list CalendarEvent)
    (now : nat -> Z) : Res Grid :=
  cells ← imapM (dayCell currentDate events now) (days currentDate);
  mret {| header_row := weekDays; body := cells |}.

End Component.
End CalendarGrid.

(** ** [components/CalendarWeekView.tsx]: the week view *)

(** A JavaScript number that is a rational or NaN: the pixel positions. *)
Definition Px : Type := option Q.

Module JSPx.

Definition ofNum (n : Num) : Px :=
  match n with Int z => Some (inject_Z z) | NaN => None end.

Definition div (a b : Px) : Px :=
  match a, b with Some x, Some y => Some (x / y)%Q | _, _ => None end.
Definition mul (a b : Px) : Px :=
  match a, b with Some x, Some y => Some (x * y)%Q | _, _ => None end.

(** [Math.max(a, b)] is NaN when an argument is NaN. *)
Definition max (a b : Px) : Px :=
  match a, b with
  | Some x, Some y => Some (if Qle_bool x y then y else x)
  | _, _ => None
  end.

(** Equality and order of the values; NaN is related to nothing. *)
Definition eqv (a : Px) (q : Q) : Prop :=
  match a with Some x => (x == q)%Q | None => False end.
Definition le (a b : Px) : Prop :=
  match a, b with Some x, Some y => (x <= y)%Q | _, _ => False end.

End JSPx.

(** The offset of [getEventPosition] in double precision, for a number of
    minutes that is a natural number below 2^63: [(m / 60) * HOUR_HEIGHT]
    with the division and the multiplication of IEEE 754 binary64. *)
Module Double.

Definition ofZ (m : Z) : PrimFloat.float :=
  PrimFloat.of_uint63 (Uint63.of_Z m).

Definition top (minutesFromStart : Z) : PrimFloat.float :=
  PrimFloat.mul (PrimFloat.div (ofZ minutesFromStart) (ofZ 60)) (ofZ 60).

(** The offsets of the minutes of a day, 0 to 1439. *)
Definition tops : list PrimFloat.float := top <$> seqZ 0 1440.

(** Every element is ordered and below all the elements after it. *)
Fixpoint ascending (l : list PrimFloat.float) : bool :=
  match l with
  | [] => true
  | x :: l' =>
      PrimFloat.leb x x && forallb (PrimFloat.leb x) l' && ascending l'
  end.

End Double.

Module CalendarWeekView.
Import JSDate DateFns Calendar.

(** The [button] of an event in a day column. *)
Record EventBlock : Type := {
  block_key : string;            (* key = event.id *)
  block_color : string;          (* the class after calendar-week-event *)
  block_top : Px;                (* style.top, in px *)
  block_height : Px;             (* style.height, in px *)
  block_onClick : CalendarEvent;
  block_time : string;           (* format(event.start, "h:mm a") *)
  block_title : string;
  block_location : option string;
}.

Record DayColumn : Type := {
  col_key : string;              (* key = day.toISOString() *)
  col_day : Date;                (* the day the column is built from *)
  col_today : bool;              (* isCurrentDay *)
  col_name : string;             (* format(day, "EEE") *)
  col_number : string;           (* format(day, "d") *)
  col_slots : list (Z * Z);      (* key and height of the hour slots *)
  col_events : list EventBlock;
}.

Record WeekGrid : Type := {
  time_col : list string;        (* the labels of the time column *)
  day_cols : list DayColumn;
}.

Definition HOUR_HEIGHT : Z := 60.

(** [Array.from({ length: 24 }, (_, i) => i)] *)
Definition hours : list Z := Z.of_nat <$> seq 0 24.

Section Component.
Context {tz : TimeZone}.

(** The Sunday on or before the local day of a time value. *)
Definition weekFirst (t : Z) : Z := localDay t - dayOfWeek (localDay t).

(** The whole minutes from the local midnight of a time value to it. *)
Definition minutesOfDay (t : Z) : Z :=
  Z.quot (t - midnight (localDay t)) millisecondsInMinute.

(** The array [days]. *)
Definition days (currentDate : Date) : list Date :=
  let weekStart := startOfWeek currentDate None in
  let weekEnd := endOfWeek currentDate None in
  eachDayOfInterval weekStart weekEnd.

Definition getEventsForDay (events : list CalendarEvent) (day : Date)
  : list CalendarEvent :=
  List.filter
    (fun event =>
       let eventStart := toDate (start event) in
       isSameDay eventStart day)
    events.

Definition getEventPosition (event : CalendarEvent) : Px * Px :=
  let dayStart := startOfDay (start event) in
  let minutesFromStart := differenceInMinutes (start event) dayStart in
  let duration := differenceInMinutes (end_ event) (start event) in
  let top :=
    JSPx.mul (JSPx.div (JSPx.ofNum minutesFromStart) (JSPx.ofNum 60))
             (JSPx.ofNum HOUR_HEIGHT) in
  let height :=
    JSPx.max
      (JSPx.mul (JSPx.div (JSPx.ofNum duration) (JSPx.ofNum 60))
                (JSPx.ofNum HOUR_HEIGHT))
      (JSPx.ofNum 30) in
  (top, height).

Definition eventBlock (event : CalendarEvent) : Res EventBlock :=
  let '(top, height) := getEventPosition event in
  time ← format (start event) fmt_h_mm_a;
  mret {| block_key := id event;
          block_color := getEventColor (type event);
          block_top := top;
          block_height := height;
          block_onClick := event;
          block_time := time;
          block_title := title event;
          block_location :=
            match location event with
            | Some l => if truthy l then Some l else None
            | None => None
            end |}.

Definition dayColumn (events : list CalendarEvent) (now : nat -> Z)
    (index : nat) (day : Date) : Res DayColumn :=
  let dayEvents := getEventsForDay events day in
  let isCurrentDay := isToday (now index) day in
  key ← toISOString day;
  name ← format day fmt_EEE;
  number ← format day fmt_d;
  blocks ← mapM eventBlock dayEvents;
  mret {| col_key := key;
          col_day := day;
          col_today := isCurrentDay;
          col_name := name;
          col_number := number;
          col_slots := (fun hour => (hour, HOUR_HEIGHT)) <$> hours;
          col_events := blocks |}.

(** The component; [now index] is the reading of the clock taken by
    [isToday] while the column [index] is built. *)
Definition CalendarWeekView (currentDate : Date)
    (events : list CalendarEvent) (now : nat -> Z) : Res WeekGrid :=
  labels ← mapM
    (fun hour => format (addMinutes (startOfDay currentDate) (hour * 60)) fmt_ha)
    hours;
  cols ← imapM (dayColumn events now) (days currentDate);
  mret {| time_col := labels; day_cols := cols |}.

End Component.
End CalendarWeekView.

(** ** Pixel positions in double precision *)

(** The numbers of the engine are the binary64 numbers of IEEE 754: a
    division and a multiplication give the exact result rounded to the
    nearest number with 53 significant bits, and to the one whose last bit
    is 0 when two are equally near.  Module [Binary64] has this rounding on
    the rationals.  The limits of the exponent are left out: the minute
    counts of dates and their sixtieths are far from them.  [agrees]
    compares the rounding with the division and the multiplication of the
    primitive binary64 numbers. *)
Module Binary64.
Import Qround.

(** The [e] with [2^e <= q < 2^(e+1)], for a positive [q]. *)
Definition exponent (q : Q) : Z :=
  let e := Z.log2 (Qnum q) - Z.log2 (Zpos (Qden q)) in
  if Qle_bool (2 ^ e) q then e else e - 1.

(** The integer nearest to [x], the even one when two are equally near. *)
Definition nearestEven (x : Q) : Z :=
  let f := Qfloor x in
  match (x - inject_Z f ?= 1 # 2)%Q with
  | Lt => f
  | Gt => f + 1
  | Eq => if Z.even f then f else f + 1
  end.

(** A positive [q] is scaled to an integer of 53 bits and rounded. *)
Definition roundPos (q : Q) : Q :=
  let e := exponent q in
  (inject_Z (nearestEven (q * 2 ^ (52 - e))) * 2 ^ (e - 52))%Q.

Definition round (q : Q) : Q :=
  match (q ?= 0)%Q with
  | Eq => 0%Q
  | Gt => roundPos q
  | Lt => (- roundPos (- q))%Q
  end.

(** [a / b] for a divisor that is not 0, and [a * b]; NaN when an operand
    is NaN. *)
Definition div (a b : Px) : Px :=
  match a, b with Some x, Some y => Some (round (x / y)) | _, _ => None end.
Definition mul (a b : Px) : Px :=
  match a, b with Some x, Some y => Some (round (x * y)) | _, _ => None end.

(** 2^-53, the largest relative error of one rounding. *)
Definition unitRoundoff : Q := 2 ^ (-53).

(** The value of a primitive binary64 number that is finite. *)
Definition finiteValue (f : PrimFloat.float) : option Q :=
  match FloatOps.Prim2SF f with
  | SpecFloat.S754_zero _ => Some 0%Q
  | SpecFloat.S754_finite s m e =>
      Some (inject_Z (if s then Z.neg m else Z.pos m) * 2 ^ e)%Q
  | _ => None
  end.

Definition sameValue (f : PrimFloat.float) (q : Q) : bool :=
  match finiteValue f with
  | Some x => Qeq_bool x q
  | None => false
  end.

(** [a / b] and [(a / b) * b] are the same numbers here and in the
    primitive binary64 numbers, for natural numbers [a] and [b] below
    2^53. *)
Definition agrees (a b : Z) : bool :=
  let q := round (inject_Z a / inject_Z b) in
  let f := PrimFloat.div (Double.ofZ a) (Double.ofZ b) in
  sameValue f q
  && sameValue (PrimFloat.mul f (Double.ofZ b)) (round (q * inject_Z b)).

End Binary64.

(** [getEventPosition] of the week view with the arithmetic of the engine;
    [CalendarWeekView.getEventPosition] evaluates the same two expressions
    exactly. *)
Module CalendarWeekView64.
Import JSDate DateFns Calendar.

Section Component.
Context {tz : TimeZone}.

Definition getEventPosition (event : CalendarEvent) : Px * Px :=
  let dayStart := startOfDay (start event) in
  let minutesFromStart := differenceInMinutes (start event) dayStart in
  let duration := differenceInMinutes (end_ event) (start event) in
  let top :=
    Binary64.mul
      (Binary64.div (JSPx.ofNum minutesFromStart) (JSPx.ofNum 60))
      (JSPx.ofNum CalendarWeekView.HOUR_HEIGHT) in
  let height :=
    JSPx.max
      (Binary64.mul
         (Binary64.div (JSPx.ofNum duration) (JSPx.ofNum 60))
         (JSPx.ofNum CalendarWeekView.HOUR_HEIGHT))
      (JSPx.ofNum 30) in
  (top, height).

End Component.
End CalendarWeekView64.

(** ** [components/CalendarView.tsx]: the container *)

Module CalendarView.
Import Calendar.

Inductive Content : Type :=
| MonthContent (g : CalendarGrid.Grid)
| WeekContent (g : CalendarWeekView.WeekGrid).

Inductive Rendered : Type :=
| NoCourseSelected
| NoEventsFound
| View (toolbar : Date * CalendarView) (content : Content)
       (popup : option CalendarEvent).

Section Component.
Context {tz : TimeZone}.

(** [calendar-content]: the view for the mode. *)
Definition content (view : CalendarView) (currentDate : Date)
    (events : list CalendarEvent) (now : nat -> Z) : Res Content :=
  match view with
  | month =>
      g ← CalendarGrid.CalendarGrid currentDate events now;
      mret (MonthContent g)
  | week =>
      g ← CalendarWeekView.CalendarWeekView currentDate events now;
      mret (WeekContent g)
  end.

(** The component for the state [(currentDate, view, selectedEvent)]. *)
Definition CalendarView (newDate : string -> Date)
    (course : option Api.BackendCourse)
    (currentDate : Date) (view : CalendarView)
    (selectedEvent : option CalendarEvent) (now : nat -> Z) : Res Rendered :=
  let events :=
    match course with
    | Some c => mapBackendEventToCalendarEvent newDate <$> Api.events c
    | None => []
    end in
  match course with
  | None => mret NoCourseSelected
  | Some _ =>
      if (length events =? 0)%nat then mret NoEventsFound
      else
        c ← content view currentDate events now;
        mret (View (currentDate, view) c selectedEvent)
  end.

End Component.
End CalendarView.

(** ** The components on a store of [Date] objects *)

(** The methods [setDate], [setHours] and [setFullYear] change a [Date]
    object in place, and [date-fns] calls them on copies of its arguments.
    Here the [Date] objects live in a store and are passed by reference:
    [toDate] allocates a copy, the setters overwrite the object they are
    called on.  The functions follow the sources statement by statement;
    the methods compute with the functions of [JSDate] on the time value
    of the object. *)

Module Store.
Import JSDate DateFns Calendar.

(** A reference is an index in the store; the store holds the time values
    of the [Date] objects allocated so far. *)
Abbreviation ref := nat (only parsing).
Abbreviation Heap := (list Num) (only parsing).

Definition M (A : Type) : Type := Heap -> Heap * Res A.

#[global] Instance M_ret : MRet M := fun A a h => (h, Ok a).
#[global] Instance M_bind : MBind M := fun A B k m h =>
  match m h with
  | (h', Ok a) => k a h'
  | (h', Throw e) => (h', Throw e)
  end.

(** [m] extends the store [g] and has the result [r]. *)
Definition runs {A : Type} (m : M A) (g : Heap) (r : Res A) : Prop :=
  exists new, m g = (g ++ new, r).

(** The same on every store that extends [h]. *)
Definition runsOn {A : Type} (m : M A) (h : Heap) (r : Res A) : Prop :=
  forall n, runs m (h ++ n) r.

(** The result of code that throws or returns without touching the store. *)
Definition lift {A : Type} (r : Res A) : M A := fun h => (h, r).

Definition deref (h : Heap) (r : ref) : Date := ofTime (default NaN (h !! r)).

(** [new Date(value)] *)
Definition newDate (d : Date) : M ref :=
  fun h => (h ++ [getTime d], Ok (length h)).

Definition read (r : ref) : M Date := fun h => (h, Ok (deref h r)).

(** The setters store a new time value in the object. *)
Definition write (r : ref) (d : Date) : M unit :=
  fun h => (<[r := getTime d]> h, Ok tt).

(** An event object: its dates are references. *)
Record EventObj : Type := {
  obj_id : string;
  obj_title : string;
  obj_type : string;
  obj_start : ref;
  obj_end : ref;
  obj_location : option string;
  obj_courseId : string;
}.

(** The event an event object stands for in a store. *)
Definition derefEvent (h : Heap) (o : EventObj) : CalendarEvent :=
  {| id := obj_id o; title := obj_title o; type := obj_type o;
     start := deref h (obj_start o); end_ := deref h (obj_end o);
     location := obj_location o; courseId := obj_courseId o |}.

Definition snapshot (o : EventObj) : M CalendarEvent :=
  fun h => (h, Ok (derefEvent h o)).

(** [array.filter(f)] for a callback that runs on the store. *)
Fixpoint filterM {A : Type} (f : A -> M bool) (l : list A) : M (list A) :=
  match l with
  | [] => mret []
  | x :: l' =>
      b ← f x;
      rest ← filterM f l';
      mret (if b : bool then x :: rest else rest)
  end.

Section Functions.
Context {tz : TimeZone}.

Definition getTimeM (r : ref) : M Num := d ← read r; mret (getTime d).
Definition getFullYearM (r : ref) : M Num := d ← read r; mret (getFullYear d).
Definition getMonthM (r : ref) : M Num := d ← read r; mret (getMonth d).
Definition getDateM (r : ref) : M Num := d ← read r; mret (getDate d).
Definition getDayM (r : ref) : M Num := d ← read r; mret (getDay d).

Definition setDateM (r : ref) (dt : Num) : M unit :=
  d ← read r; write r (setDate d dt).
Definition setFullYearM (r : ref) (y m dt : Num) : M unit :=
  d ← read r; write r (setFullYear d y m dt).
Definition setHoursM (r : ref) (h m s ms : Z) : M unit :=
  d ← read r; write r (setHours d h m s ms).
Definition setTimeM (r : ref) (t : Num) : M unit := write r (ofTime t).

(** [toDate(date)], [constructFrom(date, date)]: a new object with the
    time value of [date]. *)
Definition toDateM (date : ref) : M ref := d ← read date; newDate d.

Definition startOfDayM (date : ref) : M ref :=
  _date ← toDateM date;
  _ ← setHoursM _date 0 0 0 0;
  mret _date.

Definition startOfMonthM (date : ref) : M ref :=
  _date ← toDateM date;
  _ ← setDateM _date 1;
  _ ← setHoursM _date 0 0 0 0;
  mret _date.

Definition endOfMonthM (date : ref) : M ref :=
  _date ← toDateM date;
  month ← getMonthM _date;
  year ← getFullYearM _date;
  _ ← setFullYearM _date year (month + 1)%num 0;
  _ ← setHoursM _date 23 59 59 999;
  mret _date.

Definition startOfWeekM (date : ref) (options : option Z) : M ref :=
  let weekStartsOn := weekStartsOnOf options in
  _date ← toDateM date;
  day ← getDayM _date;
  let diff :=
    ((if (day <? weekStartsOn)%num then 7 else 0) + day - weekStartsOn)%num in
  dt ← getDateM _date;
  _ ← setDateM _date (dt - diff)%num;
  _ ← setHoursM _date 0 0 0 0;
  mret _date.

Definition endOfWeekM (date : ref) (options : option Z) : M ref :=
  let weekStartsOn := weekStartsOnOf options in
  _date ← toDateM date;
  day ← getDayM _date;
  let diff :=
    ((if (day <? weekStartsOn)%num then -7 else 0) + 6
     - (day - weekStartsOn))%num in
  dt ← getDateM _date;
  _ ← setDateM _date (dt + diff)%num;
  _ ← setHoursM _date 23 59 59 999;
  mret _date.

(** The loop of [eachDayOfInterval]: it pushes a copy of [date] and then
    moves [date] itself to the next day. *)
Fixpoint eachDayLoopM (fuel : nat) (date : ref) (endTime : Num)
  : M (list ref) :=
  match fuel with
  | O => mret []
  | S fuel' =>
      t ← getTimeM date;
      if (t <=? endTime)%num then
        copy ← toDateM date;
        dt ← getDateM date;
        _ ← setDateM date (dt + 1)%num;
        _ ← setHoursM date 0 0 0 0;
        dates ← eachDayLoopM fuel' date endTime;
        mret (copy :: dates)
      else mret []
  end.

Definition eachDayOfIntervalM (start end_ : ref) : M (list ref) :=
  start ← toDateM start;
  end_ ← toDateM end_;
  ts ← getTimeM start;
  te ← getTimeM end_;
  let reversed := (ts >? te)%num in
  let endTime := if reversed then ts else te in
  let date := if reversed then end_ else start in
  _ ← setHoursM date 0 0 0 0;
  d ← read date;
  dates ← eachDayLoopM (eachDayFuel d endTime) date endTime;
  mret (if reversed then reverse dates else dates).

Definition isSameMonthM (laterDate earlierDate : ref) : M bool :=
  laterDate_ ← toDateM laterDate;
  earlierDate_ ← toDateM earlierDate;
  y1 ← getFullYearM laterDate_;
  y2 ← getFullYearM earlierDate_;
  m1 ← getMonthM laterDate_;
  m2 ← getMonthM earlierDate_;
  mret ((y1 =? y2)%num && (m1 =? m2)%num).

Definition isSameDayM (laterDate earlierDate : ref) : M bool :=
  dateLeft_ ← toDateM laterDate;
  dateRight_ ← toDateM earlierDate;
  l ← startOfDayM dateLeft_;
  r ← startOfDayM dateRight_;
  tl ← getTimeM l;
  tr ← getTimeM r;
  mret (tl =? tr)%num.

(** [isToday(date)]: [constructNow] allocates the date of the clock. *)
Definition isTodayM (now : Z) (date : ref) : M bool :=
  date_ ← toDateM date;
  now_ ← newDate (Valid now);
  isSameDayM date_ now_.

Definition differenceInMinutesM (dateLeft dateRight : ref) : M Num :=
  l ← toDateM dateLeft;
  r ← toDateM dateRight;
  tl ← getTimeM l;
  tr ← getTimeM r;
  mret (JSNum.truncDiv (tl - tr)%num millisecondsInMinute).

Definition addMinutesM (date : ref) (amount : Z) : M ref :=
  _date ← toDateM date;
  t ← getTimeM _date;
  _ ← setTimeM _date (t + amount * millisecondsInMinute)%num;
  mret _date.

Definition formatM (date : ref) (formatStr : list Token) : M string :=
  originalDate ← toDateM date;
  d ← read originalDate;
  lift (format d formatStr).

Definition toISOStringM (date : ref) : M string :=
  d ← read date;
  lift (toISOString d).

(** *** The month view *)

Definition getEventsForDayM (events : list EventObj) (day : ref)
  : M (list EventObj) :=
  filterM
    (fun event =>
       eventStart ← toDateM (obj_start event);
       isSameDayM eventStart day)
    events.

Definition eventPillM (event : EventObj) : M CalendarGrid.EventPill :=
  time ← formatM (obj_start event) fmt_h_mm_a;
  e ← snapshot event;
  mret {| CalendarGrid.pill_key := obj_id event;
          CalendarGrid.pill_color := getEventColor (obj_type event);
          CalendarGrid.pill_onClick := e;
          CalendarGrid.pill_title := obj_title event;
          CalendarGrid.pill_time := time;
          CalendarGrid.pill_text := obj_title event |}.

Definition dayCellM (currentDate : ref) (events : list EventObj)
    (now : nat -> Z) (index : nat) (day : ref) : M CalendarGrid.DayCell :=
  dayEvents ← getEventsForDayM events day;
  isCurrentMonth ← isSameMonthM day currentDate;
  isCurrentDay ← isTodayM (now index) day;
  number ← formatM day fmt_d;
  pills ← mapM eventPillM (take 3 dayEvents);
  d ← read day;
  mret {| CalendarGrid.cell_key := index;
          CalendarGrid.cell_day := d;
          CalendarGrid.isCurrentMonth := isCurrentMonth;
          CalendarGrid.isCurrentDay := isCurrentDay;
          CalendarGrid.cell_number := number;
          CalendarGrid.cell_pills := pills;
          CalendarGrid.cell_more :=
            if (3 <? length dayEvents)%nat
            then Some (Z.of_nat (length dayEvents) - 3) else None |}.

Definition CalendarGridM (currentDate : ref) (events : list EventObj)
    (now : nat -> Z) : M CalendarGrid.Grid :=
  monthStart ← startOfMonthM currentDate;
  monthEnd ← endOfMonthM currentDate;
  calendarStart ← startOfWeekM monthStart None;
  calendarEnd ← endOfWeekM monthEnd None;
  days ← eachDayOfIntervalM calendarStart calendarEnd;
  cells ← imapM (dayCellM currentDate events now) days;
  mret {| CalendarGrid.header_row := CalendarGrid.weekDays;
          CalendarGrid.body := cells |}.

(** *** The week view *)

Definition getEventPositionM (event : EventObj) : M (Px * Px) :=
  dayStart ← startOfDayM (obj_start event);
  minutesFromStart ← differenceInMinutesM (obj_start event) dayStart;
  duration ← differenceInMinutesM (obj_end event) (obj_start event);
  let top :=
    JSPx.mul (JSPx.div (JSPx.ofNum minutesFromStart) (JSPx.ofNum 60))
             (JSPx.ofNum CalendarWeekView.HOUR_HEIGHT) in
  let height :=
    JSPx.max
      (JSPx.mul (JSPx.div (JSPx.ofNum duration) (JSPx.ofNum 60))
                (JSPx.ofNum CalendarWeekView.HOUR_HEIGHT))
      (JSPx.ofNum 30) in
  mret (top, height).

Definition eventBlockM (event : EventObj) : M CalendarWeekView.EventBlock :=
  position ← getEventPositionM event;
  time ← formatM (obj_start event) fmt_h_mm_a;
  e ← snapshot event;
  mret {| CalendarWeekView.block_key := obj_id event;
          CalendarWeekView.block_color := getEventColor (obj_type event);
          CalendarWeekView.block_top := position.1;
          CalendarWeekView.block_height := position.2;
          CalendarWeekView.block_onClick := e;
          CalendarWeekView.block_time := time;
          CalendarWeekView.block_title := obj_title event;
          CalendarWeekView.block_location :=
            match obj_location event with
            | Some l => if truthy l then Some l else None
            | None => None
            end |}.

Definition dayColumnM (events : list EventObj) (now : nat -> Z)
    (index : nat) (day : ref) : M CalendarWeekView.DayColumn :=
  dayEvents ← getEventsForDayM events day;
  isCurrentDay ← isTodayM (now index) day;
  key ← toISOStringM day;
  name ← formatM day fmt_EEE;
  number ← formatM day fmt_d;
  blocks ← mapM eventBlockM dayEvents;
  d ← read day;
  mret {| CalendarWeekView.col_key := key;
          CalendarWeekView.col_day := d;
          CalendarWeekView.col_today := isCurrentDay;
          CalendarWeekView.col_name := name;
          CalendarWeekView.col_number := number;
          CalendarWeekView.col_slots :=
            (fun hour => (hour, CalendarWeekView.HOUR_HEIGHT))
              <$> CalendarWeekView.hours;
          CalendarWeekView.col_events := blocks |}.

Definition hourLabelM (currentDate : ref) (hour : Z) : M string :=
  dayStart ← startOfDayM currentDate;
  time ← addMinutesM dayStart (hour * 60);
  formatM time fmt_ha.

Definition CalendarWeekViewM (currentDate : ref) (events : list EventObj)
    (now : nat -> Z) : M CalendarWeekView.WeekGrid :=
  weekStart ← startOfWeekM currentDate None;
  weekEnd ← endOfWeekM currentDate None;
  days ← eachDayOfIntervalM weekStart weekEnd;
  labels ← mapM (hourLabelM currentDate) CalendarWeekView.hours;
  cols ← imapM (dayColumnM events now) days;
  mret {| CalendarWeekView.time_col := labels;
          CalendarWeekView.day_cols := cols |}.

(** *** The container *)

Definition contentM (view : CalendarView) (currentDate : ref)
    (events : list EventObj) (now : nat -> Z) : M CalendarView.Content :=
  match view with
  | month =>
      g ← CalendarGridM currentDate events now;
      mret (CalendarView.MonthContent g)
  | week =>
      g ← CalendarWeekViewM currentDate events now;
      mret (CalendarView.WeekContent g)
  end.

(** The references of the inputs are allocated in the store. *)
Definition allocated (h : Heap) (currentDate : ref) (events : list EventObj)
  : Prop :=
  (currentDate < length h)%nat
  /\ Forall (fun o => (obj_start o < length h)%nat
                      /\ (obj_end o < length h)%nat) events.

End Functions.
End Store.

(** ** [components/CalendarView.tsx]: the state and its handlers *)

(** The functions [handleNavigate] calls: [addMonths], [addWeeks] and
    [startOfToday] of [date-fns], with [addDays] and the method [setMonth]
    of [Date] under them.  The amounts are the literals 1 and -1 of the
    source, integers. *)

Module Navigation.
Import ES JSDate DateFns.

Section Functions.
Context {tz : TimeZone}.

(** The length of the month [M] months after January of year [y], and the
    number of the month of a time value, counted from January of year 0. *)
Definition lengthOfMonth (y M : Z) : Z :=
  monthLength (M mod 12) (leapOfYear (y + M / 12)).
Definition monthIndex (t : Z) : Z :=
  12 * YearFromTime (LocalTime t) + MonthFromTime (LocalTime t).

(** [date.setMonth(month, date)] *)
Definition setMonth (d : Date) (m dt : Num) : Date :=
  match d, m, dt with
  | Valid t, Int m, Int dt =>
      let lt := LocalTime t in
      Valid (UTC (MakeDate (MakeDay (YearFromTime lt) m dt) (TimeWithinDay lt)))
  | _, _, _ => Invalid
  end.

(** [if (!amount) return _date] comes first: zero days are no change. *)
Definition addDays (date : Date) (amount : Z) : Date :=
  let _date := toDate date in
  if amount =? 0 then _date
  else setDate _date (getDate _date + amount)%num.

Definition addWeeks (date : Date) (amount : Z) : Date :=
  let days := amount * 7 in
  addDays date days.

(** The date is set to day 0 of the month after the desired one, which is
    the last day of the desired month; the day of the month is kept when
    the desired month has it, the last day is the result when not. *)
Definition addMonths (date : Date) (amount : Z) : Date :=
  let _date := toDate date in
  if amount =? 0 then _date
  else
    let dayOfMonth := getDate _date in
    let endOfDesiredMonth := ofTime (getTime _date) in
    let endOfDesiredMonth :=
      setMonth endOfDesiredMonth (getMonth _date + amount + 1)%num 0 in
    let daysInMonth := getDate endOfDesiredMonth in
    if (daysInMonth <=? dayOfMonth)%num then endOfDesiredMonth
    else
      setFullYear _date (getFullYear endOfDesiredMonth)
        (getMonth endOfDesiredMonth) dayOfMonth.

(** [startOfToday()] is [startOfDay(Date.now())]; [now] is the reading of
    the clock. *)
Definition startOfToday (now : Z) : Date := startOfDay (Valid now).

End Functions.
End Navigation.

(** The format strings of the toolbar and of the popup have tokens the
    views do not use: the names of the month and of the day in full, the
    abbreviated name of the month, and the year. *)

Module LongFormat.
Import ES JSDate.

Inductive Token : Type :=
| tok_EEEE     (* name of the day of the week *)
| tok_MMMM     (* name of the month *)
| tok_MMM      (* abbreviated name of the month *)
| tok_yyyy     (* year, four digits at least *)
| tok (t : DateFns.Token).

Definition lit (s : string) : Token := tok (DateFns.tok_lit s).

(** "MMMM yyyy", "MMM d, yyyy" and "EEEE, MMMM d, yyyy 'at' h:mm a" *)
Definition fmt_MMMM_yyyy : list Token := [tok_MMMM; lit " "; tok_yyyy].
Definition fmt_MMM_d_yyyy : list Token :=
  [tok_MMM; lit " "; tok DateFns.tok_d; lit ","; lit " "; tok_yyyy].
Definition fmt_full : list Token :=
  [tok_EEEE; lit ","; lit " "; tok_MMMM; lit " "; tok DateFns.tok_d; lit ",";
   lit " "; tok_yyyy; lit " "; lit "at"; lit " "]
  ++ (tok <$> DateFns.fmt_h_mm_a).

Definition dayNamesWide : list string :=
  ["Sunday"; "Monday"; "Tuesday"; "Wednesday"; "Thursday"; "Friday";
   "Saturday"].
Definition monthNamesWide : list string :=
  ["January"; "February"; "March"; "April"; "May"; "June"; "July"; "August";
   "September"; "October"; "November"; "December"].
Definition monthNames : list string :=
  ["Jan"; "Feb"; "Mar"; "Apr"; "May"; "Jun"; "Jul"; "Aug"; "Sep"; "Oct";
   "Nov"; "Dec"].

Section Functions.
Context {tz : TimeZone}.

(** The year of the token [yyyy] is the year of the era: 1 - y for a
    year y that is not positive. *)
Definition formatToken (t : Z) (token : Token) : string :=
  let lt := LocalTime t in
  match token with
  | tok_EEEE => default "" (dayNamesWide !! Z.to_nat (WeekDay lt))
  | tok_MMMM => default "" (monthNamesWide !! Z.to_nat (MonthFromTime lt))
  | tok_MMM => default "" (monthNames !! Z.to_nat (MonthFromTime lt))
  | tok_yyyy =>
      let signedYear := YearFromTime lt in
      let year := if 0 <? signedYear then signedYear else 1 - signedYear in
      padZeros 4 year
  | tok token' => DateFns.formatToken t token'
  end.

(** [format(date, formatStr)] throws on an invalid date. *)
Definition format (date : Date) (formatStr : list Token) : Res string :=
  match date with
  | Invalid => Throw "RangeError: Invalid time value"
  | Valid t =>
      Ok (foldr (fun token acc => (formatToken t token +:+ acc)%string) ""
            formatStr)
  end.

End Functions.
End LongFormat.

(** ** [components/CalendarToolbar.tsx] *)

Module CalendarToolbar.
Import Calendar LongFormat.

Record Toolbar : Type := {
  dateLabel : string;
  week_active : bool;        (* the class active of the button Week *)
  month_active : bool;       (* the class active of the button Month *)
  export_button : bool;      (* onExport && the button Export to Google *)
}.

Section Component.
Context {tz : TimeZone}.

(** [onExport] is given or undefined. *)
Definition CalendarToolbar (currentDate : Date) (view : CalendarView)
    (onExport : bool) : Res Toolbar :=
  dateLabel ←
    match view with
    | month => format currentDate fmt_MMMM_yyyy
    | week => format currentDate fmt_MMM_d_yyyy
    end;
  mret {| dateLabel := dateLabel;
          week_active := match view with week => true | month => false end;
          month_active := match view with month => true | week => false end;
          export_button := onExport |}.

End Component.
End CalendarToolbar.

(** ** [components/EventDetailPopup.tsx] *)

Module EventDetailPopup.
Import Calendar LongFormat.

Record Popup : Type := {
  popup_title : string;            (* event.title *)
  badge_color : string;            (* the class after event-badge *)
  badge_text : string;             (* event.type *)
  start_value : string;
  end_value : string;
  location_value : option string;  (* event.location && ... *)
}.

Section Component.
Context {tz : TimeZone}.

Definition EventDetailPopup (event : CalendarEvent) : Res Popup :=
  start_value ← format (start event) fmt_full;
  end_value ← format (end_ event) fmt_full;
  mret {| popup_title := title event;
          badge_color := getEventColor (type event);
          badge_text := type event;
          start_value := start_value;
          end_value := end_value;
          location_value :=
            match location event with
            | Some l => if truthy l then Some l else None
            | None => None
            end |}.

End Component.
End EventDetailPopup.

(** ** [components/CalendarView.tsx] with its state and its children *)

(** [CalendarView.CalendarView] above gives the element of the component
    with the properties it hands to the toolbar and to the popup.  Here the
    state of the component is a record, its handlers are functions on the
    state, and the children are rendered as well. *)

Module CalendarPage.
Import JSDate DateFns Calendar Navigation.

Record State : Type := {
  currentDate : Date;
  view : CalendarView;
  selectedEvent : option CalendarEvent;
}.

Inductive Direction : Type := prev | next | today.

(** What the user can do on the page: the buttons Today, Previous and Next
    of the toolbar ([now] is the clock when the button is pressed), its
    buttons Week and Month, the button of an event, and closing the popup
    (its button, a click outside of it, the key Escape). *)
Inductive Action : Type :=
| Navigate (direction : Direction) (now : Z)
| ViewChange (v : CalendarView)
| EventClick (event : CalendarEvent)
| ClosePopup.

Record Page : Type := {
  toolbar : CalendarToolbar.Toolbar;
  calendar_content : CalendarView.Content;
  popup : option EventDetailPopup.Popup;
}.

Inductive Rendered : Type :=
| NoCourseSelected
| NoEventsFound
| CalendarPage (page : Page).

Section Component.
Context {tz : TimeZone}.

(** [useState(startOfToday())], [useState("week")], [useState(null)] *)
Definition initial (now : Z) : State :=
  {| currentDate := startOfToday now; view := week; selectedEvent := None |}.

Definition setCurrentDate (f : Date -> Date) (s : State) : State :=
  {| currentDate := f (currentDate s); view := view s;
     selectedEvent := selectedEvent s |}.

Definition setView (v : CalendarView) (s : State) : State :=
  {| currentDate := currentDate s; view := v;
     selectedEvent := selectedEvent s |}.

Definition setSelectedEvent (e : option CalendarEvent) (s : State) : State :=
  {| currentDate := currentDate s; view := view s; selectedEvent := e |}.

Definition handleNavigate (now : Z) (direction : Direction) (s : State)
  : State :=
  match direction with
  | today => setCurrentDate (fun _ => startOfToday now) s
  | prev =>
      setCurrentDate
        (fun prev =>
           match view s with
           | month => addMonths prev (-1)
           | week => addWeeks prev (-1)
           end) s
  | next =>
      setCurrentDate
        (fun prev =>
           match view s with
           | month => addMonths prev 1
           | week => addWeeks prev 1
           end) s
  end.

Definition handleEventClick (event : CalendarEvent) (s : State) : State :=
  setSelectedEvent (Some event) s.

(** The course id handed to [onExport], when there is a course and
    [onExport] is given. *)
Definition handleExport (course : option Api.BackendCourse) (onExport : bool)
  : option string :=
  match course with
  | Some c => if onExport then Some (Api.course_ident c) else None
  | None => None
  end.

Definition step (s : State) (a : Action) : State :=
  match a with
  | Navigate direction now => handleNavigate now direction s
  | ViewChange v => setView v s
  | EventClick event => handleEventClick event s
  | ClosePopup => setSelectedEvent None s
  end.

(** The state after a sequence of actions. *)
Definition run (s : State) (actions : list Action) : State :=
  foldl step s actions.

(** The component in the state [s]. *)
Definition CalendarView (newDate : string -> Date)
    (course : option Api.BackendCourse) (onExport : bool) (s : State)
    (now : nat -> Z) : Res Rendered :=
  let events :=
    match course with
    | Some c => mapBackendEventToCalendarEvent newDate <$> Api.events c
    | None => []
    end in
  match course with
  | None => mret NoCourseSelected
  | Some _ =>
      if (length events =? 0)%nat then mret NoEventsFound
      else
        toolbar ←
          CalendarToolbar.CalendarToolbar (currentDate s) (view s) onExport;
        content ← CalendarView.content (view s) (currentDate s) events now;
        popup ←
          match selectedEvent s with
          | Some event =>
              p ← EventDetailPopup.EventDetailPopup event; mret (Some p)
          | None => mret None
          end;
        mret (CalendarPage {| toolbar := toolbar;
                              calendar_content := content;
                              popup := popup |})
  end.

End Component.
End CalendarPage.

(** ** [components/ParsedEvents.tsx]: the list of the parsed events *)

Module ParsedEvents.
Import Calendar.

(** The icons are emoji: U+1F4DA, U+1F52C, U+1F4DD, U+1F393, U+1F4CB and
    U+1F4C5. *)
Inductive Icon : Type :=
| books | microscope | memo | graduation_cap | clipboard | calendar.

Definition getEventTypeColor (type : string) : string :=
  let lowerType := toLowerCase type in
  if includes lowerType "lecture" || includes lowerType "class" then "blue"
  else if includes lowerType "lab" then "purple"
  else if includes lowerType "midterm" || includes lowerType "test" then
    "orange"
  else if includes lowerType "final" || includes lowerType "exam" then "red"
  else if includes lowerType "assignment" || includes lowerType "project" then
    "green"
  else "gray".

Definition getEventTypeIcon (type : string) : Icon :=
  let lowerType := toLowerCase type in
  if includes lowerType "lecture" || includes lowerType "class" then books
  else if includes lowerType "lab" then microscope
  else if includes lowerType "midterm" || includes lowerType "test" then memo
  else if includes lowerType "final" || includes lowerType "exam" then
    graduation_cap
  else if includes lowerType "assignment" || includes lowerType "project" then
    clipboard
  else calendar.

Record EventCard : Type := {
  card_key : string;               (* key = event.id *)
  card_icon : Icon;
  card_title : string;
  card_color : string;             (* the class after event-badge *)
  card_badge : string;             (* event.type *)
  card_start : string;
  card_end : option string;        (* event.end && ... *)
  card_location : option string;   (* event.location && ... *)
}.

Section Component.
(** [new Date(iso)] and [d.toLocaleString("en-US", ...)] are the parser
    and the formatter of the engine, parameters here. *)
Variable newDate : string -> Date.
Variable toLocaleString : Date -> string.

Definition formatDateTime (iso : option string) : string :=
  match iso with
  | Some s => if truthy s then toLocaleString (newDate s) else ""
  | None => ""
  end.

Definition eventCard (event : Api.BackendEvent) : EventCard :=
  let color := getEventTypeColor (Api.type event) in
  let icon := getEventTypeIcon (Api.type event) in
  {| card_key := Api.id event;
     card_icon := icon;
     card_title := Api.title event;
     card_color := color;
     card_badge := Api.type event;
     card_start := formatDateTime (Some (Api.start event));
     card_end :=
       match Api.end_ event with
       | Some e => if truthy e then Some (formatDateTime (Some e)) else None
       | None => None
       end;
     card_location :=
       match Api.location event with
       | Some l => if truthy l then Some l else None
       | None => None
       end |}.

(** The component: the empty state ([None]) when there are no events, the
    cards of the events when there are. *)
Definition ParsedEvents (events : list Api.BackendEvent)
  : option (list EventCard) :=
  if (length events =? 0)%nat then None else Some (eventCard <$> events).

End Component.
End ParsedEvents.
(** ** [App.tsx]: the files selected for upload *)

(** The part of the state of [App] that [handleFileChange] and
    [removeFile] write, the only handlers that set [selectedFiles]. *)

Module App.

Section Files.
Variable File : Type.

Record State : Type := {
  selectedFiles : list File;
  course : option Api.BackendCourse;
  error : option string;
  syncMessage : option string;
}.

Inductive Action : Type :=
| FileChange (incoming : list File)
| RemoveFile (index : nat).

Definition initial : State :=
  {| selectedFiles := []; course := None; error := None;
     syncMessage := None |}.

(** [array.filter((_, i) => keep(i))], from the index [i] on. *)
Fixpoint filterIndex (keep : nat -> bool) (i : nat) (l : list File)
  : list File :=
  match l with
  | [] => []
  | x :: l' =>
      if keep i then x :: filterIndex keep (S i) l'
      else filterIndex keep (S i) l'
  end.

Definition handleFileChange (incoming : list File) (s : State) : State :=
  if (length incoming =? 0)%nat then s
  else
    let prev := selectedFiles s in
    let merged := prev ++ incoming in
    let limited := take 2 merged in
    {| selectedFiles := limited;
       course := None;
       error :=
         if (2 <? length merged)%nat
         then Some "You can upload up to 2 PDFs; extra files were ignored."
         else None;
       syncMessage := None |}.

Definition removeFile (index : nat) (s : State) : State :=
  {| selectedFiles :=
       filterIndex (fun i => negb (i =? index)%nat) 0 (selectedFiles s);
     course := course s;
     error := None;
     syncMessage := syncMessage s |}.

Definition step (s : State) (a : Action) : State :=
  match a with
  | FileChange incoming => handleFileChange incoming s
  | RemoveFile index => removeFile index s
  end.

Definition run (s : State) (actions : list Action) : State :=
  foldl step s actions.

End Files.
End App.

(** ** [components/CalendarAssistant.tsx]: the chat with the calendar *)

(** [send] runs up to its [await], and resumes when the call to
    [chatWithCalendar] is settled, with the constant [updatedMessages] of
    its run.  The calls on their way are kept beside the state of the
    component: [Settle i o] settles the call with index [i]. *)

Module CalendarAssistant.
Import Calendar.

Inductive Role : Type := user | assistant.

(** [ChatMessage] of [api.ts] *)
Record ChatMessage : Type := {
  role : Role;
  content : string;
}.

(** White space and line terminators among the code units below 256:
    U+0009 to U+000D, U+0020 and U+00A0. *)
Definition isWhiteSpace (c : ascii) : bool :=
  let n := N_of_ascii c in
  ((9 <=? n) && (n <=? 13) || (n =? 32) || (n =? 160))%N.

Fixpoint trimStart (s : string) : string :=
  match s with
  | EmptyString => EmptyString
  | String c s' => if isWhiteSpace c then trimStart s' else s
  end.

Fixpoint trimEnd (s : string) : string :=
  match s with
  | EmptyString => EmptyString
  | String c s' =>
      match trimEnd s' with
      | EmptyString => if isWhiteSpace c then EmptyString else String c EmptyString
      | String _ _ as rest => String c rest
      end
  end.

(** [s.trim()] *)
Definition trim (s : string) : string := trimEnd (trimStart s).

Record State : Type := {
  messages : list ChatMessage;
  input : string;
  loading : bool;
  error : option string;
}.

(** What the call gives: the reply, or an exception with its message,
    if it has one. *)
Inductive Outcome : Type :=
| Reply (reply : string)
| Failed (message : option string).

Inductive Event : Type :=
| SetInput (value : string)
| Send                      (* the button Send, or the key Enter *)
| Settle (i : nat) (outcome : Outcome).

Record World : Type := {
  state : State;
  pending : list (list ChatMessage);
}.

Definition initial : State :=
  {| messages := []; input := ""; loading := false; error := None |}.

(** [send] up to the [await]: the state, and the messages handed to
    [chatWithCalendar] when the call is made. *)
Definition send (s : State) : State * option (list ChatMessage) :=
  let trimmed := trim (input s) in
  if negb (truthy trimmed) || loading s then (s, None)
  else
    let updatedMessages :=
      messages s ++ [{| role := user; content := trimmed |}] in
    ({| messages := updatedMessages; input := ""; loading := true;
        error := None |},
     Some updatedMessages).

(** [send] from the [await] on. *)
Definition resume (updatedMessages : list ChatMessage) (outcome : Outcome)
    (s : State) : State :=
  match outcome with
  | Reply reply =>
      {| messages :=
           updatedMessages ++ [{| role := assistant; content := reply |}];
         input := input s; loading := false; error := error s |}
  | Failed message =>
      {| messages := messages s; input := input s; loading := false;
         error := Some (default "Chat request failed" message) |}
  end.

Definition step (w : World) (e : Event) : World :=
  match e with
  | SetInput value =>
      {| state := {| messages := messages (state w); input := value;
                     loading := loading (state w);
                     error := error (state w) |};
         pending := pending w |}
  | Send =>
      let '(s, call) := send (state w) in
      {| state := s;
         pending :=
           pending w ++ match call with Some m => [m] | None => [] end |}
  | Settle i outcome =>
      match pending w !! i with
      | Some updatedMessages =>
          {| state := resume updatedMessages outcome (state w);
             pending := delete i (pending w) |}
      | None => w
      end
  end.

Definition run (w : World) (events : list Event) : World :=
  foldl step w events.

(** The invariant of the chat. *)

(** A string that does not start with white space. *)
Definition trimmedStart (s : string) : Prop :=
  match s with
  | EmptyString => True
  | String c _ => isWhiteSpace c = false
  end.

(** The messages of the user are trimmed and not empty. *)
Definition wellFormed (m : ChatMessage) : Prop :=
  role m = user -> content m <> "" /\ trim (content m) = content m.

(** No call is on its way and the component is not loading, or one call
    is, with the messages of the state. *)
Definition inv (w : World) : Prop :=
  (pending w = [] /\ loading (state w) = false
   \/ pending w = [messages (state w)] /\ loading (state w) = true)
  /\ Forall wellFormed (messages (state w)).

End CalendarAssistant.

(** ** Navigation on the store of [Date] objects *)

(** The functions of [Navigation] statement by statement, with the [Date]
    objects passed by reference as in [Store], and the function
    [handleNavigate] hands to [setCurrentDate]. *)

Module NavigationStore.
Import JSDate DateFns Calendar Store Navigation CalendarPage.

Section Functions.
Context {tz : TimeZone}.

Definition setMonthM (r : nat) (m dt : Num) : M unit :=
  d ← read r; write r (setMonth d m dt).

Definition addDaysM (date : nat) (amount : Z) : M nat :=
  _date ← toDateM date;
  if amount =? 0 then mret _date
  else
    dt ← getDateM _date;
    _ ← setDateM _date (dt + amount)%num;
    mret _date.

Definition addWeeksM (date : nat) (amount : Z) : M nat :=
  let days := amount * 7 in
  addDaysM date days.

(** [constructFrom(date, _date.getTime())] is a new object. *)
Definition addMonthsM (date : nat) (amount : Z) : M nat :=
  _date ← toDateM date;
  if amount =? 0 then mret _date
  else
    dayOfMonth ← getDateM _date;
    t ← getTimeM _date;
    endOfDesiredMonth ← newDate (ofTime t);
    month ← getMonthM _date;
    _ ← setMonthM endOfDesiredMonth (month + amount + 1)%num 0;
    daysInMonth ← getDateM endOfDesiredMonth;
    if (daysInMonth <=? dayOfMonth)%num then mret endOfDesiredMonth
    else
      year ← getFullYearM endOfDesiredMonth;
      month ← getMonthM endOfDesiredMonth;
      _ ← setFullYearM _date year month dayOfMonth;
      mret _date.

(** [startOfDay(Date.now())]: [toDate] makes an object of the number, and
    [startOfDay] a copy of it. *)
Definition startOfTodayM (now : Z) : M nat :=
  now_ ← newDate (Valid now);
  startOfDayM now_.

(** The new value of [currentDate] that [handleNavigate] asks for: from the
    clock for "today", from the object [previous] of the state for "prev"
    and "next". *)
Definition navigateM (now : Z) (direction : Direction)
    (view : Calendar.CalendarView) (previous : nat) : M nat :=
  match direction with
  | today => startOfTodayM now
  | prev =>
      match view with
      | month => addMonthsM previous (-1)
      | week => addWeeksM previous (-1)
      end
  | next =>
      match view with
      | month => addMonthsM previous 1
      | week => addWeeksM previous 1
      end
  end.

End Functions.
End NavigationStore.

(** ** Concrete inputs *)

Module Examples.
Import ES Calendar.

Definition utc : TimeZone := 0.
(** UTC+10:00 all year, as in Brisbane. *)
Definition brisbane : TimeZone := 10 * msPerHour.

(** The time value of a date and time of UTC; months count from 0. *)
Definition at_utc (year month date hour min : Z) : Z :=
  MakeDate (MakeDay year month date) (MakeTime hour min 0 0).

(** A clock that stands at 2025-11-03T09:00:00Z. *)
Definition clock : nat -> Z := fun _ => at_utc 2025 10 3 9 0.

Definition event (ident ty : string) (from to : Date) : CalendarEvent :=
  {| id := ident; title := ty; type := ty; start := from; end_ := to;
     location := None; courseId := "course" |}.

(** The event of the scenario of the specification:
    2025-03-10T14:00:00Z to 2025-03-10T15:30:00Z. *)
Definition midterm1 : CalendarEvent :=
  {| id := "e1"; title := "Midterm 1"; type := "Midterm";
     start := Valid (at_utc 2025 2 10 14 0);
     end_ := Valid (at_utc 2025 2 10 15 30);
     location := None; courseId := "course" |}.

(** Five events on 2025-03-10, at 9:00, 10:00, ... 13:00 UTC. *)
Definition five : list CalendarEvent :=
  (fun n : Z =>
     event (pretty n) "Lecture"
       (Valid (at_utc 2025 2 10 (9 + n) 0)) (Valid (at_utc 2025 2 10 (10 + n) 0)))
  <$> [0; 1; 2; 3; 4].

Definition empty_grid : CalendarGrid.Grid :=
  {| CalendarGrid.header_row := []; CalendarGrid.body := [] |}.

(** The month view of March 2025 in UTC for the events [five]. *)
Definition march_five : CalendarGrid.Grid :=
  Eval vm_compute in
    match CalendarGrid.CalendarGrid (tz := utc) (Valid (at_utc 2025 2 1 0 0))
            five clock with
    | Ok g => g
    | Throw _ => empty_grid
    end.

(** Events of 2025-03-10: a lecture from 9:00 to 10:00, a midterm at 14:00
    without an end (the end defaults to the start), a quiz at 16:00 whose
    end is invalid, and a final whose start and end are invalid. *)
Definition lecture : CalendarEvent :=
  event "a" "Lecture" (Valid (at_utc 2025 2 10 9 0)) (Valid (at_utc 2025 2 10 10 0)).
Definition midterm : CalendarEvent :=
  event "b" "Midterm" (Valid (at_utc 2025 2 10 14 0)) (Valid (at_utc 2025 2 10 14 0)).
Definition quiz : CalendarEvent :=
  event "c" "Quiz" (Valid (at_utc 2025 2 10 16 0)) Invalid.
Definition final : CalendarEvent :=
  event "d" "Final" Invalid Invalid.
Definition mixed : list CalendarEvent := [lecture; midterm; quiz; final].

Definition empty_week : CalendarWeekView.WeekGrid :=
  {| CalendarWeekView.time_col := []; CalendarWeekView.day_cols := [] |}.

(** The week view of the week of 2025-03-10 in UTC for the events [mixed],
    and its column of Monday the 10th. *)
Definition week_mixed : CalendarWeekView.WeekGrid :=
  Eval vm_compute in
    match CalendarWeekView.CalendarWeekView (tz := utc)
            (Valid (at_utc 2025 2 12 0 0)) mixed clock with
    | Ok g => g
    | Throw _ => empty_week
    end.

(** The month view of March 2025 in UTC for the midterm of the scenario,
    built on the 10th and on the 11th of March. *)
Definition march_on_10th : CalendarGrid.Grid :=
  Eval vm_compute in
    match CalendarGrid.CalendarGrid (tz := utc) (Valid (at_utc 2025 2 1 0 0))
            [midterm1] (fun _ => at_utc 2025 2 10 9 0) with
    | Ok g => g
    | Throw _ => empty_grid
    end.
Definition march_on_11th : CalendarGrid.Grid :=
  Eval vm_compute in
    match CalendarGrid.CalendarGrid (tz := utc) (Valid (at_utc 2025 2 1 0 0))
            [midterm1] (fun _ => at_utc 2025 2 11 9 0) with
    | Ok g => g
    | Throw _ => empty_grid
    end.

Definition empty_col : CalendarWeekView.DayColumn :=
  {| CalendarWeekView.col_key := ""; CalendarWeekView.col_day := Invalid;
     CalendarWeekView.col_today := false; CalendarWeekView.col_name := "";
     CalendarWeekView.col_number := ""; CalendarWeekView.col_slots := [];
     CalendarWeekView.col_events := [] |}.

Definition empty_block : CalendarWeekView.EventBlock :=
  {| CalendarWeekView.block_key := ""; CalendarWeekView.block_color := "";
     CalendarWeekView.block_top := None; CalendarWeekView.block_height := None;
     CalendarWeekView.block_onClick := final;
     CalendarWeekView.block_time := ""; CalendarWeekView.block_title := "";
     CalendarWeekView.block_location := None |}.

(** The column of Monday the 10th in [week_mixed] and its first two blocks. *)
Definition monday : CalendarWeekView.DayColumn :=
  Eval vm_compute in
    default empty_col (CalendarWeekView.day_cols week_mixed !! 1%nat).
Definition block_lecture : CalendarWeekView.EventBlock :=
  Eval vm_compute in
    default empty_block (CalendarWeekView.col_events monday !! 0%nat).
Definition block_midterm : CalendarWeekView.EventBlock :=
  Eval vm_compute in
    default empty_block (CalendarWeekView.col_events monday !! 1%nat).

(** A store with the current date 2025-03-12T00:00:00Z and the dates of
    the midterm of the scenario, and the event object of the midterm. *)
Definition store0 : list Num :=
  [Int (at_utc 2025 2 12 0 0); Int (at_utc 2025 2 10 14 0);
   Int (at_utc 2025 2 10 15 30)].
Definition midtermObj : Store.EventObj :=
  {| Store.obj_id := "e1"; Store.obj_title := "Midterm 1";
     Store.obj_type := "Midterm"; Store.obj_start := 1; Store.obj_end := 2;
     Store.obj_location := None; Store.obj_courseId := "course" |}.

(** A lecture of 2025-03-10 from 0:31 to 1:31 UTC, and the week view of
    the week of 2025-03-10 in UTC for it and the quiz. *)
Definition early : CalendarEvent :=
  event "e" "Lecture" (Valid (at_utc 2025 2 10 0 31))
    (Valid (at_utc 2025 2 10 1 31)).
Definition week_early : CalendarWeekView.WeekGrid :=
  Eval vm_compute in
    match CalendarWeekView.CalendarWeekView (tz := utc)
            (Valid (at_utc 2025 2 12 0 0)) [early; quiz] clock with
    | Ok g => g
    | Throw _ => empty_week
    end.

End Examples.

(** * Part II: facts about the embedding *)

(** ** Code that can throw *)

Module ResFacts.

Lemma bind_Ok {A B : Type} (m : Res A) (k : A -> Res B) (b : B) :
  m ≫= k = Ok b <-> exists a, m = Ok a /\ k a = Ok b.
Proof.
  destruct m as [a|e]; cbn.
  - split; [by exists a|by intros (? & [= ->] & ?)].
  - split; [done|by intros (? & ? & ?)].
Qed.

Lemma mapM_Ok {A B : Type} (f : A -> Res B) (l : list A) (k : list B) :
  mapM f l = Ok k <-> Forall2 (fun x y => f x = Ok y) l k.
Proof.
  revert k. induction l as [|x l IH]; intros k; cbn.
  - split; [by intros [= <-]; constructor|by inversion 1].
  - rewrite bind_Ok. split.
    + intros (y & Hy & H). apply bind_Ok in H as (ys & Hys & [= <-]).
      constructor; [done|by apply IH].
    + inversion 1 as [|? y ? ys Hy Hys]; subst. exists y. split; [done|].
      apply bind_Ok. exists ys. split; [by apply IH|done].
Qed.

Lemma mapM_ext {A B : Type} (f g : A -> Res B) (l : list A) :
  (forall x, f x = g x) -> mapM f l = mapM g l.
Proof. intros H. induction l as [|x l IH]; cbn; [done|]. by rewrite H, IH. Qed.

Lemma imapM_ext {A B : Type} (f g : nat -> A -> Res B) (l : list A) :
  (forall i x, f i x = g i x) -> imapM f l = imapM g l.
Proof. intros H. apply mapM_ext. intros [i x]. apply H. Qed.

Lemma mapM_fmap {A B C : Type} (F : B -> Res C) (f : A -> B) (l : list A) :
  mapM F (f <$> l) = mapM (fun x => F (f x)) l.
Proof. induction l as [|x l IH]; cbn; [done|]. by rewrite IH. Qed.

Lemma imapM_fmap {A B C : Type} (F : nat -> B -> Res C) (f : A -> B)
    (l : list A) :
  imapM F (f <$> l) = imapM (fun i x => F i (f x)) l.
Proof.
  unfold imapM. rewrite length_fmap. generalize (seq 0 (length l)).
  induction l as [|x l IH]; intros [|j js]; cbn; try done.
  by rewrite IH.
Qed.

(** A traversal throws only if the callback throws on an element. *)
Lemma mapM_total {A B : Type} (f : A -> Res B) (l : list A) :
  Forall (fun x => exists y, f x = Ok y) l -> exists k, mapM f l = Ok k.
Proof.
  induction 1 as [|x l [y Hy] _ [k Hk]].
  - by exists [].
  - exists (y :: k). apply mapM_Ok. constructor; [done|by apply mapM_Ok].
Qed.

Lemma imapM_Ok {A B : Type} (f : nat -> A -> Res B) (l : list A) (k : list B) :
  imapM f l = Ok k
  <-> length k = length l
      /\ forall i x y, l !! i = Some x -> k !! i = Some y -> f i x = Ok y.
Proof.
  unfold imapM. rewrite mapM_Ok, Forall2_lookup. split.
  - intros H. split.
    + apply (inj Z.of_nat). assert (Hlen : forall i, is_Some (k !! i)
        <-> is_Some (l !! i)); [|apply Nat2Z.inj_iff].
      { intros i. specialize (H i). rewrite !lookup_lt_is_Some.
        destruct (k !! i) eqn:Ek, (zip (seq 0 (length l)) l !! i) eqn:El;
          inversion H; subst.
        - apply lookup_lt_Some in Ek. apply lookup_lt_Some in El.
          rewrite length_zip, length_seq in El. lia.
        - apply lookup_ge_None in Ek. apply lookup_ge_None in El.
          rewrite length_zip, length_seq in El. lia. }
      destruct (Nat.lt_trichotomy (length k) (length l)) as [Hlt|[?|Hlt]];
        [|done|].
      * apply lookup_lt_is_Some, Hlen, lookup_lt_is_Some in Hlt. lia.
      * apply lookup_lt_is_Some, Hlen, lookup_lt_is_Some in Hlt. lia.
    + intros i x y Hx Hy. specialize (H i).
      assert (Hz : zip (seq 0 (length l)) l !! i = Some (i, x)).
      { rewrite lookup_zip_with, lookup_seq_lt
          by (by apply lookup_lt_Some in Hx). cbn. by rewrite Hx. }
      rewrite Hz, Hy in H. by inversion H.
  - intros [Hlen H] i.
    destruct (l !! i) as [x|] eqn:Hx.
    + assert (Hz : zip (seq 0 (length l)) l !! i = Some (i, x)).
      { rewrite lookup_zip_with, lookup_seq_lt
          by (by apply lookup_lt_Some in Hx). cbn. by rewrite Hx. }
      destruct (k !! i) as [y|] eqn:Hy.
      * rewrite Hz. constructor. by apply (H i x y).
      * apply lookup_lt_Some in Hx. apply lookup_ge_None in Hy. lia.
    + assert (Hz : zip (seq 0 (length l)) l !! i = None).
      { apply lookup_ge_None. rewrite length_zip, length_seq.
        apply lookup_ge_None in Hx. lia. }
      rewrite Hz. apply lookup_ge_None in Hx.
      rewrite (proj2 (lookup_ge_None k i)) by lia. constructor.
Qed.

Lemma imapM_total {A B : Type} (f : nat -> A -> Res B) (l : list A) :
  (forall i x, l !! i = Some x -> exists y, f i x = Ok y) ->
  exists k, imapM f l = Ok k.
Proof.
  intros H. apply mapM_total, Forall_lookup. intros i [j x] Hz.
  apply lookup_zip_with_Some in Hz as (j' & x' & [= <- <-] & Hj & Hx).
  apply lookup_seq in Hj as [-> _]. cbn. by apply H.
Qed.

End ResFacts.

(** ** The date arithmetic *)

Module ESFacts.
Import ES.

Ltac divmod := Z.div_mod_to_equations; lia.

Lemma DayFromYear_succ y : DayFromYear (y + 1) = DayFromYear y + DaysInYear y.
Proof.
  unfold DayFromYear, DaysInYear.
  destruct (Z.eqb_spec (y mod 4) 0) as [H4|H4]; cbn [negb].
  - destruct (Z.eqb_spec (y mod 100) 0) as [H100|H100]; cbn [negb].
    + destruct (Z.eqb_spec (y mod 400) 0) as [H400|H400]; cbn [negb].
      * assert (E1 : (y + 1 - 1969) / 4 = (y - 1969) / 4 + 1) by divmod.
        assert (E2 : (y + 1 - 1901) / 100 = (y - 1901) / 100 + 1) by divmod.
        assert (E3 : (y + 1 - 1601) / 400 = (y - 1601) / 400 + 1) by divmod.
        rewrite E1, E2, E3; lia.
      * assert (E1 : (y + 1 - 1969) / 4 = (y - 1969) / 4 + 1) by divmod.
        assert (E2 : (y + 1 - 1901) / 100 = (y - 1901) / 100 + 1) by divmod.
        assert (E3 : (y + 1 - 1601) / 400 = (y - 1601) / 400) by divmod.
        rewrite E1, E2, E3; lia.
    + assert (E1 : (y + 1 - 1969) / 4 = (y - 1969) / 4 + 1) by divmod.
      assert (E2 : (y + 1 - 1901) / 100 = (y - 1901) / 100) by divmod.
      assert (E3 : (y + 1 - 1601) / 400 = (y - 1601) / 400) by divmod.
      rewrite E1, E2, E3; lia.
  - assert (E1 : (y + 1 - 1969) / 4 = (y - 1969) / 4) by divmod.
    assert (E2 : (y + 1 - 1901) / 100 = (y - 1901) / 100) by divmod.
    assert (E3 : (y + 1 - 1601) / 400 = (y - 1601) / 400) by divmod.
    rewrite E1, E2, E3; lia.
Qed.

Lemma DaysInYear_cases y : DaysInYear y = 365 \/ DaysInYear y = 366.
Proof. unfold DaysInYear. repeat destruct (negb _); auto. Qed.

Lemma leapOfYear_cases y :
  (leapOfYear y = 0 /\ DaysInYear y = 365)
  \/ (leapOfYear y = 1 /\ DaysInYear y = 366).
Proof.
  unfold leapOfYear. destruct (DaysInYear_cases y) as [E|E]; rewrite E; auto.
Qed.

Lemma DayFromYear_lt_succ y : DayFromYear y < DayFromYear (y + 1).
Proof.
  rewrite DayFromYear_succ. destruct (DaysInYear_cases y); lia.
Qed.

Lemma DayFromYear_mono y y' : y <= y' -> DayFromYear y <= DayFromYear y'.
Proof.
  intros Hle. replace y' with (y + Z.of_nat (Z.to_nat (y' - y))) by lia.
  induction (Z.to_nat (y' - y)) as [|n IH].
  - replace (y + Z.of_nat 0) with y by lia. lia.
  - replace (y + Z.of_nat (S n)) with (y + Z.of_nat n + 1) by lia.
    pose proof (DayFromYear_lt_succ (y + Z.of_nat n)). lia.
Qed.

Lemma DayFromYear_bounds y :
  146097 * (y - 1970) - 506 <= 400 * DayFromYear y
    <= 146097 * (y - 1970) + 589.
Proof. unfold DayFromYear. divmod. Qed.

(** The defining property of [YearFromTime]. *)
Lemma YearFromDay_spec d :
  DayFromYear (YearFromDay d) <= d < DayFromYear (YearFromDay d + 1).
Proof.
  unfold YearFromDay.
  set (y := 1970 + 400 * d / 146097).
  assert (Hy : 146097 * (y - 1970) <= 400 * d
               < 146097 * (y - 1970) + 146097) by (unfold y; divmod).
  pose proof (DayFromYear_bounds (y - 1)).
  pose proof (DayFromYear_bounds (y + 2)).
  destruct (Z.ltb_spec d (DayFromYear y)).
  - replace (y - 1 + 1) with y by lia. lia.
  - destruct (Z.leb_spec (DayFromYear (y + 1)) d).
    + replace (y + 1 + 1) with (y + 2) by lia. lia.
    + lia.
Qed.

Lemma YearFromDay_unique d y :
  DayFromYear y <= d < DayFromYear (y + 1) -> YearFromDay d = y.
Proof.
  intros Hd. pose proof (YearFromDay_spec d) as Hs.
  destruct (Z.lt_trichotomy (YearFromDay d) y) as [Hlt|[Heq|Hgt]]; [|done|].
  - pose proof (DayFromYear_mono (YearFromDay d + 1) y). lia.
  - pose proof (DayFromYear_mono (y + 1) (YearFromDay d)). lia.
Qed.

Lemma DayWithinYear_range t :
  0 <= DayWithinYear t < DaysInYear (YearFromTime t).
Proof.
  unfold DayWithinYear, YearFromTime.
  pose proof (YearFromDay_spec (Day t)) as Hs.
  rewrite DayFromYear_succ in Hs. lia.
Qed.

Lemma monthLength_range m leap :
  0 <= leap <= 1 -> 28 <= monthLength m leap <= 31.
Proof.
  intros. unfold monthLength.
  repeat match goal with |- context [match ?x with _ => _ end] =>
    destruct x end; lia.
Qed.

Lemma month_cases m :
  0 <= m <= 11 ->
  m = 0 \/ m = 1 \/ m = 2 \/ m = 3 \/ m = 4 \/ m = 5 \/ m = 6 \/ m = 7
  \/ m = 8 \/ m = 9 \/ m = 10 \/ m = 11.
Proof. lia. Qed.

Ltac month_split H :=
  apply month_cases in H;
  repeat (destruct H as [H|H]; [subst|]); [..|subst].

Lemma monthStartDay_succ m leap :
  0 <= m < 11 ->
  monthStartDay (m + 1) leap = monthStartDay m leap + monthLength m leap.
Proof.
  intros H. assert (H' : 0 <= m <= 11) by lia.
  month_split H'; try lia;
    match goal with |- context [monthStartDay (?a + 1) _] =>
      let v := eval vm_compute in (a + 1) in change (a + 1) with v
    end; cbn; lia.
Qed.

Lemma monthStartDay_last leap :
  0 <= leap <= 1 ->
  monthStartDay 11 leap + monthLength 11 leap = 365 + leap.
Proof. cbn. lia. Qed.

Lemma monthOfYearDay_range d leap : 0 <= monthOfYearDay d leap <= 11.
Proof.
  unfold monthOfYearDay.
  repeat match goal with |- context [if ?b then _ else _] => destruct b end;
    lia.
Qed.

(** A day of the year lies in the month the table gives. *)
Lemma monthOfYearDay_spec d leap :
  0 <= leap <= 1 -> 0 <= d < 365 + leap ->
  let m := monthOfYearDay d leap in
  monthStartDay m leap <= d < monthStartDay m leap + monthLength m leap.
Proof.
  intros Hl Hd. unfold monthOfYearDay.
  repeat match goal with |- context [Z.ltb ?a ?b] =>
    destruct (Z.ltb_spec a b) end; cbn; lia.
Qed.

Lemma monthOfYearDay_unique d leap m :
  0 <= leap <= 1 -> 0 <= m <= 11 ->
  monthStartDay m leap <= d < monthStartDay m leap + monthLength m leap ->
  monthOfYearDay d leap = m.
Proof.
  intros Hl Hm Hd. unfold monthOfYearDay.
  month_split Hm; cbn in Hd;
    repeat match goal with |- context [Z.ltb ?a ?b] =>
      destruct (Z.ltb_spec a b) end; lia.
Qed.

Lemma InLeapYear_range t : 0 <= InLeapYear t <= 1.
Proof.
  unfold InLeapYear. destruct (leapOfYear_cases (YearFromTime t)); lia.
Qed.

Lemma DayWithinYear_lt t : 0 <= DayWithinYear t < 365 + InLeapYear t.
Proof.
  pose proof (DayWithinYear_range t). unfold InLeapYear.
  destruct (leapOfYear_cases (YearFromTime t)); lia.
Qed.

Lemma MonthFromTime_range t : 0 <= MonthFromTime t <= 11.
Proof. apply monthOfYearDay_range. Qed.

Lemma DateFromTime_range t :
  1 <= DateFromTime t <= monthLength (MonthFromTime t) (InLeapYear t).
Proof.
  unfold DateFromTime, MonthFromTime.
  pose proof (monthOfYearDay_spec (DayWithinYear t) (InLeapYear t)
                (InLeapYear_range t) (DayWithinYear_lt t)) as H.
  cbn zeta in H. lia.
Qed.

Lemma MakeDay_norm y m d :
  0 <= m <= 11 ->
  MakeDay y m d = DayFromYear y + monthStartDay m (leapOfYear y) + d - 1.
Proof.
  intros Hm. unfold MakeDay.
  rewrite (Z.div_small m 12), (Z.mod_small m 12) by lia.
  by rewrite Z.add_0_r.
Qed.

Lemma MakeDay_date y m d k : MakeDay y m (d + k) = MakeDay y m d + k.
Proof. unfold MakeDay. lia. Qed.

(** Year, month and date of a time value give back its day. *)
Lemma MakeDay_fields t :
  MakeDay (YearFromTime t) (MonthFromTime t) (DateFromTime t) = Day t.
Proof.
  rewrite MakeDay_norm by apply MonthFromTime_range.
  unfold DateFromTime, DayWithinYear, InLeapYear. lia.
Qed.

Lemma MakeDay_next_month y m :
  0 <= m <= 11 ->
  MakeDay y (m + 1) 1 = MakeDay y m 1 + monthLength m (leapOfYear y).
Proof.
  intros Hm. destruct (Z.eq_dec m 11) as [->|Hne].
  - unfold MakeDay. change ((11 + 1) / 12) with 1.
    change ((11 + 1) mod 12) with 0. change (11 / 12) with 0.
    change (11 mod 12) with 11. rewrite DayFromYear_succ, !Z.add_0_r.
    destruct (leapOfYear_cases y) as [[-> ->]|[-> ->]]; cbn; lia.
  - rewrite !MakeDay_norm by lia. rewrite monthStartDay_succ by lia. lia.
Qed.

(** The days of month [m] of year [y] are those from its first day up to
    the first day of the next month. *)
Lemma month_interval t y m :
  0 <= m <= 11 ->
  YearFromTime t = y /\ MonthFromTime t = m
  <-> MakeDay y m 1 <= Day t < MakeDay y (m + 1) 1.
Proof.
  intros Hm. rewrite MakeDay_next_month by done.
  rewrite MakeDay_norm by done.
  pose proof (leapOfYear_cases y) as Hl.
  assert (Hlr : 0 <= leapOfYear y <= 1) by (destruct Hl; lia).
  split.
  - intros [<- <-].
    pose proof (DateFromTime_range t) as Hd. revert Hd.
    unfold DateFromTime, DayWithinYear, InLeapYear. lia.
  - intros Hd.
    assert (Hy : YearFromTime t = y).
    { apply YearFromDay_unique. rewrite DayFromYear_succ.
      assert (monthStartDay m (leapOfYear y) + monthLength m (leapOfYear y)
              <= 365 + leapOfYear y).
      { destruct (Z.eq_dec m 11) as [->|].
        - rewrite monthStartDay_last; lia.
        - rewrite <- monthStartDay_succ by lia.
          assert (Hm' : 0 <= m + 1 <= 11) by lia. revert Hm'.
          generalize (m + 1). intros m' Hm'. month_split Hm'; cbn; lia. }
      assert (0 <= monthStartDay m (leapOfYear y)).
      { month_split Hm; cbn; lia. }
      destruct Hl; lia. }
    split; [done|].
    unfold MonthFromTime, DayWithinYear, InLeapYear. rewrite Hy.
    apply monthOfYearDay_unique; [done..|lia].
Qed.

Lemma WeekDay_range t : 0 <= WeekDay t <= 6.
Proof. unfold WeekDay. divmod. Qed.

Lemma Day_MakeDate d time :
  0 <= time < msPerDay -> Day (MakeDate d time) = d.
Proof. unfold Day, MakeDate, msPerDay. intros. divmod. Qed.

Lemma TimeWithinDay_MakeDate d time :
  0 <= time < msPerDay -> TimeWithinDay (MakeDate d time) = time.
Proof. unfold TimeWithinDay, MakeDate, msPerDay. intros. divmod. Qed.

Lemma TimeWithinDay_range t : 0 <= TimeWithinDay t < msPerDay.
Proof. unfold TimeWithinDay, msPerDay. divmod. Qed.

Lemma MakeDate_Day t : MakeDate (Day t) (TimeWithinDay t) = t.
Proof. unfold MakeDate, Day, TimeWithinDay, msPerDay. divmod. Qed.

End ESFacts.

(** ** The [Date] object and [date-fns] *)

Module DateFnsFacts.
Import ES ESFacts JSDate DateFns.

Section Facts.
Context {tz : TimeZone}.

Lemma LocalTime_UTC x : LocalTime (UTC x) = x.
Proof. unfold LocalTime, UTC. lia. Qed.

Lemma localDay_midnight X : localDay (midnight X) = X.
Proof.
  unfold localDay, midnight. rewrite LocalTime_UTC.
  apply Day_MakeDate. unfold msPerDay. lia.
Qed.

Lemma localDay_lastMs X : localDay (lastMs X) = X.
Proof.
  unfold localDay, lastMs. rewrite LocalTime_UTC.
  apply Day_MakeDate. vm_compute. split; [discriminate|done].
Qed.

Lemma midnight_succ X : midnight (X + 1) = midnight X + msPerDay.
Proof. unfold midnight, UTC, MakeDate. lia. Qed.

Lemma midnight_le X Y : midnight X <= midnight Y <-> X <= Y.
Proof. unfold midnight, UTC, MakeDate, msPerDay. lia. Qed.

Lemma midnight_inj X Y : midnight X = midnight Y -> X = Y.
Proof. unfold midnight, UTC, MakeDate, msPerDay. lia. Qed.

Lemma midnight_le_lastMs X Y : midnight X <= lastMs Y <-> X <= Y.
Proof.
  unfold midnight, lastMs, UTC, MakeDate. change (MakeTime 23 59 59 999)
    with 86399999. unfold msPerDay. lia.
Qed.

(** A time value lies between the midnight and the last millisecond of
    its local day. *)
Lemma midnight_localDay_le t :
  midnight (localDay t) <= t <= lastMs (localDay t).
Proof.
  unfold midnight, lastMs, localDay, UTC, MakeDate.
  change (MakeTime 23 59 59 999) with 86399999.
  unfold Day, LocalTime, msPerDay. divmod.
Qed.

Lemma localDay_unique t X :
  midnight X <= t <= lastMs X -> localDay t = X.
Proof.
  unfold midnight, lastMs, localDay, UTC, MakeDate.
  change (MakeTime 23 59 59 999) with 86399999.
  unfold Day, LocalTime, msPerDay. divmod.
Qed.

Lemma setHours_midnight t :
  setHours (Valid t) 0 0 0 0 = Valid (midnight (localDay t)).
Proof. done. Qed.

Lemma setHours_lastMs t :
  setHours (Valid t) 23 59 59 999 = Valid (lastMs (localDay t)).
Proof. done. Qed.

Lemma startOfDay_Valid t :
  startOfDay (Valid t) = Valid (midnight (localDay t)).
Proof. done. Qed.

(** [setDate] moves to the day [dt - getDate()] days away and keeps the
    time within the day. *)
Lemma setDate_Valid t (dt : Z) :
  setDate (Valid t) dt
  = Valid (UTC (MakeDate (localDay t - DateFromTime (LocalTime t) + dt)
                         (TimeWithinDay (LocalTime t)))).
Proof.
  cbn. do 3 f_equal. unfold localDay.
  rewrite <- (MakeDay_fields (LocalTime t)).
  replace dt with (DateFromTime (LocalTime t)
                   + (dt - DateFromTime (LocalTime t))) at 1 by lia.
  rewrite MakeDay_date. lia.
Qed.

Lemma localDay_setDate t (dt : Z) t' :
  setDate (Valid t) dt = Valid t' ->
  localDay t' = localDay t - DateFromTime (LocalTime t) + dt.
Proof.
  rewrite setDate_Valid. intros [= <-]. unfold localDay at 1.
  rewrite LocalTime_UTC. apply Day_MakeDate, TimeWithinDay_range.
Qed.

Lemma monthFirst_eq t :
  monthFirst t = localDay t - DateFromTime (LocalTime t) + 1.
Proof.
  unfold monthFirst, localDay. rewrite <- (MakeDay_fields (LocalTime t)).
  replace 1 with (DateFromTime (LocalTime t)
                  + (1 - DateFromTime (LocalTime t))) at 1 by lia.
  rewrite MakeDay_date. lia.
Qed.

Lemma monthLast_eq t :
  monthLast t
  = monthFirst t
    + monthLength (MonthFromTime (LocalTime t)) (InLeapYear (LocalTime t))
    - 1.
Proof.
  unfold monthLast, monthFirst.
  rewrite MakeDay_next_month by apply MonthFromTime_range. done.
Qed.

(** The day of a time value lies in its month, whose length is 28 to
    31 days. *)
Lemma month_range t :
  monthFirst t <= localDay t <= monthLast t
  /\ 28 <= monthLast t - monthFirst t + 1 <= 31.
Proof.
  rewrite monthLast_eq, monthFirst_eq.
  pose proof (DateFromTime_range (LocalTime t)).
  pose proof (monthLength_range (MonthFromTime (LocalTime t))
                (InLeapYear (LocalTime t)) (InLeapYear_range _)).
  lia.
Qed.

Lemma startOfMonth_Valid t :
  startOfMonth (Valid t) = Valid (midnight (monthFirst t)).
Proof.
  unfold startOfMonth, toDate.
  destruct (setDate (Valid t) 1) as [|t'] eqn:E;
    [by rewrite setDate_Valid in E|].
  apply (localDay_setDate t 1) in E.
  rewrite setHours_midnight, E, monthFirst_eq. done.
Qed.

Lemma endOfMonth_Valid t :
  endOfMonth (Valid t) = Valid (lastMs (monthLast t)).
Proof.
  unfold endOfMonth, toDate. cbn [getMonth getFullYear getter JSNum.add
    JSNum.lift2 setFullYear]. rewrite setHours_lastMs. do 2 f_equal.
  unfold localDay. rewrite LocalTime_UTC.
  rewrite Day_MakeDate by apply TimeWithinDay_range.
  unfold monthLast.
  replace 0 with (1 + -1) at 1 by done. rewrite MakeDay_date. lia.
Qed.

Lemma WeekDay_localDay t : WeekDay (LocalTime t) = dayOfWeek (localDay t).
Proof. done. Qed.

Lemma dayOfWeek_range X : 0 <= dayOfWeek X <= 6.
Proof. unfold dayOfWeek. divmod. Qed.

(** With the default options the week starts on Sunday. *)
Lemma startOfWeek_Valid t :
  startOfWeek (Valid t) None
  = Valid (midnight (localDay t - dayOfWeek (localDay t))).
Proof.
  unfold startOfWeek, toDate. cbn [weekStartsOnOf getDay getDate getter].
  pose proof (WeekDay_range (LocalTime t)) as Hw.
  cbn [JSNum.ltb]. destruct (Z.ltb_spec (WeekDay (LocalTime t)) 0); [lia|].
  cbn [JSNum.add JSNum.sub JSNum.lift2].
  match goal with |- setHours (setDate _ (Int ?dt)) _ _ _ _ = _ =>
    destruct (setDate (Valid t) dt) as [|t'] eqn:E;
      [by rewrite setDate_Valid in E|apply (localDay_setDate t dt) in E]
  end.
  rewrite setHours_midnight, E, <- WeekDay_localDay. do 2 f_equal. lia.
Qed.

Lemma endOfWeek_Valid t :
  endOfWeek (Valid t) None
  = Valid (lastMs (localDay t + 6 - dayOfWeek (localDay t))).
Proof.
  unfold endOfWeek, toDate. cbn [weekStartsOnOf getDay getDate getter].
  pose proof (WeekDay_range (LocalTime t)) as Hw.
  cbn [JSNum.ltb]. destruct (Z.ltb_spec (WeekDay (LocalTime t)) 0); [lia|].
  cbn [JSNum.add JSNum.sub JSNum.lift2].
  match goal with |- setHours (setDate _ (Int ?dt)) _ _ _ _ = _ =>
    destruct (setDate (Valid t) dt) as [|t'] eqn:E;
      [by rewrite setDate_Valid in E|apply (localDay_setDate t dt) in E]
  end.
  rewrite setHours_lastMs, E, <- WeekDay_localDay. do 2 f_equal. lia.
Qed.

(** One turn of the loop of [eachDayOfInterval] moves from a midnight to
    the next. *)
Lemma next_midnight X :
  setHours (setDate (Valid (midnight X)) (getDate (Valid (midnight X)) + 1)%num)
    0 0 0 0
  = Valid (midnight (X + 1)).
Proof.
  cbn [getDate getter JSNum.add JSNum.lift2].
  match goal with |- setHours (setDate _ (Int ?dt)) _ _ _ _ = _ =>
    destruct (setDate (Valid (midnight X)) dt) as [|t'] eqn:E;
      [by rewrite setDate_Valid in E
      |apply (localDay_setDate (midnight X) dt) in E]
  end.
  rewrite setHours_midnight, E, localDay_midnight. do 2 f_equal. lia.
Qed.

(** From a midnight the loop lists the midnights up to the end of the
    interval, one for each whole day that fits; it leaves on its test, and
    the fuel is not used up, when the fuel is at least their number. *)
Lemma eachDayLoop_fuel fuel X e :
  (e - midnight X) / msPerDay + 1 <= Z.of_nat fuel ->
  eachDayLoop fuel (Valid (midnight X)) (Int e)
  = (fun Y => Valid (midnight Y)) <$> seqZ X ((e - midnight X) / msPerDay + 1).
Proof.
  revert X. induction fuel as [|fuel IH]; intros X Hf.
  - rewrite seqZ_nil by lia. done.
  - cbn [eachDayLoop getTime JSNum.leb].
    destruct (Z.leb_spec (midnight X) e) as [Hle|Hgt].
    + assert (Hn : (e - midnight (X + 1)) / msPerDay
                   = (e - midnight X) / msPerDay - 1).
      { rewrite midnight_succ. revert Hle. generalize (midnight X).
        unfold msPerDay. intros m Hle. divmod. }
      assert (0 <= (e - midnight X) / msPerDay).
      { revert Hle. generalize (midnight X). unfold msPerDay.
        intros m Hle. divmod. }
      rewrite seqZ_cons by lia. rewrite next_midnight, IH by lia.
      cbn. unfold toDate. rewrite Hn. do 3 f_equal; lia.
    + rewrite seqZ_nil; [done|]. revert Hgt. generalize (midnight X).
      unfold msPerDay. intros m Hgt. divmod.
Qed.

Lemma eachDayFuel_enough X e :
  (e - midnight X) / msPerDay + 1
  <= Z.of_nat (eachDayFuel (Valid (midnight X)) (Int e)).
Proof. unfold eachDayFuel. cbn [getTime]. lia. Qed.

Lemma eachDayOfInterval_days A B :
  A <= B ->
  eachDayOfInterval (Valid (midnight A)) (Valid (lastMs B))
  = (fun X => Valid (midnight X)) <$> seqZ A (B - A + 1).
Proof.
  intros HAB. unfold eachDayOfInterval, toDate. cbn [getTime].
  unfold JSNum.gtb. cbn [JSNum.ltb].
  destruct (Z.ltb_spec (lastMs B) (midnight A)) as [Hlt|_].
  { assert (~ A <= B) by (rewrite <- midnight_le_lastMs; lia). lia. }
  rewrite setHours_midnight, localDay_midnight.
  rewrite eachDayLoop_fuel by apply eachDayFuel_enough.
  do 2 f_equal. unfold lastMs, midnight, UTC, MakeDate.
  change (MakeTime 23 59 59 999) with 86399999. unfold msPerDay.
  generalize LocalTZA. intros z. divmod.
Qed.

Lemma isSameDay_Valid a b :
  isSameDay (Valid a) (Valid b) = bool_decide (localDay a = localDay b).
Proof.
  unfold isSameDay. rewrite !startOfDay_Valid. cbn.
  case_bool_decide as H.
  - rewrite H. apply Z.eqb_refl.
  - apply Z.eqb_neq. intros E. by apply midnight_inj in E.
Qed.

Lemma isSameDay_Invalid_l d : isSameDay Invalid d = false.
Proof. done. Qed.

Lemma isSameDay_Invalid_r d : isSameDay d Invalid = false.
Proof. by destruct d. Qed.

End Facts.
End DateFnsFacts.

(** ** [types/calendar.ts] *)

Module CalendarFacts.
Import Calendar.

Lemma prefix_spec (p s : string) :
  String.prefix p s = true <-> exists post, s = (p +:+ post)%string.
Proof.
  revert s. induction p as [|c p IH]; intros s.
  - split; [by exists s|by destruct s].
  - destruct s as [|c' s]; cbn; [by split; [|intros [? [=]]]|].
    destruct (Ascii.ascii_dec c c') as [->|Hne].
    + rewrite IH. split; [by intros [post ->]; exists post|].
      intros [post [= ->]]. eauto.
    + split; [done|]. by intros [post [= -> _]].
Qed.

Lemma includes_spec (s k : string) :
  includes s k = true <-> exists pre post, s = (pre +:+ k +:+ post)%string.
Proof.
  induction s as [|c s IH]; cbn [includes]; rewrite orb_true_iff, prefix_spec.
  - split.
    + intros [[post ->]|[=]]. by exists "", post.
    + intros ([|? ?] & post & H); [|done]. left. by exists post.
  - rewrite IH. split.
    + intros [[post ->]|(pre & post & ->)]; [by exists "", post|].
      by exists (String c pre), post.
    + intros ([|c' pre] & post & H); [left; by exists post|].
      right. injection H as -> ->. by exists pre, post.
Qed.

Lemma toLowerCase_app (a b : string) :
  toLowerCase (a +:+ b) = (toLowerCase a +:+ toLowerCase b)%string.
Proof.
  induction a as [|c a IH]; [done|].
  change (toLowerCase (String c (a +:+ b))
          = String (lowerUnit c) (toLowerCase a +:+ toLowerCase b)).
  cbn [toLowerCase]. by rewrite IH.
Qed.

Lemma toLowerCase_split (s x y : string) :
  toLowerCase s = (x +:+ y)%string ->
  exists a b, s = (a +:+ b)%string /\ toLowerCase a = x /\ toLowerCase b = y.
Proof.
  revert s. induction x as [|c x IH]; intros s H.
  - by exists "", s.
  - destruct s as [|c' s]; [done|]. cbn in H. injection H as Hc H.
    apply IH in H as (a & b & -> & <- & <-).
    exists (String c' a), b. cbn. by rewrite Hc.
Qed.

(** Matching on the lower-cased string is matching without regard to
    the case of the letters. *)
Lemma includes_toLowerCase (s k : string) :
  includes (toLowerCase s) k = true <-> occursNoCase s k.
Proof.
  rewrite includes_spec. split.
  - intros (pre & post & H).
    apply toLowerCase_split in H as (a & b & -> & <- & H).
    apply toLowerCase_split in H as (w & c & -> & <- & <-).
    by exists a, w, c.
  - intros (pre & w & post & -> & <-).
    exists (toLowerCase pre), (toLowerCase post).
    by rewrite !toLowerCase_app.
Qed.

Lemma not_occursNoCase (s k : string) :
  includes (toLowerCase s) k = false <-> ~ occursNoCase s k.
Proof.
  rewrite <- includes_toLowerCase. by destruct (includes _ _).
Qed.

Lemma getEventColor_firstMatch (type : string) :
  getEventColor type = firstMatch colorRules (toLowerCase type).
Proof.
  unfold getEventColor. cbn [firstMatch colorRules existsb].
  rewrite !orb_false_r. by rewrite !orb_assoc.
Qed.

(** A rule applies when no rule before it has a keyword that occurs. *)
Lemma firstMatch_rule rules normalized before keywords color after :
  rules = before ++ (keywords, color) :: after ->
  existsb (includes normalized) keywords = true ->
  Forall (fun rule => existsb (includes normalized) rule.1 = false) before ->
  firstMatch rules normalized = color.
Proof.
  intros -> Hk Hb. induction Hb as [|[kws col] before Hr _ IH]; cbn.
  - by rewrite Hk.
  - cbn in Hr. by rewrite Hr.
Qed.

Lemma firstMatch_none rules normalized :
  Forall (fun rule => existsb (includes normalized) rule.1 = false) rules ->
  firstMatch rules normalized = "gray".
Proof.
  induction 1 as [|[kws col] rules Hr _ IH]; cbn; [done|].
  cbn in Hr. by rewrite Hr.
Qed.

Lemma firstMatch_range rules normalized :
  firstMatch rules normalized ∈ (snd <$> rules) ++ ["gray"].
Proof.
  induction rules as [|[kws col] rules IH]; cbn; [apply list_elem_of_here|].
  destruct (existsb _ _); [apply list_elem_of_here|by apply list_elem_of_further].
Qed.

Lemma existsb_occurs s keywords :
  existsb (includes (toLowerCase s)) keywords = true
  <-> exists k, k ∈ keywords /\ occursNoCase s k.
Proof.
  rewrite existsb_exists. setoid_rewrite includes_toLowerCase.
  by setoid_rewrite list_elem_of_In.
Qed.

Lemma existsb_no_occurs s keywords :
  existsb (includes (toLowerCase s)) keywords = false
  <-> forall k, k ∈ keywords -> ~ occursNoCase s k.
Proof.
  rewrite <- not_true_iff_false, existsb_occurs. split.
  - intros H k Hk Hs. apply H. eauto.
  - intros H (k & Hk & Hs). by apply (H k).
Qed.

Lemma getEventColor_in_colors (type : string) : getEventColor type ∈ colors.
Proof. rewrite getEventColor_firstMatch. apply firstMatch_range. Qed.

Lemma getEventColor_no_keyword (type : string) :
  (forall k, k ∈ matchedKeywords -> ~ occursNoCase type k) ->
  getEventColor type = "gray".
Proof.
  intros Hnone. rewrite getEventColor_firstMatch.
  apply firstMatch_none, Forall_forall. intros rule Hr.
  apply existsb_no_occurs. intros k Hk. apply Hnone.
  unfold matchedKeywords. apply list_elem_of_In, in_concat. exists rule.1.
  split; apply list_elem_of_In; [by apply list_elem_of_fmap_2|done].
Qed.

(** C4, as the code has it: [getEventColor] is a total function from
    strings, the empty string included, to six fixed colours: blue
    (class, lecture, lab), orange (midterm, test), red (final, exam),
    purple (assignment, homework), green (quiz) and gray (anything else).
    It matches the keywords as substrings without regard to the case of the
    letters, against the rules in their order: the first rule with a
    keyword that occurs gives the colour, and gray is the result when no
    keyword occurs. *)
Theorem getEventColor_rules (type : string) :
  getEventColor type ∈ colors
  /\ getEventColor type = firstMatch colorRules (toLowerCase type)
  /\ (forall before keywords color after,
        colorRules = before ++ (keywords, color) :: after ->
        (exists k, k ∈ keywords /\ occursNoCase type k) ->
        (forall rule k, rule ∈ before -> k ∈ rule.1 -> ~ occursNoCase type k) ->
        getEventColor type = color)
  /\ ((forall k, k ∈ matchedKeywords -> ~ occursNoCase type k) ->
      getEventColor type = "gray")
  /\ getEventColor "" = "gray".
Proof.
  split; [apply getEventColor_in_colors|].
  split; [apply getEventColor_firstMatch|].
  split; [|split; [apply getEventColor_no_keyword|done]].
  intros before keywords color after Hrules Hk Hb.
  rewrite getEventColor_firstMatch.
  apply (firstMatch_rule _ _ before keywords color after); [done|..].
  - by apply existsb_occurs.
  - apply Forall_forall. intros rule Hr. apply existsb_no_occurs.
    intros k. by apply Hb.
Qed.

(** C4 is false as stated: the function has six results, not seven; "lab"
    is not a category of its own but shares the colour of "lecture". *)
Lemma getEventColor_not_seven :
  getEventColor "Lab" = getEventColor "Lecture"
  /\ ~ exists types : list string,
        length types = 7%nat /\ NoDup (getEventColor <$> types).
Proof.
  split; [reflexivity|]. intros (types & Hlen & Hnd).
  assert (Hsub : getEventColor <$> types ⊆+ colors).
  { apply NoDup_submseteq; [done|]. intros c (type & -> & _)%list_elem_of_fmap.
    apply getEventColor_in_colors. }
  apply submseteq_length in Hsub. rewrite length_fmap, Hlen in Hsub.
  cbn in Hsub. lia.
Qed.

(** C10: [getEventColor] has no rule for the keyword "project": a type in
    which "project" occurs, in any letter case, and none of the keywords of
    the rules (class, lecture, lab, midterm, test, final, exam, assignment,
    homework, quiz) occurs, gets the fallback colour gray. *)
Theorem getEventColor_project (type : string) :
  occursNoCase type "project" ->
  Forall (fun k => ~ occursNoCase type k)
    ["class"; "lecture"; "lab"; "midterm"; "test"; "final"; "exam";
     "assignment"; "homework"; "quiz"] ->
  getEventColor type = "gray"
  /\ Forall (fun rule : list string * string => "project" ∉ rule.1) colorRules.
Proof.
  intros _ Hnone. split.
  - apply getEventColor_no_keyword. intros k Hk.
    by apply (proj1 (Forall_forall _ _) Hnone).
  - repeat constructor; cbn; intros H; repeat (apply elem_of_cons in H as [?|H]; [done|]);
      by apply elem_of_nil in H.
Qed.

(** The scenario of C10: a type with "project" and no keyword of a rule. *)
Lemma getEventColor_project_witness :
  (occursNoCase "Group PROJECT milestone" "project"
   /\ Forall (fun k => ~ occursNoCase "Group PROJECT milestone" k)
        ["class"; "lecture"; "lab"; "midterm"; "test"; "final"; "exam";
         "assignment"; "homework"; "quiz"])
  /\ getEventColor "Group PROJECT milestone" = "gray".
Proof.
  assert (H1 : occursNoCase "Group PROJECT milestone" "project")
    by (by exists "Group ", "PROJECT", " milestone").
  assert (H2 : Forall (fun k => ~ occursNoCase "Group PROJECT milestone" k)
                 ["class"; "lecture"; "lab"; "midterm"; "test"; "final";
                  "exam"; "assignment"; "homework"; "quiz"])
    by (repeat constructor; apply not_occursNoCase; reflexivity).
  split; [by split|].
  exact (proj1 (getEventColor_project "Group PROJECT milestone" H1 H2)).
Defined.

End CalendarFacts.

(** ** The month view *)

Module CalendarGridFacts.
Import ES ESFacts JSDate DateFns DateFnsFacts Calendar ResFacts CalendarGrid.

Section Facts.
Context {tz : TimeZone}.

Lemma days_Valid t :
  days (Valid t)
  = (fun X => Valid (midnight X))
      <$> seqZ (gridFirst t) (gridLast t - gridFirst t + 1).
Proof.
  unfold days, gridFirst, gridLast.
  rewrite startOfMonth_Valid, endOfMonth_Valid.
  rewrite startOfWeek_Valid, endOfWeek_Valid.
  rewrite localDay_midnight, localDay_lastMs.
  pose proof (month_range t) as [Hin _].
  pose proof (dayOfWeek_range (monthFirst t)) as HF.
  pose proof (dayOfWeek_range (monthLast t)) as HL.
  revert Hin HF HL.
  generalize (dayOfWeek (monthFirst t)) (dayOfWeek (monthLast t))
    (monthFirst t) (monthLast t) (localDay t).
  intros wF wL F L D Hin HF HL.
  rewrite eachDayOfInterval_days by lia. done.
Qed.

(** The grid starts on a Sunday within the week before the month and
    ends on a Saturday within the week after it. *)
Lemma grid_bounds t :
  dayOfWeek (gridFirst t) = 0 /\ dayOfWeek (gridLast t) = 6
  /\ gridFirst t <= monthFirst t < gridFirst t + 7
  /\ gridLast t - 7 < monthLast t <= gridLast t.
Proof.
  unfold gridFirst, gridLast, dayOfWeek.
  generalize (monthFirst t) (monthLast t). intros F L. repeat split; divmod.
Qed.

Lemma week_span_arith F L :
  28 <= L - F + 1 <= 31 ->
  let n := L + 6 - (L + 4) mod 7 - (F - (F + 4) mod 7) + 1 in
  n = 28 \/ n = 35 \/ n = 42.
Proof.
  intros Hlen n.
  assert (Hk : n = 7 * ((L + 4) / 7 - (F + 4) / 7 + 1)) by (unfold n; divmod).
  assert (Hn : 28 <= n <= 43) by (unfold n; divmod).
  revert Hk. generalize ((L + 4) / 7 - (F + 4) / 7 + 1). intros k Hk. lia.
Qed.

Lemma grid_size t :
  let n := gridLast t - gridFirst t + 1 in n = 28 \/ n = 35 \/ n = 42.
Proof.
  exact (week_span_arith (monthFirst t) (monthLast t) (proj2 (month_range t))).
Qed.

Lemma length_days t :
  Z.of_nat (length (days (Valid t))) = gridLast t - gridFirst t + 1.
Proof.
  rewrite days_Valid, length_fmap, length_seqZ.
  pose proof (grid_size t). cbn zeta in *. lia.
Qed.

Lemma days_lookup t i day :
  days (Valid t) !! i = Some day
  <-> day = Valid (midnight (gridFirst t + Z.of_nat i))
      /\ Z.of_nat i < gridLast t - gridFirst t + 1.
Proof.
  rewrite days_Valid, list_lookup_fmap, fmap_Some. split.
  - intros (X & HX & ->). apply lookup_seqZ in HX as [-> ?]. done.
  - intros [-> Hi]. eexists. split; [|done]. by apply lookup_seqZ.
Qed.

Lemma getEventsForDay_elem events d e :
  e ∈ getEventsForDay events (Valid d)
  <-> e ∈ events
      /\ exists s, start e = Valid s /\ localDay s = localDay d.
Proof.
  unfold getEventsForDay, toDate.
  rewrite list_elem_of_In, filter_In, <- list_elem_of_In.
  destruct (start e) as [|s].
  - rewrite isSameDay_Invalid_l.
    split; [by intros [_ [=]]|by intros [_ (? & [=] & _)]].
  - rewrite isSameDay_Valid, bool_decide_eq_true.
    split; [intros [? ?]; eauto|by intros [? (? & [= <-] & ?)]].
Qed.

Lemma getEventsForDay_Invalid events :
  getEventsForDay events Invalid = [].
Proof.
  unfold getEventsForDay. induction events as [|e events IH]; [done|].
  cbn. by rewrite isSameDay_Invalid_r.
Qed.

Lemma eventPill_Ok e p :
  eventPill e = Ok p ->
  pill_onClick p = e /\ pill_key p = id e
  /\ pill_color p = getEventColor (type e)
  /\ pill_title p = title e /\ pill_text p = title e
  /\ format (start e) fmt_h_mm_a = Ok (pill_time p).
Proof.
  unfold eventPill. intros H.
  apply bind_Ok in H as (time & Ht & [= <-]). done.
Qed.

Lemma eventPill_total e s :
  start e = Valid s -> exists p, eventPill e = Ok p.
Proof. unfold eventPill. intros ->. cbn. eauto. Qed.

(** The pills of a day are built without an exception. *)
Lemma pills_total events d n :
  exists pills, mapM eventPill (take n (getEventsForDay events (Valid d)))
                = Ok pills.
Proof.
  apply mapM_total, Forall_forall. intros e He.
  apply elem_of_take in He as (i & He & _).
  apply list_elem_of_lookup_2, getEventsForDay_elem in He
    as (_ & s & Hs & _).
  by apply (eventPill_total e s).
Qed.

Lemma pills_onClick l pills :
  mapM eventPill l = Ok pills -> pill_onClick <$> pills = l.
Proof.
  rewrite mapM_Ok. induction 1 as [|e p l pills Hp _ IH]; [done|].
  cbn. apply eventPill_Ok in Hp as [-> _]. by rewrite IH.
Qed.

Lemma dayCell_Ok cur events now i day c :
  dayCell cur events now i day = Ok c ->
  cell_key c = i /\ cell_day c = day
  /\ isCurrentMonth c = isSameMonth day cur
  /\ isCurrentDay c = isToday (now i) day
  /\ format day fmt_d = Ok (cell_number c)
  /\ mapM eventPill (take 3 (getEventsForDay events day))
     = Ok (cell_pills c)
  /\ cell_more c
     = (if (3 <? length (getEventsForDay events day))%nat
        then Some (Z.of_nat (length (getEventsForDay events day)) - 3)
        else None).
Proof.
  unfold dayCell. intros H.
  apply bind_Ok in H as (number & Hn & H).
  apply bind_Ok in H as (pills & Hp & [= <-]). done.
Qed.

Lemma dayCell_total cur events now i d :
  exists c, dayCell cur events now i (Valid d) = Ok c.
Proof.
  unfold dayCell. destruct (pills_total events d 3) as [pills ->].
  cbn. eauto.
Qed.

(** The month view is built without an exception. *)
Lemma CalendarGrid_total t events now :
  exists g, CalendarGrid (Valid t) events now = Ok g.
Proof.
  unfold CalendarGrid.
  destruct (imapM_total (dayCell (Valid t) events now) (days (Valid t)))
    as [cells ->].
  - intros i day [-> _]%days_lookup. apply dayCell_total.
  - cbn. eauto.
Qed.

Lemma CalendarGrid_Ok cur events now g :
  CalendarGrid cur events now = Ok g ->
  header_row g = weekDays
  /\ length (body g) = length (days cur)
  /\ forall i day c,
       days cur !! i = Some day -> body g !! i = Some c ->
       dayCell cur events now i day = Ok c.
Proof.
  unfold CalendarGrid. intros H.
  apply bind_Ok in H as (cells & Hc & [= <-]).
  apply imapM_Ok in Hc as [Hlen Hc]. done.
Qed.

(** The cell [i] of the grid for [Valid t] is built from the midnight of
    the day [gridFirst t + i]. *)
Lemma body_lookup t events now g i c :
  CalendarGrid (Valid t) events now = Ok g ->
  body g !! i = Some c ->
  Z.of_nat i < gridLast t - gridFirst t + 1
  /\ dayCell (Valid t) events now i
       (Valid (midnight (gridFirst t + Z.of_nat i))) = Ok c.
Proof.
  intros (_ & Hlen & Hc)%CalendarGrid_Ok Hi.
  assert (Hlt : Z.of_nat i < gridLast t - gridFirst t + 1).
  { apply lookup_lt_Some in Hi. rewrite <- length_days. lia. }
  split; [done|]. apply Hc; [|done]. by apply days_lookup.
Qed.

Lemma body_days cur events now g :
  CalendarGrid cur events now = Ok g -> cell_day <$> body g = days cur.
Proof.
  intros (_ & Hlen & Hc)%CalendarGrid_Ok. apply list_eq. intros i.
  rewrite list_lookup_fmap.
  destruct (body g !! i) as [c|] eqn:Ec, (days cur !! i) as [day|] eqn:Ed;
    cbn; [|exfalso..|done].
  - pose proof (Hc i day c Ed Ec) as H.
    apply dayCell_Ok in H as (_ & H & _). by rewrite H.
  - apply lookup_lt_Some in Ec. apply lookup_ge_None in Ed. lia.
  - apply lookup_lt_Some in Ed. apply lookup_ge_None in Ec. lia.
Qed.

(** A midnight is in the month of [t] when its day lies between the
    first and the last day of that month. *)
Lemma isSameMonth_midnight X t :
  isSameMonth (Valid (midnight X)) (Valid t) = true
  <-> monthFirst t <= X <= monthLast t.
Proof.
  unfold isSameMonth. cbn [getFullYear getMonth getter JSNum.eqb].
  rewrite andb_true_iff, !Z.eqb_eq.
  rewrite (month_interval (LocalTime (midnight X)))
    by apply MonthFromTime_range.
  fold (localDay (midnight X)). rewrite localDay_midnight.
  unfold monthFirst, monthLast. lia.
Qed.

(** The days of the month of [t] are those with the year and the month
    of [t]. *)
Lemma month_days_fields X t :
  monthFirst t <= X <= monthLast t
  <-> YearFromTime (MakeDate X 0) = YearFromTime (LocalTime t)
      /\ MonthFromTime (MakeDate X 0) = MonthFromTime (LocalTime t).
Proof.
  rewrite (month_interval (MakeDate X 0)) by apply MonthFromTime_range.
  rewrite Day_MakeDate by (unfold msPerDay; lia).
  unfold monthFirst, monthLast. lia.
Qed.

(** C9: for every current date and every list of events, the number of
    day cells of the month grid is a multiple of 7, at least 28 and at
    most 42: the cells are the days of the whole weeks from the Sunday
    that starts the week of the first of the month to the Saturday that
    ends the week of the last of the month. *)
Theorem month_grid_whole_weeks t events now :
  exists g,
    CalendarGrid (Valid t) events now = Ok g
    /\ (length (body g) mod 7 = 0 /\ 28 <= length (body g) <= 42)%nat
    /\ cell_day <$> body g
       = (fun X => Valid (midnight X))
           <$> seqZ (gridFirst t) (Z.of_nat (length (body g)))
    /\ gridFirst t + Z.of_nat (length (body g)) - 1 = gridLast t
    /\ (dayOfWeek (gridFirst t) = 0
        /\ gridFirst t <= monthFirst t < gridFirst t + 7)
    /\ (dayOfWeek (gridLast t) = 6
        /\ gridLast t - 7 < monthLast t <= gridLast t).
Proof.
  destruct (CalendarGrid_total t events now) as [g Hg]. exists g.
  pose proof (body_days _ _ _ _ Hg) as Hd.
  assert (Hlen : Z.of_nat (length (body g)) = gridLast t - gridFirst t + 1).
  { rewrite <- length_days, <- Hd, length_fmap. done. }
  pose proof (grid_size t) as Hn. cbn zeta in Hn. rewrite <- Hlen in Hn.
  pose proof (grid_bounds t) as (H0 & H6 & HF & HL).
  split; [done|]. split.
  { assert (length (body g) = 28 \/ length (body g) = 35
            \/ length (body g) = 42)%nat as [-> | [-> | ->]] by lia;
      split; (done || lia). }
  split; [by rewrite Hd, days_Valid, Hlen|].
  split; [lia|done].
Qed.

(** C1, as the code has it: for every current date and every list of
    events the month grid has 28, 35 or 42 day cells (seven for each
    week the month touches, 42 only when it touches six), the dates of
    the cells increase by one day from each cell to the next, and the
    cells flagged as belonging to the current month are exactly the
    days of the calendar month of the current date. *)
Theorem month_grid_cells t events now :
  exists g,
    CalendarGrid (Valid t) events now = Ok g
    /\ Z.of_nat (length (body g))
       = 7 * ((dayOfWeek (monthFirst t)
               + (monthLast t - monthFirst t + 1) + 6) / 7)
    /\ (length (body g) = 28 \/ length (body g) = 35
        \/ length (body g) = 42)%nat
    /\ (forall i c c',
          body g !! i = Some c -> body g !! S i = Some c' ->
          exists x, cell_day c = Valid x
                    /\ cell_day c' = Valid (x + msPerDay))
    /\ (forall c, c ∈ body g -> exists X, cell_day c = Valid (midnight X))
    /\ (forall X,
          (exists c, c ∈ body g /\ cell_day c = Valid (midnight X)
                     /\ isCurrentMonth c = true)
          <-> monthFirst t <= X <= monthLast t)
    /\ monthFirst t <= localDay t <= monthLast t.
Proof.
  destruct (CalendarGrid_total t events now) as [g Hg]. exists g.
  pose proof (body_days _ _ _ _ Hg) as Hd.
  assert (Hlen : Z.of_nat (length (body g)) = gridLast t - gridFirst t + 1).
  { rewrite <- length_days, <- Hd, length_fmap. done. }
  pose proof (grid_size t) as Hn. cbn zeta in Hn. rewrite <- Hlen in Hn.
  pose proof (grid_bounds t) as (H0 & H6 & HF & HL).
  pose proof (month_range t) as [Hin Hm].
  assert (Hcell : forall i c, body g !! i = Some c ->
            cell_day c = Valid (midnight (gridFirst t + Z.of_nat i))
            /\ isCurrentMonth c
               = isSameMonth (Valid (midnight (gridFirst t + Z.of_nat i)))
                   (Valid t)).
  { intros i c Hc.
    destruct (body_lookup _ _ _ _ _ _ Hg Hc) as [_ Hcell].
    by apply dayCell_Ok in Hcell as (_ & -> & -> & _). }
  split; [done|]. split.
  { rewrite Hlen. unfold dayOfWeek in *. divmod. }
  split; [lia|]. split.
  { intros i c c' Hc Hc'. apply Hcell in Hc as [-> _].
    apply Hcell in Hc' as [-> _]. eexists. split; [done|].
    rewrite <- midnight_succ. do 2 f_equal. lia. }
  split.
  { intros c [i Hc]%list_elem_of_lookup. apply Hcell in Hc as [-> _].
    eauto. }
  split; [|done]. intros X. split.
  - intros (c & [i Hc]%list_elem_of_lookup & HX & Hf).
    apply Hcell in Hc as [Hday Hflag]. rewrite Hday in HX.
    injection HX as HX. apply midnight_inj in HX. rewrite HX in Hflag.
    rewrite Hflag in Hf. by apply isSameMonth_midnight.
  - intros HX.
    assert (Hi : (Z.to_nat (X - gridFirst t) < length (body g))%nat) by lia.
    apply lookup_lt_is_Some in Hi as [c Hc]. exists c.
    pose proof (Hcell _ _ Hc) as [Hday Hflag].
    replace (gridFirst t + Z.of_nat (Z.to_nat (X - gridFirst t))) with X
      in Hday, Hflag by lia.
    split; [by eapply list_elem_of_lookup_2|]. split; [done|].
    rewrite Hflag. by apply isSameMonth_midnight.
Qed.

Lemma filter_sublist {A : Type} (f : A -> bool) (l : list A) :
  List.filter f l `sublist_of` l.
Proof.
  induction l as [|x l IH]; cbn; [done|].
  destruct (f x); [by apply sublist_skip|by apply sublist_cons].
Qed.

(** The cell [i] of the grid shows the day [gridFirst t + i]. *)
Lemma cell_lookup t events now g i c :
  CalendarGrid (Valid t) events now = Ok g ->
  body g !! i = Some c ->
  cell_day c = Valid (midnight (gridFirst t + Z.of_nat i))
  /\ gridFirst t <= gridFirst t + Z.of_nat i <= gridLast t
  /\ pill_onClick <$> cell_pills c
     = take 3 (getEventsForDay events (cell_day c))
  /\ cell_more c
     = (if (3 <? length (getEventsForDay events (cell_day c)))%nat
        then Some (Z.of_nat (length (getEventsForDay events (cell_day c))) - 3)
        else None).
Proof.
  intros Hg Hc. destruct (body_lookup _ _ _ _ _ _ Hg Hc) as [Hi Hcell].
  apply dayCell_Ok in Hcell as (_ & Hday & _ & _ & _ & Hp & Hm).
  rewrite Hday. split; [done|]. split; [lia|].
  split; [by apply pills_onClick|done].
Qed.

(** C3: in every cell of the month grid with [n] events of its day, if
    [n > 3] exactly the first three of them, in the order of the input, are
    shown and the overflow count is [n - 3]; if [n <= 3] all of them are
    shown and there is no overflow count. *)
Theorem month_cell_overflow t events now g i c :
  CalendarGrid (Valid t) events now = Ok g ->
  body g !! i = Some c ->
  let dayEvents :=
    List.filter (fun e => isSameDay (start e) (cell_day c)) events in
  let n := length dayEvents in
  dayEvents `sublist_of` events
  /\ ((3 < n)%nat ->
      pill_onClick <$> cell_pills c = take 3 dayEvents
      /\ length (cell_pills c) = 3%nat
      /\ cell_more c = Some (Z.of_nat n - 3))
  /\ ((n <= 3)%nat ->
      pill_onClick <$> cell_pills c = dayEvents /\ cell_more c = None).
Proof.
  intros Hg Hc dayEvents n.
  destruct (cell_lookup _ _ _ _ _ _ Hg Hc) as (_ & _ & Hp & Hm).
  change (getEventsForDay events (cell_day c)) with dayEvents in Hp, Hm.
  fold n in Hm. split; [apply filter_sublist|]. split; intros Hn.
  - split; [done|]. split.
    + rewrite <- (length_fmap pill_onClick), Hp, length_take. fold n. lia.
    + destruct (Nat.ltb_spec 3 n); [done|lia].
  - split.
    + rewrite Hp. apply take_ge. fold n. lia.
    + destruct (Nat.ltb_spec 3 n); [lia|done].
Qed.

(** The scenario of C2 needs the local date of 2025-03-10T14:00:00Z to be
    the 10th of March: the local time zone is less than 10 hours ahead of
    UTC and at most 14 hours behind. *)
Lemma localDay_scenario :
  -14 * msPerHour <= LocalTZA < 10 * msPerHour ->
  localDay (MakeDate (MakeDay 2025 2 10) (MakeTime 14 0 0 0)) = MakeDay 2025 2 10.
Proof.
  intros Htz. apply localDay_unique.
  unfold midnight, lastMs, UTC, MakeDate. revert Htz.
  change (MakeDay 2025 2 10) with 20157.
  change (MakeTime 14 0 0 0) with 50400000.
  change (MakeTime 23 59 59 999) with 86399999.
  unfold msPerDay, msPerHour. lia.
Qed.

(** C2, as the code has it: an event is among the events of a cell of the
    month grid exactly when the local calendar date of its start is the
    date of the cell, and the entries shown in the cell are among them;
    no event belongs to two different cells; an event that starts at
    2025-03-10T14:00:00Z belongs, on the grid of March 2025, to the cell
    dated 2025-03-10 and to no other when local time is less than 10 hours
    ahead of UTC and at most 14 hours behind. *)
Theorem month_cell_placement t events now g i c e :
  CalendarGrid (Valid t) events now = Ok g ->
  body g !! i = Some c ->
  (exists X, cell_day c = Valid (midnight X)
     /\ (e ∈ getEventsForDay events (cell_day c)
         <-> e ∈ events /\ exists s, start e = Valid s /\ localDay s = X))
  /\ (forall p, p ∈ cell_pills c ->
        pill_onClick p ∈ getEventsForDay events (cell_day c))
  /\ (forall j c',
        body g !! j = Some c' ->
        e ∈ getEventsForDay events (cell_day c) ->
        e ∈ getEventsForDay events (cell_day c') -> i = j)
  /\ (-14 * msPerHour <= LocalTZA < 10 * msPerHour ->
      YearFromTime (LocalTime t) = 2025 -> MonthFromTime (LocalTime t) = 2 ->
      e ∈ events ->
      start e = Valid (MakeDate (MakeDay 2025 2 10) (MakeTime 14 0 0 0)) ->
      (e ∈ getEventsForDay events (cell_day c)
       <-> cell_day c = Valid (midnight (MakeDay 2025 2 10)))
      /\ exists c10, c10 ∈ body g
                     /\ cell_day c10 = Valid (midnight (MakeDay 2025 2 10))).
Proof.
  intros Hg Hc.
  destruct (cell_lookup _ _ _ _ _ _ Hg Hc) as (Hday & Hi & Hp & _).
  assert (Hin : forall X, e ∈ getEventsForDay events (Valid (midnight X))
            <-> e ∈ events /\ exists s, start e = Valid s /\ localDay s = X).
  { intros X. rewrite getEventsForDay_elem.
    by setoid_rewrite localDay_midnight. }
  split; [|split; [|split]].
  - exists (gridFirst t + Z.of_nat i). split; [done|].
    rewrite Hday. apply Hin.
  - intros p Hpill. apply (list_elem_of_fmap_2 pill_onClick) in Hpill.
    rewrite Hp in Hpill. by apply elem_of_take in Hpill
      as (k & Hk%list_elem_of_lookup_2 & _).
  - intros j c' Hc'.
    destruct (cell_lookup _ _ _ _ _ _ Hg Hc') as (Hday' & _).
    rewrite Hday, Hday', !Hin.
    intros (_ & s & Hs & HX) (_ & s' & Hs' & HX').
    rewrite Hs in Hs'. injection Hs' as <-. lia.
  - intros Htz Hy Hm He Hs. rewrite Hday, Hin, Hs.
    pose proof (localDay_scenario Htz) as Hl. split.
    + split.
      * intros (_ & s & [= <-] & <-). by rewrite Hl.
      * intros [= HX%midnight_inj]. split; [done|]. eexists. split; [done|].
        by rewrite Hl, HX.
    + assert (HF : monthFirst t = MakeDay 2025 2 1)
        by (unfold monthFirst; by rewrite Hy, Hm).
      assert (HL : monthLast t = MakeDay 2025 3 1 - 1)
        by (unfold monthLast; by rewrite Hy, Hm).
      pose proof (grid_bounds t) as (_ & _ & HgF & HgL).
      rewrite HF in HgF. rewrite HL in HgL.
      change (MakeDay 2025 2 1) with 20148 in HgF.
      change (MakeDay 2025 3 1) with 20179 in HgL.
      assert (Hlen : Z.of_nat (length (body g)) = gridLast t - gridFirst t + 1).
      { rewrite <- length_days, <- (body_days _ _ _ _ Hg), length_fmap. done. }
      assert (Hk : (Z.to_nat (20157 - gridFirst t) < length (body g))%nat)
        by lia.
      apply lookup_lt_is_Some in Hk as [c10 Hc10]. exists c10.
      split; [by eapply list_elem_of_lookup_2|].
      destruct (cell_lookup _ _ _ _ _ _ Hg Hc10) as (-> & _).
      change (MakeDay 2025 2 10) with 20157. do 2 f_equal. lia.
Qed.

End Facts.

(** The scenario of C2 in UTC: the event is in the cell of the 10th of
    March 2025 and in no other cell. *)
Lemma month_cell_placement_witness :
  exists g c,
    CalendarGrid (tz := Examples.utc) (Valid (Examples.at_utc 2025 2 1 0 0))
      [Examples.midterm1] Examples.clock = Ok g
    /\ body g !! 15%nat = Some c
    /\ cell_number c = "10"
    /\ pill_onClick <$> cell_pills c = [Examples.midterm1]
    /\ (Examples.midterm1
          ∈ getEventsForDay (tz := Examples.utc) [Examples.midterm1] (cell_day c)
        <-> cell_day c
            = Valid (midnight (tz := Examples.utc) (MakeDay 2025 2 10)))
    /\ forall j c',
         body g !! j = Some c' ->
         Examples.midterm1
           ∈ getEventsForDay (tz := Examples.utc) [Examples.midterm1] (cell_day c) ->
         Examples.midterm1
           ∈ getEventsForDay (tz := Examples.utc) [Examples.midterm1] (cell_day c') ->
         15%nat = j.
Proof.
  destruct (CalendarGrid_total (tz := Examples.utc)
              (Examples.at_utc 2025 2 1 0 0) [Examples.midterm1] Examples.clock)
    as [g Hg].
  assert (Hc : exists c, body g !! 15%nat = Some c
                         /\ cell_number c = "10"
                         /\ pill_onClick <$> cell_pills c = [Examples.midterm1]).
  { revert Hg. vm_compute. intros [= <-]. eexists. repeat split. }
  destruct Hc as (c & Hc & Hnum & Hpills). exists g, c.
  destruct (month_cell_placement (tz := Examples.utc) _ _ _ g 15 c
              Examples.midterm1 Hg Hc) as (_ & _ & Huniq & Hscen).
  destruct Hscen as [Hiff _];
    [vm_compute; split; [discriminate|reflexivity]
    |reflexivity|reflexivity|apply list_elem_of_here|reflexivity|].
  repeat split; try assumption; apply Hiff.
Defined.

(** C2 is false as stated: in a time zone ten hours ahead of UTC the event
    that starts at 2025-03-10T14:00:00Z starts on the 11th of March, local
    time, and the month grid of March 2025 shows it in the cell dated
    2025-03-11; the cell dated 2025-03-10 is empty. *)
Lemma month_cell_placement_brisbane :
  exists g c10 c11,
    CalendarGrid (tz := Examples.brisbane)
      (Valid (Examples.at_utc 2025 2 15 0 0)) [Examples.midterm1]
      Examples.clock = Ok g
    /\ body g !! 15%nat = Some c10 /\ body g !! 16%nat = Some c11
    /\ (cell_number c10 = "10" /\ isCurrentMonth c10 = true
        /\ cell_day c10
           = Valid (midnight (tz := Examples.brisbane) (MakeDay 2025 2 10))
        /\ getEventsForDay (tz := Examples.brisbane) [Examples.midterm1]
             (cell_day c10) = []
        /\ cell_pills c10 = [])
    /\ (cell_number c11 = "11" /\ isCurrentMonth c11 = true
        /\ cell_day c11
           = Valid (midnight (tz := Examples.brisbane) (MakeDay 2025 2 11))
        /\ pill_onClick <$> cell_pills c11 = [Examples.midterm1]).
Proof.
  do 3 eexists. split; [vm_compute; reflexivity|].
  split; [reflexivity|]. split; [reflexivity|]. vm_compute. repeat split.
Qed.

(** The scenario of C3: five events on one day give three entries and
    "+2 more". *)
Lemma month_cell_overflow_witness :
  exists c,
    body Examples.march_five !! 15%nat = Some c
    /\ cell_number c = "10"
    /\ (pill_key <$> cell_pills c = ["0"; "1"; "2"] /\ cell_more c = Some 2)
    /\ pill_onClick <$> cell_pills c = take 3 Examples.five.
Proof.
  eexists. split; [reflexivity|].
  destruct (month_cell_overflow (tz := Examples.utc)
              (Examples.at_utc 2025 2 1 0 0) Examples.five Examples.clock
              Examples.march_five 15 _ eq_refl eq_refl) as (_ & H & _).
  destruct H as (Hp & _ & Hm); [vm_compute; lia|].
  split; [reflexivity|]. split; [split; [reflexivity|exact Hm]|exact Hp].
Defined.

(** C1 is false as stated: in UTC the grid of April 2025 (Tuesday the 1st
    to Wednesday the 30th) has 35 day cells, not 42, and the grid of
    February 2026 (Sunday the 1st to Saturday the 28th) has 28. *)
Lemma month_grid_april_2025 :
  (exists g,
      CalendarGrid (tz := Examples.utc)
        (Valid (Examples.at_utc 2025 3 15 12 0)) [] Examples.clock = Ok g
      /\ length (body g) = 35%nat /\ length (body g) <> 42%nat)
  /\ (exists g,
        CalendarGrid (tz := Examples.utc)
          (Valid (Examples.at_utc 2026 1 14 12 0)) [] Examples.clock = Ok g
        /\ length (body g) = 28%nat).
Proof.
  split.
  - eexists. split; [vm_compute; reflexivity|].
    split; [reflexivity|vm_compute; lia].
  - eexists. split; [vm_compute; reflexivity|reflexivity].
Qed.

End CalendarGridFacts.

(** ** The week view *)

(** ** Facts about the rounding of double precision *)

Module Binary64Facts.
Import Qround Qpower Lqa Binary64.
Local Open Scope Q_scope.

Lemma nearestEven_error x :
  - (1 # 2) <= inject_Z (nearestEven x) - x <= 1 # 2.
Proof.
  unfold nearestEven. pose proof (Qfloor_le x) as Hlo.
  pose proof (Qlt_floor x) as Hhi. rewrite inject_Z_plus in Hhi.
  change (inject_Z 1) with 1 in Hhi.
  destruct (x - inject_Z (Qfloor x) ?= 1 # 2) eqn:E.
  - apply Qeq_alt in E. destruct (Z.even (Qfloor x)).
    + lra.
    + rewrite inject_Z_plus. change (inject_Z 1) with 1. lra.
  - apply Qlt_alt in E. lra.
  - apply Qgt_alt in E. rewrite inject_Z_plus. change (inject_Z 1) with 1. lra.
Qed.

Lemma pow2_pos e : 0 < 2 ^ e.
Proof. by apply Qpower_0_lt. Qed.

Lemma pow2_add a b : 2 ^ (a + b) == 2 ^ a * 2 ^ b.
Proof. by apply Qpower_plus. Qed.

(** The exponent of a positive number is not too large. *)
Lemma exponent_le q : 0 < q -> 2 ^ exponent q <= q.
Proof.
  intros Hq. unfold exponent.
  destruct (Qle_bool _ q) eqn:E; [by apply Qle_bool_iff in E|]. clear E.
  destruct q as [n d]. cbn [Qnum Qden].
  assert (Hn : (0 < n)%Z) by (unfold Qlt in Hq; cbn in Hq; lia).
  pose proof (Z.log2_spec n Hn) as [Hln _].
  pose proof (Z.log2_spec (Z.pos d) eq_refl) as [_ Hld].
  pose proof (Z.log2_nonneg n) as H0n.
  pose proof (Z.log2_nonneg (Z.pos d)) as H0d.
  set (ln := Z.log2 n) in *. set (ld := Z.log2 (Z.pos d)) in *.
  replace (ln - ld - 1)%Z with (ln + - (ld + 1))%Z by lia.
  rewrite pow2_add, Qpower_opp.
  change (2 ^ ln) with (inject_Z 2 ^ ln).
  change (2 ^ (ld + 1)) with (inject_Z 2 ^ (ld + 1)).
  rewrite <- !Zpower_Qpower by lia.
  assert (Hp : (0 < 2 ^ (ld + 1))%Z) by lia.
  unfold Qle, Qmult, Qinv. cbn [Qnum Qden inject_Z].
  destruct (2 ^ (ld + 1))%Z as [|p|p] eqn:Ep; [lia| |lia].
  cbn [Qnum Qden]. nia.
Qed.

(** ... and not too small: [exponent q] is the integer part of the
    logarithm of [q] in base 2. *)
Lemma exponent_lt q : 0 < q -> q < 2 ^ (exponent q + 1).
Proof.
  intros Hq. unfold exponent.
  destruct (Qle_bool _ q) eqn:E.
  - clear E. destruct q as [n d]. cbn [Qnum Qden].
    assert (Hn : (0 < n)%Z) by (unfold Qlt in Hq; cbn in Hq; lia).
    pose proof (Z.log2_spec n Hn) as [_ Hln].
    pose proof (Z.log2_spec (Z.pos d) eq_refl) as [Hld _].
    pose proof (Z.log2_nonneg n) as H0n.
    pose proof (Z.log2_nonneg (Z.pos d)) as H0d.
    set (ln := Z.log2 n) in *. set (ld := Z.log2 (Z.pos d)) in *.
    replace (ln - ld + 1)%Z with ((ln + 1) + - ld)%Z by lia.
    rewrite pow2_add, Qpower_opp.
    change (2 ^ (ln + 1)) with (inject_Z 2 ^ (ln + 1)).
    change (2 ^ ld) with (inject_Z 2 ^ ld).
    rewrite <- !Zpower_Qpower by lia.
    assert (Hp : (0 < 2 ^ ld)%Z) by lia.
    unfold Qlt, Qmult, Qinv. cbn [Qnum Qden inject_Z].
    destruct (2 ^ ld)%Z as [|p|p] eqn:Ep; [lia| |lia].
    cbn [Qnum Qden]. rewrite Z.add_1_r. change (1 * p)%positive with p. nia.
  - replace (Z.log2 (Qnum q) - Z.log2 (Z.pos (Qden q)) - 1 + 1)%Z
      with (Z.log2 (Qnum q) - Z.log2 (Z.pos (Qden q)))%Z by lia.
    apply Qnot_le_lt. intros H%Qle_bool_iff. congruence.
Qed.

(** One rounding changes a positive number by 2^-53 of it at most, and
    leaves it positive. *)
Lemma roundPos_error q :
  0 < q ->
  0 < roundPos q
  /\ - (q * unitRoundoff) <= roundPos q - q <= q * unitRoundoff.
Proof.
  intros Hq. unfold roundPos.
  pose proof (exponent_le q Hq) as He. set (e := exponent q) in *.
  pose proof (nearestEven_error (q * 2 ^ (52 - e))) as Hn.
  set (a := inject_Z (nearestEven (q * 2 ^ (52 - e)))) in *.
  pose proof (pow2_pos (52 - e)) as Hp. pose proof (pow2_pos (e - 52)) as Hp'.
  assert (H1 : 2 ^ (52 - e) * 2 ^ (e - 52) == 1).
  { rewrite <- pow2_add. by replace (52 - e + (e - 52))%Z with 0%Z by lia. }
  assert (H2 : 2 ^ e == 2 ^ (e - 52) * inject_Z (2 ^ 52)).
  { rewrite Zpower_Qpower by lia. change (inject_Z 2) with 2.
    rewrite <- pow2_add. by replace (e - 52 + 52)%Z with e by lia. }
  rewrite H2 in He. clear H2.
  change unitRoundoff with (1 # 9007199254740992).
  change (inject_Z (2 ^ 52)) with (4503599627370496 # 1) in He.
  set (p := 2 ^ (52 - e)) in *. set (p' := 2 ^ (e - 52)) in *.
  assert (Hd : a * p' - q == (a - q * p) * p').
  { transitivity (a * p' - q * (p * p')); [rewrite H1|]; ring. }
  assert (Hlo : - (1 # 2) * p' <= (a - q * p) * p') by nra.
  assert (Hhi : (a - q * p) * p' <= (1 # 2) * p') by nra.
  split; [|rewrite Hd; lra].
  assert (a * p' == q + (a - q * p) * p') by lra. lra.
Qed.

Lemma round_pos q :
  0 < q ->
  0 < round q /\ - (q * unitRoundoff) <= round q - q <= q * unitRoundoff.
Proof.
  intros Hq. unfold round. destruct (q ?= 0) eqn:E.
  - apply Qeq_alt in E. lra.
  - apply Qlt_alt in E. lra.
  - by apply roundPos_error.
Qed.

Lemma round_neg q : q < 0 -> round q < 0.
Proof.
  intros Hq. unfold round. destruct (q ?= 0) eqn:E.
  - apply Qeq_alt in E. lra.
  - destruct (roundPos_error (- q)) as [H _]; lra.
  - apply Qgt_alt in E. lra.
Qed.

(** [(d / 60) * 60] in double precision, for an integer [d]: the two
    roundings change a positive [d] by 2^-51 of it at most. *)
Lemma scale_pos d :
  (0 < d)%Z ->
  let y := round (round (inject_Z d / inject_Z 60) * inject_Z 60) in
  0 < y
  /\ - (inject_Z d * 2 ^ (-51)) <= y - inject_Z d <= inject_Z d * 2 ^ (-51).
Proof.
  intros Hd. cbv zeta. assert (H0 : 0 < inject_Z d).
  { change 0 with (inject_Z 0). by rewrite <- Zlt_Qlt. }
  set (x := inject_Z d) in *. change (inject_Z 60) with 60.
  assert (Hq1 : 0 < x / 60) by (apply Qlt_shift_div_l; lra).
  destruct (round_pos _ Hq1) as [Hr1 He1]. set (r1 := round (x / 60)) in *.
  assert (Hq2 : 0 < r1 * 60) by lra.
  destruct (round_pos _ Hq2) as [Hr2 He2]. set (r2 := round (r1 * 60)) in *.
  split; [done|]. change unitRoundoff with (1 # 9007199254740992) in *.
  change (2 ^ (-51)) with (1 # 2251799813685248).
  assert (Hx : x / 60 == x * (1 # 60)) by (unfold Qdiv; reflexivity).
  rewrite Hx in He1. lra.
Qed.

Lemma scale_zero :
  round (round (inject_Z 0 / inject_Z 60) * inject_Z 60) = 0.
Proof. by vm_compute. Qed.

Lemma scale_neg d :
  (d < 0)%Z -> round (round (inject_Z d / inject_Z 60) * inject_Z 60) < 0.
Proof.
  intros Hd. assert (H0 : inject_Z d < 0).
  { change 0 with (inject_Z 0). by rewrite <- Zlt_Qlt. }
  revert H0. generalize (inject_Z d). clear d Hd. intros x H0.
  apply round_neg. assert (H : round (x / inject_Z 60) < 0).
  { apply round_neg. change (inject_Z 60) with 60. unfold Qdiv.
    change (/ 60) with (1 # 60). lra. }
  change (inject_Z 60) with 60 in *. lra.
Qed.

Lemma scale_bounds d :
  let y := round (round (inject_Z d / inject_Z 60) * inject_Z 60) in
  ((d <= 0)%Z -> y <= 0)
  /\ ((0 <= d)%Z ->
      0 <= y
      /\ - (inject_Z d * 2 ^ (-51)) <= y - inject_Z d
         <= inject_Z d * 2 ^ (-51)).
Proof.
  cbv zeta. split; intros Hd.
  - destruct (Z.eq_dec d 0%Z) as [->|Hn]; [by rewrite scale_zero|].
    apply Qlt_le_weak, scale_neg. lia.
  - destruct (Z.eq_dec d 0%Z) as [->|Hn]; [by rewrite scale_zero|].
    destruct (scale_pos d) as [H0 H]; [lia|]. split; [|done].
    by apply Qlt_le_weak.
Qed.

(** [Math.max((d / 60) * 60, 30)] in double precision: 30 when [d] is
    below 30, and [d] changed by 2^-51 of it at most otherwise. *)
Lemma height_bounds d :
  exists height,
    JSPx.max
      (Binary64.mul (Binary64.div (Some (inject_Z d)) (Some (inject_Z 60)))
         (Some (inject_Z 60)))
      (Some (inject_Z 30)) = Some height
    /\ ((d < 30)%Z -> height == inject_Z 30)
    /\ ((30 <= d)%Z ->
        inject_Z 30 <= height
        /\ - (inject_Z d * 2 ^ (-51)) <= height - inject_Z d
           <= inject_Z d * 2 ^ (-51)).
Proof.
  eexists. split; [reflexivity|]. destruct (scale_bounds d) as [Hneg Hpos].
  set (y := round _) in *. change (inject_Z 30) with 30.
  destruct (Qle_bool y 30) eqn:Hle.
  - apply Qle_bool_iff in Hle. split; [done|]. intros Hd.
    destruct Hpos as [_ Hpos]; [lia|]. split; [lra|].
    assert (H : 30 <= inject_Z d)
      by (change 30 with (inject_Z 30); rewrite <- Zle_Qle; lia).
    revert H Hpos. change (2 ^ (-51)) with (1 # 2251799813685248).
    generalize (inject_Z d). intros x ? ?. lra.
  - assert (Hgt : 30 < y).
    { apply Qnot_le_lt. intros H%Qle_bool_iff. congruence. }
    split.
    + intros Hd. exfalso. destruct (Z_le_gt_dec d 0%Z) as [H0|H0].
      { specialize (Hneg H0). lra. }
      destruct Hpos as [_ Hpos]; [lia|].
      assert (H : inject_Z d <= 29)
        by (change 29 with (inject_Z 29); rewrite <- Zle_Qle; lia).
      revert H Hpos. change (2 ^ (-51)) with (1 # 2251799813685248).
      generalize (inject_Z d). intros x ? ?. lra.
    + intros Hd. destruct Hpos as [_ Hpos]; [lia|]. split; [lra|done].
Qed.

(** The rounding against the primitive binary64 numbers: the quotients
    [m / 60] and the products [(m / 60) * 60] are the same numbers for the
    minutes [m] of two days, and so are [a / b] and [(a / b) * b] for
    [a] from 10^15 on and [b] from 1 to 100. *)
Lemma round_primitive :
  forallb (fun m => agrees m 60) (seqZ 0 2880) = true
  /\ forallb
       (fun b => forallb (fun a => agrees a b) (seqZ 1000000000000000 30))
       (seqZ 1 100) = true.
Proof. split; vm_compute; reflexivity. Qed.

End Binary64Facts.

Module CalendarWeekViewFacts.
Import ES ESFacts JSDate DateFns DateFnsFacts Calendar ResFacts.
Import CalendarWeekView.

Section Facts.
Context {tz : TimeZone}.

Lemma week_days_Valid t :
  days (Valid t) = (fun X => Valid (midnight X)) <$> seqZ (weekFirst t) 7.
Proof.
  unfold days. rewrite startOfWeek_Valid, endOfWeek_Valid.
  rewrite eachDayOfInterval_days by (pose proof (dayOfWeek_range (localDay t)); lia).
  unfold weekFirst. do 2 f_equal. lia.
Qed.

Lemma week_days_lookup t i day :
  days (Valid t) !! i = Some day
  <-> day = Valid (midnight (weekFirst t + Z.of_nat i)) /\ (i < 7)%nat.
Proof.
  rewrite week_days_Valid, list_lookup_fmap, fmap_Some. split.
  - intros (X & HX & ->). apply lookup_seqZ in HX as [-> ?]. split; [done|lia].
  - intros [-> Hi]. eexists. split; [|done]. apply lookup_seqZ. lia.
Qed.

Lemma weekFirst_bounds t :
  dayOfWeek (weekFirst t) = 0 /\ weekFirst t <= localDay t <= weekFirst t + 6.
Proof. unfold weekFirst, dayOfWeek. split; divmod. Qed.

Lemma week_getEventsForDay_elem events d e :
  e ∈ getEventsForDay events (Valid d)
  <-> e ∈ events /\ exists s, start e = Valid s /\ localDay s = localDay d.
Proof. apply CalendarGridFacts.getEventsForDay_elem. Qed.

Lemma minutesOfDay_range s : 0 <= minutesOfDay s < 1440.
Proof.
  unfold minutesOfDay, millisecondsInMinute.
  pose proof (midnight_localDay_le s) as H. revert H.
  unfold lastMs, midnight, UTC, MakeDate. change (MakeTime 23 59 59 999)
    with 86399999. unfold msPerDay. intros H.
  split.
  - apply Z.quot_pos; lia.
  - apply Z.quot_lt_upper_bound; lia.
Qed.

Lemma Qmul_div_60 (q : Q) : (q / inject_Z 60 * inject_Z 60 == q)%Q.
Proof. field. Qed.

(** The position of an event with a valid start: the offset is the number
    of minutes from midnight, the height the number of minutes to the end,
    30 at least; the height is NaN when the end is invalid. *)
Lemma getEventPosition_Valid event s :
  start event = Valid s ->
  JSPx.eqv (getEventPosition event).1 (inject_Z (minutesOfDay s))
  /\ match end_ event with
     | Valid e =>
         JSPx.eqv (getEventPosition event).2
           (inject_Z (Z.max (Z.quot (e - s) millisecondsInMinute) 30))
     | Invalid => (getEventPosition event).2 = None
     end.
Proof.
  intros Hs. unfold getEventPosition, HOUR_HEIGHT.
  rewrite Hs, startOfDay_Valid. cbn [fst snd]. split.
  - cbn. apply Qmul_div_60.
  - destruct (end_ event) as [|e]; [done|]. cbn.
    set (d := Z.quot (e - s) millisecondsInMinute).
    destruct (Qle_bool _ _) eqn:Hle.
    + apply Qle_bool_iff in Hle. rewrite Qmul_div_60 in Hle.
      rewrite <- Zle_Qle in Hle. by rewrite Z.max_r.
    + assert (~ d <= 30) as Hgt.
      { intros Hd. rewrite Zle_Qle, <- (Qmul_div_60 (inject_Z d)) in Hd.
        apply Qle_bool_iff in Hd. by rewrite Hd in Hle. }
      rewrite Z.max_l by lia. apply Qmul_div_60.
Qed.

(** The position in double precision of an event with a valid start: the
    offset is the number of minutes from midnight changed by 2^-51 of it at
    most; the height is 30 when the end is less than 30 minutes after the
    start, the number of minutes to the end changed by 2^-51 of it at most
    otherwise, and NaN when the end is invalid. *)
Lemma getEventPosition64_Valid event s :
  start event = Valid s ->
  (exists top,
     (CalendarWeekView64.getEventPosition event).1 = Some top
     /\ (0 <= top
         /\ - (inject_Z (minutesOfDay s) * 2 ^ (-51))
            <= top - inject_Z (minutesOfDay s)
            <= inject_Z (minutesOfDay s) * 2 ^ (-51))%Q)
  /\ match end_ event with
     | Valid e =>
         let d := Z.quot (e - s) millisecondsInMinute in
         exists height,
           (CalendarWeekView64.getEventPosition event).2 = Some height
           /\ (d < 30 -> (height == inject_Z 30)%Q)
           /\ (30 <= d ->
               (inject_Z 30 <= height
                /\ - (inject_Z d * 2 ^ (-51))
                   <= height - inject_Z d
                   <= inject_Z d * 2 ^ (-51))%Q)
     | Invalid => (CalendarWeekView64.getEventPosition event).2 = None
     end.
Proof.
  intros Hs. unfold CalendarWeekView64.getEventPosition, HOUR_HEIGHT.
  rewrite Hs, startOfDay_Valid. cbn [fst snd]. split.
  - pose proof (minutesOfDay_range s) as [Hm _]. eexists.
    split; [reflexivity|]. by apply Binary64Facts.scale_bounds.
  - destruct (end_ event) as [|e]; [done|].
    exact (Binary64Facts.height_bounds (Z.quot (e - s) millisecondsInMinute)).
Qed.

Lemma eventBlock_Ok e b :
  eventBlock e = Ok b ->
  block_onClick b = e /\ block_key b = id e
  /\ block_color b = getEventColor (type e)
  /\ block_top b = (getEventPosition e).1
  /\ block_height b = (getEventPosition e).2
  /\ format (start e) fmt_h_mm_a = Ok (block_time b).
Proof.
  unfold eventBlock. destruct (getEventPosition e) as [top height]. intros H.
  apply bind_Ok in H as (time & Ht & [= <-]). done.
Qed.

Lemma eventBlock_total e s :
  start e = Valid s -> exists b, eventBlock e = Ok b.
Proof.
  unfold eventBlock. destruct (getEventPosition e) as [top height].
  intros ->. cbn. eauto.
Qed.

Lemma blocks_total events d :
  exists blocks, mapM eventBlock (getEventsForDay events (Valid d)) = Ok blocks.
Proof.
  apply mapM_total, Forall_forall. intros e He.
  apply week_getEventsForDay_elem in He as (_ & s & Hs & _).
  by apply (eventBlock_total e s).
Qed.

Lemma blocks_onClick l blocks :
  mapM eventBlock l = Ok blocks -> block_onClick <$> blocks = l.
Proof.
  rewrite mapM_Ok. induction 1 as [|e b l blocks Hb _ IH]; [done|].
  cbn. apply eventBlock_Ok in Hb as [-> _]. by rewrite IH.
Qed.

Lemma blocks_elem l blocks b :
  mapM eventBlock l = Ok blocks -> b ∈ blocks ->
  block_onClick b ∈ l /\ eventBlock (block_onClick b) = Ok b.
Proof.
  rewrite mapM_Ok. induction 1 as [|e b' l blocks Hb _ IH].
  - by intros ?%elem_of_nil.
  - intros [->|Hin]%elem_of_cons.
    + pose proof (eventBlock_Ok _ _ Hb) as [-> _].
      split; [apply list_elem_of_here|done].
    + destruct (IH Hin). split; [by apply list_elem_of_further|done].
Qed.

Lemma dayColumn_Ok events now i day c :
  dayColumn events now i day = Ok c ->
  col_day c = day
  /\ col_today c = isToday (now i) day
  /\ toISOString day = Ok (col_key c)
  /\ format day fmt_EEE = Ok (col_name c)
  /\ format day fmt_d = Ok (col_number c)
  /\ mapM eventBlock (getEventsForDay events day) = Ok (col_events c).
Proof.
  unfold dayColumn. intros H.
  apply bind_Ok in H as (key & Hk & H).
  apply bind_Ok in H as (name & Hn & H).
  apply bind_Ok in H as (number & Hd & H).
  apply bind_Ok in H as (blocks & Hb & [= <-]). done.
Qed.

Lemma dayColumn_total events now i d :
  exists c, dayColumn events now i (Valid d) = Ok c.
Proof.
  unfold dayColumn. destruct (blocks_total events d) as [blocks ->].
  cbn. eauto.
Qed.

Lemma labels_total t :
  exists labels,
    mapM (fun hour => format (addMinutes (startOfDay (Valid t)) (hour * 60)) fmt_ha)
      hours = Ok labels.
Proof.
  apply mapM_total, Forall_forall. intros hour _.
  rewrite startOfDay_Valid. cbn. eauto.
Qed.

(** The week view of a valid date is built without an exception. *)
Lemma CalendarWeekView_total t events now :
  exists g, CalendarWeekView (Valid t) events now = Ok g.
Proof.
  unfold CalendarWeekView. destruct (labels_total t) as [labels ->].
  destruct (imapM_total (dayColumn events now) (days (Valid t)))
    as [cols Hcols].
  - intros i day [-> _]%week_days_lookup. apply dayColumn_total.
  - cbn. rewrite Hcols. cbn. eauto.
Qed.

Lemma CalendarWeekView_Ok cur events now g :
  CalendarWeekView cur events now = Ok g ->
  length (day_cols g) = length (days cur)
  /\ forall i day c,
       days cur !! i = Some day -> day_cols g !! i = Some c ->
       dayColumn events now i day = Ok c.
Proof.
  unfold CalendarWeekView. intros H.
  apply bind_Ok in H as (labels & _ & H).
  apply bind_Ok in H as (cols & Hc & [= <-]).
  apply imapM_Ok in Hc as [Hlen Hc]. done.
Qed.

Lemma cols_days cur events now g :
  CalendarWeekView cur events now = Ok g -> col_day <$> day_cols g = days cur.
Proof.
  intros (Hlen & Hc)%CalendarWeekView_Ok. apply list_eq. intros i.
  rewrite list_lookup_fmap.
  destruct (day_cols g !! i) as [c|] eqn:Ec, (days cur !! i) as [day|] eqn:Ed;
    cbn; [|exfalso..|done].
  - pose proof (Hc i day c Ed Ec) as H.
    apply dayColumn_Ok in H as (H & _). by rewrite H.
  - apply lookup_lt_Some in Ec. apply lookup_ge_None in Ed. lia.
  - apply lookup_lt_Some in Ed. apply lookup_ge_None in Ec. lia.
Qed.

(** A column of the week view of [Valid t] shows a day of the week of [t]
    with all the events of that day. *)
Lemma col_elem t events now g c :
  CalendarWeekView (Valid t) events now = Ok g ->
  c ∈ day_cols g ->
  exists X, weekFirst t <= X <= weekFirst t + 6
            /\ col_day c = Valid (midnight X)
            /\ mapM eventBlock (getEventsForDay events (Valid (midnight X)))
               = Ok (col_events c).
Proof.
  intros Hg [i Hc]%list_elem_of_lookup.
  pose proof (cols_days _ _ _ _ Hg) as Hd.
  assert (Hday : days (Valid t) !! i = Some (col_day c)).
  { by rewrite <- Hd, list_lookup_fmap, Hc. }
  apply CalendarWeekView_Ok in Hg as [_ Hcol].
  pose proof (Hcol _ _ _ Hday Hc) as Hok.
  apply week_days_lookup in Hday as [Hday Hi].
  apply dayColumn_Ok in Hok as (_ & _ & _ & _ & _ & Hb).
  exists (weekFirst t + Z.of_nat i). split; [lia|]. split; [done|].
  by rewrite <- Hday.
Qed.

(** The block of an event: the event is one of the day of its column and
    the position is that of [getEventPosition_Valid]. *)
Lemma block_elem t events now g c b :
  CalendarWeekView (Valid t) events now = Ok g ->
  c ∈ day_cols g -> b ∈ col_events c ->
  exists X s,
    col_day c = Valid (midnight X)
    /\ block_onClick b ∈ events
    /\ start (block_onClick b) = Valid s /\ localDay s = X
    /\ block_top b = (getEventPosition (block_onClick b)).1
    /\ block_height b = (getEventPosition (block_onClick b)).2.
Proof.
  intros Hg Hc Hb. destruct (col_elem _ _ _ _ _ Hg Hc) as (X & _ & Hday & Hbs).
  destruct (blocks_elem _ _ _ Hbs Hb) as [Hin Hok].
  apply week_getEventsForDay_elem in Hin as (Hin & s & Hs & HX).
  rewrite localDay_midnight in HX.
  apply eventBlock_Ok in Hok as (_ & _ & _ & Htop & Hheight & _).
  by exists X, s.
Qed.

Lemma filter_filter_implied {A : Type} (f v : A -> bool) (l : list A) :
  (forall x, f x = true -> v x = true) ->
  List.filter f (List.filter v l) = List.filter f l.
Proof.
  intros H. induction l as [|x l IH]; cbn; [done|].
  destruct (v x) eqn:Hv; cbn; [by rewrite IH|].
  destruct (f x) eqn:Hf; [|done]. apply H in Hf. congruence.
Qed.

(** The events of a day are found among the events with a valid start. *)
Lemma getEventsForDay_valid events day :
  getEventsForDay (List.filter (fun e => isValid (start e)) events) day
  = getEventsForDay events day.
Proof.
  apply filter_filter_implied. intros e. unfold toDate.
  destruct (start e); [by rewrite isSameDay_Invalid_l|done].
Qed.

Lemma CalendarGrid_valid cur events now :
  CalendarGrid.CalendarGrid cur
    (List.filter (fun e => isValid (start e)) events) now
  = CalendarGrid.CalendarGrid cur events now.
Proof.
  unfold CalendarGrid.CalendarGrid. f_equal. apply imapM_ext. intros i day.
  unfold CalendarGrid.dayCell.
  change (CalendarGrid.getEventsForDay ?l day) with (getEventsForDay l day).
  by rewrite getEventsForDay_valid.
Qed.

Lemma CalendarWeekView_valid cur events now :
  CalendarWeekView cur (List.filter (fun e => isValid (start e)) events) now
  = CalendarWeekView cur events now.
Proof.
  unfold CalendarWeekView. destruct (mapM _ hours) as [labels|error]; [|done].
  cbn. rewrite (imapM_ext _ (dayColumn events now)); [done|].
  intros i day. unfold dayColumn. by rewrite getEventsForDay_valid.
Qed.

(** C5: for every current date the week view has the seven days of the
    week, Sunday to Saturday, that contains the date, and every column
    shows all the events of its day.  The block of an event has the offset
    [(m / 60) * 60], [m] the minutes from midnight to its start, and the
    height [Math.max((d / 60) * 60, 30)], [d] the minutes from its start to
    its end.  Evaluated exactly these are [m] and the larger of [d] and 30.
    In double precision the offset is [m] changed by 2^-51 of it at most;
    the height is 30 when the end is less than 30 minutes after the start,
    so when it is not after the start, and [d] changed by 2^-51 of it at
    most otherwise.  When the end is an invalid date the height is NaN.
    An event of the back end without an end, or with the empty string as
    its end, gets the date of its start as its end, and the height 30. *)
Theorem week_grid t events now :
  exists g,
    CalendarWeekView (Valid t) events now = Ok g
    /\ (col_day <$> day_cols g
        = (fun X => Valid (midnight X)) <$> seqZ (weekFirst t) 7
        /\ length (day_cols g) = 7%nat
        /\ dayOfWeek (weekFirst t) = 0
        /\ weekFirst t <= localDay t <= weekFirst t + 6)
    /\ (forall c, c ∈ day_cols g ->
          block_onClick <$> col_events c = getEventsForDay events (col_day c))
    /\ (forall c b, c ∈ day_cols g -> b ∈ col_events c ->
          exists s top,
            start (block_onClick b) = Valid s
            /\ JSPx.eqv (block_top b) (inject_Z (minutesOfDay s))
            /\ (CalendarWeekView64.getEventPosition (block_onClick b)).1
               = Some top
            /\ (0 <= top
                /\ - (inject_Z (minutesOfDay s) * 2 ^ (-51))
                   <= top - inject_Z (minutesOfDay s)
                   <= inject_Z (minutesOfDay s) * 2 ^ (-51))%Q
            /\ match end_ (block_onClick b) with
               | Valid e =>
                   let d := Z.quot (e - s) millisecondsInMinute in
                   JSPx.eqv (block_height b) (inject_Z (Z.max d 30))
                   /\ (e <= s -> JSPx.eqv (block_height b) (inject_Z 30))
                   /\ exists height,
                        (CalendarWeekView64.getEventPosition
                           (block_onClick b)).2 = Some height
                        /\ (e <= s \/ d < 30 -> (height == inject_Z 30)%Q)
                        /\ (30 <= d ->
                            (inject_Z 30 <= height
                             /\ - (inject_Z d * 2 ^ (-51))
                                <= height - inject_Z d
                                <= inject_Z d * 2 ^ (-51))%Q)
               | Invalid =>
                   block_height b = None
                   /\ (CalendarWeekView64.getEventPosition
                         (block_onClick b)).2 = None
               end)
    /\ (forall newDate event,
          let e := mapBackendEventToCalendarEvent newDate event in
          start e = newDate (Api.start event)
          /\ match Api.end_ event with
             | Some (String _ _ as iso) => end_ e = newDate iso
             | _ =>
                 end_ e = newDate (Api.start event)
                 /\ (isValid (start e) = true ->
                     JSPx.eqv (getEventPosition e).2 (inject_Z 30)
                     /\ JSPx.eqv (CalendarWeekView64.getEventPosition e).2
                          (inject_Z 30))
             end).
Proof.
  destruct (CalendarWeekView_total t events now) as [g Hg]. exists g.
  split; [done|]. pose proof (cols_days _ _ _ _ Hg) as Hd.
  split; [|split; [|split]].
  - pose proof (weekFirst_bounds t) as [H0 Hin].
    split; [by rewrite Hd, week_days_Valid|]. split; [|done].
    by rewrite <- (length_fmap col_day), Hd, week_days_Valid, length_fmap, length_seqZ.
  - intros c Hc. destruct (col_elem _ _ _ _ _ Hg Hc) as (X & _ & -> & Hbs).
    by apply blocks_onClick.
  - intros c b Hc Hb.
    destruct (block_elem _ _ _ _ _ _ Hg Hc Hb)
      as (X & s & _ & _ & Hs & _ & -> & ->).
    destruct (getEventPosition_Valid _ _ Hs) as [Htop Hheight].
    destruct (getEventPosition64_Valid _ _ Hs) as [(top & Et & Htop64) H64].
    exists s, top. do 4 (split; [done|]).
    destruct (end_ (block_onClick b)) as [|e]; [done|]. cbv zeta in *.
    assert (Hq : e <= s -> Z.quot (e - s) millisecondsInMinute <= 0).
    { intros Hle. apply Z.quot_le_upper_bound; unfold millisecondsInMinute; lia. }
    split; [done|]. split.
    { intros Hle%Hq. by rewrite Z.max_r in Hheight by lia. }
    destruct H64 as (height & Eh & Hlt & Hge).
    exists height. split; [done|]. split; [|done].
    intros [Hle%Hq|Hle]; apply Hlt; lia.
  - intros newDate event e. split; [done|].
    assert (H : end_ e = start e ->
                isValid (start e) = true ->
                JSPx.eqv (getEventPosition e).2 (inject_Z 30)
                /\ JSPx.eqv (CalendarWeekView64.getEventPosition e).2
                     (inject_Z 30)).
    { intros Hend Hv. destruct (start e) as [|s] eqn:Hs; [done|].
      destruct (getEventPosition_Valid e s Hs) as [_ Hh].
      destruct (getEventPosition64_Valid e s Hs) as [_ Hh64].
      rewrite Hend in Hh, Hh64. cbv zeta in Hh64.
      rewrite Z.sub_diag in Hh, Hh64. split; [done|].
      destruct Hh64 as (height & -> & Hlt & _). by apply Hlt. }
    destruct (Api.end_ event) as [[|ch iso]|] eqn:E.
    + assert (Hend : end_ e = start e)
        by (unfold e, mapBackendEventToCalendarEvent; cbn; by rewrite E).
      split; [done|by apply H].
    + unfold e, mapBackendEventToCalendarEvent. cbn. by rewrite E.
    + assert (Hend : end_ e = start e)
        by (unfold e, mapBackendEventToCalendarEvent; cbn; by rewrite E).
      split; [done|by apply H].
Qed.

(** Of two time values of one local day the earlier has the smaller
    number of minutes from midnight. *)
Lemma minutesOfDay_mono sA sB :
  localDay sA = localDay sB -> sA <= sB -> minutesOfDay sA <= minutesOfDay sB.
Proof.
  intros Hday Hle. unfold minutesOfDay. rewrite Hday.
  apply Z.quot_le_mono; unfold millisecondsInMinute; lia.
Qed.

(** In double precision the offset is monotone in the minutes of a day,
    whatever the rounding: the 1440 values are compared with each other. *)
Lemma ascending_lookup l i j x y :
  Double.ascending l = true -> (i <= j)%nat ->
  l !! i = Some x -> l !! j = Some y -> PrimFloat.leb x y = true.
Proof.
  revert i j. induction l as [|z l IH]; intros i j Hl Hij Hi Hj; [done|].
  cbn in Hl. apply andb_true_iff in Hl as [Hz Hl].
  apply andb_true_iff in Hz as [Hzz Hz]. destruct i as [|i].
  - injection Hi as ->. destruct j as [|j]; [by injection Hj as <-|].
    rewrite forallb_forall in Hz. apply Hz, list_elem_of_In.
    by eapply list_elem_of_lookup_2.
  - destruct j as [|j]; [lia|]. apply (IH i j); [done|lia|done..].
Qed.

Lemma ascending_tops : Double.ascending Double.tops = true.
Proof. vm_compute. reflexivity. Qed.

Lemma tops_lookup m :
  0 <= m < 1440 -> Double.tops !! Z.to_nat m = Some (Double.top m).
Proof.
  intros Hm. unfold Double.tops.
  rewrite list_lookup_fmap, lookup_seqZ_lt by lia. cbn.
  by rewrite Z2Nat.id by lia.
Qed.

Lemma top_double_mono a b :
  0 <= a <= b -> b < 1440 ->
  PrimFloat.leb (Double.top a) (Double.top b) = true.
Proof.
  intros Hab Hb.
  apply (ascending_lookup Double.tops (Z.to_nat a) (Z.to_nat b));
    [apply ascending_tops|lia|apply tops_lookup; lia..].
Qed.

(** The rounding is visible: at 31 minutes the offset in double precision
    is not 31 but the next double, 31.000000000000004. *)
Lemma top_double_31 :
  PrimFloat.eqb (Double.top 31) (Double.ofZ 31) = false
  /\ PrimFloat.eqb (Double.top 31) (PrimFloat.next_up (Double.ofZ 31)) = true
  /\ PrimFloat.eqb (Double.top 30) (Double.ofZ 30) = true.
Proof. by vm_compute. Qed.

(** C8: of two events shown in one column of the week view, the one that
    starts earlier has the smaller or an equal offset: in exact arithmetic,
    where the offset is the number of minutes from midnight, and in double
    precision as well. *)
Theorem week_offsets_monotone t events now g c bA bB sA sB :
  CalendarWeekView (Valid t) events now = Ok g ->
  c ∈ day_cols g -> bA ∈ col_events c -> bB ∈ col_events c ->
  start (block_onClick bA) = Valid sA ->
  start (block_onClick bB) = Valid sB ->
  sA < sB ->
  JSPx.le (block_top bA) (block_top bB)
  /\ (JSPx.eqv (block_top bA) (inject_Z (minutesOfDay sA))
      /\ JSPx.eqv (block_top bB) (inject_Z (minutesOfDay sB)))
  /\ PrimFloat.leb (Double.top (minutesOfDay sA)) (Double.top (minutesOfDay sB))
     = true.
Proof.
  intros Hg Hc HA HB HsA HsB Hlt.
  destruct (block_elem _ _ _ _ _ _ Hg Hc HA)
    as (X & s & HX & _ & Hs & HdA & -> & _).
  rewrite HsA in Hs. injection Hs as <-.
  destruct (block_elem _ _ _ _ _ _ Hg Hc HB)
    as (X' & s & HX' & _ & Hs & HdB & -> & _).
  rewrite HsB in Hs. injection Hs as <-.
  rewrite HX in HX'. injection HX' as HX'%midnight_inj. subst X'.
  destruct (getEventPosition_Valid _ _ HsA) as [HtA _].
  destruct (getEventPosition_Valid _ _ HsB) as [HtB _].
  assert (Hm : minutesOfDay sA <= minutesOfDay sB)
    by (apply minutesOfDay_mono; [congruence|lia]).
  split; [|split; [done|]].
  - destruct (getEventPosition (block_onClick bA)).1 as [qA|]; [|done].
    destruct (getEventPosition (block_onClick bB)).1 as [qB|]; [|done].
    cbn in *. by rewrite HtA, HtB, <- Zle_Qle.
  - pose proof (minutesOfDay_range sA). pose proof (minutesOfDay_range sB).
    apply top_double_mono; lia.
Qed.

(** C6, as the code has it: for every list of events, whatever the dates
    in it, the month view and the week view of a current date are built
    without an exception.  An event whose start is invalid is among the
    events of no day of either view, and the views are the same as without
    these events: nothing in them counts the events left out.  An event
    with a valid start belongs to the day of its start whatever its end;
    when its end is invalid, the height of its block in the week view is
    NaN. *)
Theorem layout_invalid_dates t events now :
  let valid := List.filter (fun e => isValid (start e)) events in
  (exists g,
      CalendarGrid.CalendarGrid (Valid t) events now = Ok g
      /\ CalendarGrid.CalendarGrid (Valid t) valid now = Ok g
      /\ forall c e,
           c ∈ CalendarGrid.body g ->
           (start e = Invalid ->
            e ∉ CalendarGrid.getEventsForDay events (CalendarGrid.cell_day c))
           /\ (forall s,
                 e ∈ events -> start e = Valid s ->
                 CalendarGrid.cell_day c = Valid (midnight (localDay s)) ->
                 e ∈ CalendarGrid.getEventsForDay events
                       (CalendarGrid.cell_day c)))
  /\ (exists w,
        CalendarWeekView (Valid t) events now = Ok w
        /\ CalendarWeekView (Valid t) valid now = Ok w
        /\ (forall c e,
              c ∈ day_cols w ->
              (start e = Invalid ->
               e ∉ getEventsForDay events (col_day c))
              /\ (forall s,
                    e ∈ events -> start e = Valid s ->
                    col_day c = Valid (midnight (localDay s)) ->
                    e ∈ block_onClick <$> col_events c))
        /\ (forall c b,
              c ∈ day_cols w -> b ∈ col_events c ->
              end_ (block_onClick b) = Invalid -> block_height b = None)).
Proof.
  intros valid. split.
  - destruct (CalendarGridFacts.CalendarGrid_total t events now) as [g Hg].
    exists g. split; [done|]. split; [unfold valid; by rewrite CalendarGrid_valid|].
    intros c e [i Hc]%list_elem_of_lookup.
    destruct (CalendarGridFacts.cell_lookup _ _ _ _ _ _ Hg Hc) as (-> & _).
    split.
    + intros Hs (_ & s & Hs' & _)%week_getEventsForDay_elem. congruence.
    + intros s He Hs ->. apply week_getEventsForDay_elem. split; [done|].
      exists s. by rewrite localDay_midnight.
  - destruct (CalendarWeekView_total t events now) as [w Hw].
    exists w. split; [done|].
    split; [unfold valid; by rewrite CalendarWeekView_valid|]. split.
    + intros c e Hc. destruct (col_elem _ _ _ _ _ Hw Hc) as (X & _ & -> & Hbs).
      split.
      * intros Hs (_ & s & Hs' & _)%week_getEventsForDay_elem. congruence.
      * intros s He Hs [= HX%midnight_inj]. rewrite (blocks_onClick _ _ Hbs).
        apply week_getEventsForDay_elem. split; [done|].
        exists s. by rewrite localDay_midnight.
    + intros c b Hc Hb Hend.
      destruct (block_elem _ _ _ _ _ _ Hw Hc Hb)
        as (X & s & _ & _ & Hs & _ & _ & ->).
      destruct (getEventPosition_Valid _ _ Hs) as [_ Hh].
      by rewrite Hend in Hh.
Qed.

End Facts.

(** The current date itself has to be valid: on an invalid current date
    the week view throws, in [format], while it builds the time column. *)
Lemma CalendarWeekView_Invalid {tz : TimeZone} events now :
  CalendarWeekView Invalid events now = Throw "RangeError: Invalid time value".
Proof. done. Qed.

(** C6 is false as stated.  The quiz of [Examples.mixed] has an invalid end:
    it is not left out but shown in the column of Monday the 10th, with the
    height NaN.  The final has an invalid start: it is left out, and the
    week view is the one of the other three events alone, so that no count
    of the events left out can be read from it. *)
Lemma week_view_invalid_end :
  CalendarWeekView (tz := Examples.utc) (Valid (Examples.at_utc 2025 2 12 0 0))
    Examples.mixed Examples.clock = Ok Examples.week_mixed
  /\ CalendarWeekView (tz := Examples.utc)
       (Valid (Examples.at_utc 2025 2 12 0 0))
       [Examples.lecture; Examples.midterm; Examples.quiz] Examples.clock
     = Ok Examples.week_mixed
  /\ exists c b,
       day_cols Examples.week_mixed !! 1%nat = Some c
       /\ col_name c = "Mon" /\ col_number c = "10"
       /\ block_onClick <$> col_events c
          = [Examples.lecture; Examples.midterm; Examples.quiz]
       /\ col_events c !! 2%nat = Some b
       /\ end_ (block_onClick b) = Invalid
       /\ block_height b = None.
Proof.
  split; [vm_compute; reflexivity|]. split; [vm_compute; reflexivity|].
  do 2 eexists. split; [reflexivity|]. repeat split.
Qed.

(** The scenario of C8 on [Examples.week_mixed]: the block of the lecture
    at 9:00 is above the block of the midterm at 14:00. *)
Lemma week_offsets_monotone_witness :
  (CalendarWeekView (tz := Examples.utc)
     (Valid (Examples.at_utc 2025 2 12 0 0)) Examples.mixed Examples.clock
   = Ok Examples.week_mixed
   /\ Examples.monday ∈ day_cols Examples.week_mixed
   /\ Examples.block_lecture ∈ col_events Examples.monday
   /\ Examples.block_midterm ∈ col_events Examples.monday
   /\ start (block_onClick Examples.block_lecture)
      = Valid (Examples.at_utc 2025 2 10 9 0)
   /\ start (block_onClick Examples.block_midterm)
      = Valid (Examples.at_utc 2025 2 10 14 0)
   /\ Examples.at_utc 2025 2 10 9 0 < Examples.at_utc 2025 2 10 14 0)
  /\ JSPx.le (block_top Examples.block_lecture)
       (block_top Examples.block_midterm).
Proof.
  assert (Hg : CalendarWeekView (tz := Examples.utc)
                 (Valid (Examples.at_utc 2025 2 12 0 0)) Examples.mixed
                 Examples.clock = Ok Examples.week_mixed)
    by (vm_compute; reflexivity).
  assert (Hin : Examples.monday ∈ day_cols Examples.week_mixed)
    by (apply (list_elem_of_lookup_2 _ 1); vm_compute; reflexivity).
  assert (HinA : Examples.block_lecture ∈ col_events Examples.monday)
    by (apply (list_elem_of_lookup_2 _ 0); vm_compute; reflexivity).
  assert (HinB : Examples.block_midterm ∈ col_events Examples.monday)
    by (apply (list_elem_of_lookup_2 _ 1); vm_compute; reflexivity).
  split; [repeat split; (assumption || (vm_compute; reflexivity))|].
  exact (proj1 (week_offsets_monotone (tz := Examples.utc) _ _ _ _
                  Examples.monday Examples.block_lecture Examples.block_midterm
                  _ _ Hg Hin HinA HinB eq_refl eq_refl eq_refl)).
Defined.

(** C5 is false as stated.  In the week of [Examples.week_early] the
    column of Monday the 10th has the lecture at 0:31 and the quiz at
    16:00.  The quiz is placed although its end is an invalid date, and its
    height is NaN, not a number of minutes and not 30.  The lecture starts
    31 minutes after midnight; its offset in double precision is
    31 + 2^-48, printed 31.000000000000004, and not 31: so it is in the
    rounding of [Binary64], and so it is in the primitive binary64
    numbers. *)
Lemma week_positions_not_minutes :
  CalendarWeekView (tz := Examples.utc) (Valid (Examples.at_utc 2025 2 12 0 0))
    [Examples.early; Examples.quiz] Examples.clock = Ok Examples.week_early
  /\ exists c b1 b2,
       day_cols Examples.week_early !! 1%nat = Some c
       /\ col_name c = "Mon" /\ col_number c = "10"
       /\ col_events c = [b1; b2]
       /\ block_onClick b1 = Examples.early
       /\ block_onClick b2 = Examples.quiz
       /\ (start Examples.quiz = Valid (Examples.at_utc 2025 2 10 16 0)
           /\ end_ Examples.quiz = Invalid
           /\ block_height b2 = None
           /\ (CalendarWeekView64.getEventPosition (tz := Examples.utc)
                 Examples.quiz).2 = None)
       /\ (start Examples.early = Valid (Examples.at_utc 2025 2 10 0 31)
           /\ minutesOfDay (tz := Examples.utc) (Examples.at_utc 2025 2 10 0 31)
              = 31
           /\ JSPx.eqv
                (CalendarWeekView64.getEventPosition (tz := Examples.utc)
                   Examples.early).1
                (inject_Z 31 + 2 ^ (-48))
           /\ ~ JSPx.eqv
                  (CalendarWeekView64.getEventPosition (tz := Examples.utc)
                     Examples.early).1
                  (inject_Z 31)
           /\ PrimFloat.eqb (Double.top 31) (Double.ofZ 31) = false
           /\ Binary64.sameValue (Double.top 31) (inject_Z 31 + 2 ^ (-48))
              = true).
Proof.
  split; [vm_compute; reflexivity|].
  do 3 eexists. split; [reflexivity|]. do 5 (split; [reflexivity|]).
  split; [by vm_compute|]. split; [reflexivity|]. split; [by vm_compute|].
  split; [by vm_compute|]. split; [by vm_compute|].
  split; vm_compute; reflexivity.
Qed.

(** The scenarios of C5 on [Examples.week_mixed]: the offsets of the
    lecture at 9:00 and of the midterm at 14:00 are 540 and 840, the
    height of the lecture of one hour is 60, and the midterm, whose end is
    its start, has the minimum height 30. *)
Lemma week_mixed_positions :
  JSPx.eqv (block_top Examples.block_lecture) (inject_Z 540)
  /\ JSPx.eqv (block_height Examples.block_lecture) (inject_Z 60)
  /\ JSPx.eqv (block_top Examples.block_midterm) (inject_Z 840)
  /\ JSPx.eqv (block_height Examples.block_midterm) (inject_Z 30).
Proof. by vm_compute. Qed.

End CalendarWeekViewFacts.

(** ** The store of [Date] objects *)

Module StoreFacts.
Import ES ESFacts JSDate DateFns DateFnsFacts Calendar ResFacts Store.

Lemma bind_unfold {A B : Type} (m : M A) (k : A -> M B) (h : Heap) :
  (m ≫= k) h
  = match m h with
    | (h', Ok a) => k a h'
    | (h', Throw e) => (h', Throw e)
    end.
Proof. done. Qed.

Lemma bind_run {A B : Type} (m : M A) (k : A -> M B) (h h1 : Heap) (a : A) :
  m h = (h1, Ok a) -> (m ≫= k) h = k a h1.
Proof. intros E. by rewrite bind_unfold, E. Qed.

Lemma bind_throw {A B : Type} (m : M A) (k : A -> M B) (h h1 : Heap) e :
  m h = (h1, Throw e) -> (m ≫= k) h = (h1, Throw e).
Proof. intros E. by rewrite bind_unfold, E. Qed.

Lemma runs_bind {A B : Type} {m : M A} {k : A -> M B} {g new a r} :
  m g = (g ++ new, Ok a) -> runs (k a) (g ++ new) r -> runs (m ≫= k) g r.
Proof.
  intros E [new' E']. exists (new ++ new').
  by rewrite (bind_run _ _ _ _ _ E), E', app_assoc.
Qed.

Lemma runsOn_ret {A : Type} (a : A) h : runsOn (mret a) h (Ok a).
Proof. intros n. exists []. by rewrite app_nil_r. Qed.

Lemma runsOn_lift {A : Type} (r : Res A) h : runsOn (lift r) h r.
Proof. intros n. exists []. by rewrite app_nil_r. Qed.

Lemma runsOn_bind {A B : Type} (m : M A) (k : A -> M B) h a r :
  runsOn m h (Ok a) -> runsOn (k a) h r -> runsOn (m ≫= k) h r.
Proof.
  intros Hm Hk n. destruct (Hm n) as [new E].
  apply (runs_bind E). rewrite <- app_assoc. apply Hk.
Qed.

Lemma runsOn_throw {A B : Type} (m : M A) (k : A -> M B) h e :
  runsOn m h (Throw e) -> runsOn (m ≫= k) h (Throw e).
Proof.
  intros Hm n. destruct (Hm n) as [new E]. exists new.
  by rewrite (bind_throw _ _ _ _ _ E).
Qed.

(** A bind runs as the bind of the results. *)
Lemma runsOn_bind_res {A B : Type} (m : M A) (k : A -> M B) h
    (r : Res A) (f : A -> Res B) :
  runsOn m h r -> (forall a, r = Ok a -> runsOn (k a) h (f a)) ->
  runsOn (m ≫= k) h (r ≫= f).
Proof.
  intros Hm Hk. destruct r as [a|e]; cbn.
  - by apply (runsOn_bind _ _ _ a); [|apply Hk].
  - by apply runsOn_throw.
Qed.

Lemma runsOn_app {A : Type} (m : M A) h n r : runsOn m h r -> runsOn m (h ++ n) r.
Proof. intros H n'. rewrite <- app_assoc. apply H. Qed.

Lemma runsOn_runs {A : Type} (m : M A) h r : runsOn m h r -> runs m h r.
Proof. intros H. specialize (H []). by rewrite app_nil_r in H. Qed.

(** Traversals run as the traversals of the results. *)
Lemma runsOn_mapM {A B : Type} (f : A -> M B) (F : A -> Res B) l h :
  (forall x, x ∈ l -> runsOn (f x) h (F x)) ->
  runsOn (mapM f l) h (mapM F l).
Proof.
  induction l as [|x l IH]; intros H; [apply runsOn_ret|].
  cbn [mapM]. apply runsOn_bind_res; [apply H, list_elem_of_here|].
  intros y _. apply runsOn_bind_res.
  - apply IH. intros x' Hx'. by apply H, list_elem_of_further.
  - intros ys _. apply runsOn_ret.
Qed.

Lemma runsOn_imapM {A B : Type} (f : nat -> A -> M B) (F : nat -> A -> Res B)
    l h :
  (forall i x, l !! i = Some x -> runsOn (f i x) h (F i x)) ->
  runsOn (imapM f l) h (imapM F l).
Proof.
  intros H. unfold imapM.
  apply (runsOn_mapM _ (fun p : nat * A => F p.1 p.2)).
  intros [i x] [j Hz]%list_elem_of_lookup.
  apply lookup_zip_with_Some in Hz as (i' & x' & [= <- <-] & Hi & Hx).
  apply lookup_seq in Hi as [-> _]. cbn. by apply H.
Qed.

Lemma runsOn_filterM {A : Type} (f : A -> M bool) (p : A -> bool) l h :
  (forall x, x ∈ l -> runsOn (f x) h (Ok (p x))) ->
  runsOn (filterM f l) h (Ok (List.filter p l)).
Proof.
  induction l as [|x l IH]; intros H; [apply runsOn_ret|].
  cbn [filterM List.filter].
  apply (runsOn_bind _ _ _ (p x)); [apply H, list_elem_of_here|].
  apply (runsOn_bind _ _ _ (List.filter p l)).
  - apply IH. intros x' Hx'. by apply H, list_elem_of_further.
  - destruct (p x); apply runsOn_ret.
Qed.

(** *** References *)

Lemma ofTime_getTime d : ofTime (getTime d) = d.
Proof. by destruct d. Qed.

Lemma getTime_ofTime n : getTime (ofTime n) = n.
Proof. by destruct n. Qed.

Lemma deref_app h n r : (r < length h)%nat -> deref (h ++ n) r = deref h r.
Proof. intros Hr. unfold deref. by rewrite lookup_app_l. Qed.

Lemma deref_new (h : Heap) x n : deref (h ++ x :: n) (length h) = ofTime x.
Proof. unfold deref. by rewrite list_lookup_middle. Qed.

Lemma insert_new (h : Heap) x n v :
  <[length h := v]> (h ++ x :: n) = h ++ v :: n.
Proof. by rewrite insert_app_r_alt, Nat.sub_diag. Qed.

Lemma derefEvent_app h n o :
  (obj_start o < length h)%nat -> (obj_end o < length h)%nat ->
  derefEvent (h ++ n) o = derefEvent h o.
Proof. intros Hs He. unfold derefEvent. by rewrite !deref_app. Qed.

(** *** The functions of [date-fns] on the store *)

Section Functions.
Context {tz : TimeZone}.

Ltac alloc_lt := rewrite ?length_app, ?length_insert; cbn [length]; lia.

Ltac run_store :=
  unfold getTimeM, getFullYearM, getMonthM, getDateM, getDayM, setDateM,
    setFullYearM, setHoursM, setTimeM, toDateM, read, write, newDate, lift;
  unfold mbind, M_bind, mret, M_ret; cbn beta iota;
  repeat (first [ rewrite deref_new
                | rewrite deref_app by alloc_lt
                | rewrite insert_new
                | rewrite ofTime_getTime
                | rewrite getTime_ofTime ];
          cbn beta iota).

Lemma toDateM_run g r :
  toDateM r g = (g ++ [getTime (deref g r)], Ok (length g)).
Proof. done. Qed.

Lemma startOfDayM_run g r :
  startOfDayM r g = (g ++ [getTime (startOfDay (deref g r))], Ok (length g)).
Proof. unfold startOfDayM. run_store. done. Qed.

Lemma startOfMonthM_run g r :
  startOfMonthM r g
  = (g ++ [getTime (startOfMonth (deref g r))], Ok (length g)).
Proof. unfold startOfMonthM. run_store. done. Qed.

Lemma endOfMonthM_run g r :
  endOfMonthM r g = (g ++ [getTime (endOfMonth (deref g r))], Ok (length g)).
Proof. unfold endOfMonthM. run_store. done. Qed.

Lemma startOfWeekM_run g r options :
  startOfWeekM r options g
  = (g ++ [getTime (startOfWeek (deref g r) options)], Ok (length g)).
Proof. unfold startOfWeekM. run_store. done. Qed.

Lemma endOfWeekM_run g r options :
  endOfWeekM r options g
  = (g ++ [getTime (endOfWeek (deref g r) options)], Ok (length g)).
Proof. unfold endOfWeekM. run_store. done. Qed.

Lemma addMinutesM_run g r amount :
  addMinutesM r amount g
  = (g ++ [getTime (addMinutes (deref g r) amount)], Ok (length g)).
Proof.
  unfold addMinutesM. run_store. unfold addMinutes, toDate.
  by rewrite getTime_ofTime.
Qed.

Lemma formatM_run g r formatStr :
  formatM r formatStr g
  = (g ++ [getTime (deref g r)], format (deref g r) formatStr).
Proof. unfold formatM. run_store. done. Qed.

Lemma toISOStringM_run g r : toISOStringM r g = (g, toISOString (deref g r)).
Proof. done. Qed.

Lemma isSameMonthM_run g l r :
  (l < length g)%nat -> (r < length g)%nat ->
  runs (isSameMonthM l r) g (Ok (isSameMonth (deref g l) (deref g r))).
Proof.
  intros Hl Hr. eexists. unfold isSameMonthM. run_store.
  by rewrite <- app_assoc.
Qed.

Lemma isSameDayM_run g l r :
  (l < length g)%nat -> (r < length g)%nat ->
  runs (isSameDayM l r) g (Ok (isSameDay (deref g l) (deref g r))).
Proof.
  intros Hl Hr. eexists. unfold isSameDayM. run_store.
  rewrite startOfDayM_run. run_store. rewrite startOfDayM_run. run_store.
  unfold isSameDay. by rewrite <- !app_assoc.
Qed.

Lemma isTodayM_run g now r :
  (r < length g)%nat ->
  runs (isTodayM now r) g (Ok (isToday now (deref g r))).
Proof.
  intros Hr. unfold isTodayM, isToday. run_store.
  destruct (isSameDayM_run ((g ++ [getTime (deref g r)]) ++ [Int now])
              (length g) (length (g ++ [getTime (deref g r)])))
    as [new E]; [alloc_lt..|].
  exists ([getTime (deref g r)] ++ [Int now] ++ new).
  cbn [getTime]. rewrite E. run_store. by rewrite <- !app_assoc.
Qed.

Lemma differenceInMinutesM_run g l r :
  (l < length g)%nat -> (r < length g)%nat ->
  runs (differenceInMinutesM l r) g
    (Ok (differenceInMinutes (deref g l) (deref g r))).
Proof.
  intros Hl Hr. eexists. unfold differenceInMinutesM. run_store.
  by rewrite <- app_assoc.
Qed.

Lemma deref_seq (a : Heap) (L : list Date) :
  deref (a ++ (getTime <$> L)) <$> seq (length a) (length L) = L.
Proof.
  apply list_eq. intros i. rewrite list_lookup_fmap.
  destruct (L !! i) as [d|] eqn:Hd.
  - rewrite lookup_seq_lt by (by apply lookup_lt_Some in Hd). cbn.
    unfold deref. rewrite lookup_app_r by lia.
    replace (length a + i - length a)%nat with i by lia.
    by rewrite list_lookup_fmap, Hd; cbn; rewrite ofTime_getTime.
  - rewrite lookup_seq_ge; [done|]. by apply lookup_ge_None in Hd.
Qed.

Lemma deref_insert (g : Heap) r v :
  (r < length g)%nat -> deref (<[r := v]> g) r = ofTime v.
Proof. intros Hr. unfold deref. by rewrite list_lookup_insert_eq. Qed.

Lemma insert_deref (g : Heap) r :
  (r < length g)%nat -> <[r := default NaN (g !! r)]> g = g.
Proof.
  intros Hr. destruct (lookup_lt_is_Some_2 g r Hr) as [x Hx].
  by rewrite Hx, list_insert_id.
Qed.

(** The loop of [eachDayOfInterval] overwrites only [date] and allocates
    the dates it returns. *)
Lemma eachDayLoopM_run fuel g date endTime :
  (date < length g)%nat ->
  let L := eachDayLoop fuel (deref g date) endTime in
  exists v,
    eachDayLoopM fuel date endTime g
    = (<[date := v]> g ++ (getTime <$> L), Ok (seq (length g) (length L))).
Proof.
  revert g. induction fuel as [|fuel IH]; intros g Hd L.
  - exists (default NaN (g !! date)). cbn. by rewrite app_nil_r, insert_deref.
  - unfold L. cbn [eachDayLoopM eachDayLoop]. run_store.
    destruct (getTime (deref g date) <=? endTime)%num.
    + run_store. rewrite !insert_app_l by alloc_lt.
      rewrite deref_app by alloc_lt. rewrite deref_insert by done.
      rewrite ofTime_getTime, list_insert_insert_eq.
      set (next := setHours (setDate (deref g date)
                               (getDate (deref g date) + 1)%num) 0 0 0 0).
      destruct (IH (<[date := getTime next]> g ++ [getTime (deref g date)]))
        as [v E]; [alloc_lt|].
      rewrite deref_app, deref_insert, ofTime_getTime in E by alloc_lt.
      exists v. rewrite E.
      rewrite insert_app_l, list_insert_insert_eq by alloc_lt.
      rewrite length_app, length_insert, <- app_assoc. unfold toDate.
      cbn [fmap list_fmap length seq app].
      by replace (length g + 1)%nat with (S (length g)) by lia.
    + exists (default NaN (g !! date)). cbn. by rewrite app_nil_r, insert_deref.
Qed.

Lemma eachDayOfIntervalM_run g s e :
  (s < length g)%nat -> (e < length g)%nat ->
  exists new refs,
    eachDayOfIntervalM s e g = (g ++ new, Ok refs)
    /\ Forall (fun r => (r < length (g ++ new))%nat) refs
    /\ deref (g ++ new) <$> refs = eachDayOfInterval (deref g s) (deref g e).
Proof.
  intros Hs He. unfold eachDayOfIntervalM, eachDayOfInterval, toDate.
  run_store.
  set (reversed := (getTime (deref g s) >? getTime (deref g e))%num).
  set (endTime := if reversed then getTime (deref g s) else getTime (deref g e)).
  set (g2 := (g ++ [getTime (deref g s)]) ++ [getTime (deref g e)]).
  set (date := if reversed then length (g ++ [getTime (deref g s)])
               else length g).
  assert (Hdate : (length g <= date < length g2)%nat).
  { unfold date, g2. destruct reversed; alloc_lt. }
  assert (Hval : deref g2 date
                 = if reversed then deref g e else deref g s).
  { unfold date, g2. destruct reversed; by run_store. }
  rewrite Hval.
  set (first := setHours (if reversed then deref g e else deref g s) 0 0 0 0).
  destruct (eachDayLoopM_run (eachDayFuel first endTime)
              (<[date := getTime first]> g2) date endTime) as [v E];
    [alloc_lt|].
  rewrite deref_insert, ofTime_getTime in E by lia.
  rewrite deref_insert, ofTime_getTime by lia. rewrite E.
  rewrite list_insert_insert_eq, length_insert.
  set (L := eachDayLoop (eachDayFuel first endTime) first endTime).
  assert (exists a b, <[date := v]> g2 = g ++ [a; b]) as (a & b & Hheap).
  { unfold g2, date. destruct reversed.
    - rewrite insert_new. eexists _, _. by rewrite <- app_assoc.
    - rewrite insert_app_l by alloc_lt. rewrite insert_new.
      eexists _, _. by rewrite <- app_assoc. }
  assert (Hlen : length g2 = length (<[date := v]> g2))
    by (by rewrite length_insert).
  exists ([a; b] ++ (getTime <$> L)).
  exists (if reversed then reverse (seq (length g2) (length L))
          else seq (length g2) (length L)).
  rewrite app_assoc, <- Hheap. split; [by destruct reversed|]. split.
  - assert (Forall (fun r => (r < length (<[date := v]> g2
                                             ++ (getTime <$> L)))%nat)
              (seq (length g2) (length L))) as Hall.
    { apply Forall_seq. intros j Hj. rewrite length_app, length_fmap, length_insert.
      lia. }
    destruct reversed; [by apply Forall_reverse|done].
  - rewrite Hlen.
    destruct reversed; [rewrite fmap_reverse|]; by rewrite deref_seq.
Qed.

(** *** The components on the store *)

Lemma read_on h r : (r < length h)%nat -> runsOn (read r) h (Ok (deref h r)).
Proof.
  intros Hr n. exists []. unfold read. by rewrite app_nil_r, deref_app.
Qed.

Lemma snapshot_on h o :
  (obj_start o < length h)%nat -> (obj_end o < length h)%nat ->
  runsOn (snapshot o) h (Ok (derefEvent h o)).
Proof.
  intros Hs He n. exists []. unfold snapshot.
  by rewrite app_nil_r, derefEvent_app.
Qed.

Lemma formatM_on h r formatStr :
  (r < length h)%nat ->
  runsOn (formatM r formatStr) h (format (deref h r) formatStr).
Proof.
  intros Hr n. eexists. by rewrite formatM_run, deref_app.
Qed.

Lemma toISOStringM_on h r :
  (r < length h)%nat -> runsOn (toISOStringM r) h (toISOString (deref h r)).
Proof.
  intros Hr n. exists []. by rewrite toISOStringM_run, app_nil_r, deref_app.
Qed.

Lemma isSameMonthM_on h l r :
  (l < length h)%nat -> (r < length h)%nat ->
  runsOn (isSameMonthM l r) h (Ok (isSameMonth (deref h l) (deref h r))).
Proof.
  intros Hl Hr n. rewrite <- (deref_app h n l), <- (deref_app h n r) by done.
  apply isSameMonthM_run; alloc_lt.
Qed.

Lemma isTodayM_on h now r :
  (r < length h)%nat ->
  runsOn (isTodayM now r) h (Ok (isToday now (deref h r))).
Proof.
  intros Hr n. rewrite <- (deref_app h n r) by done.
  apply isTodayM_run; alloc_lt.
Qed.

(** The test of [getEventsForDay] on an event object. *)
Lemma sameDay_on h o day :
  (obj_start o < length h)%nat -> (day < length h)%nat ->
  runsOn (eventStart ← toDateM (obj_start o); isSameDayM eventStart day) h
    (Ok (isSameDay (toDate (deref h (obj_start o))) (deref h day))).
Proof.
  intros Hs Hd n.
  destruct (isSameDayM_run ((h ++ n) ++ [getTime (deref (h ++ n) (obj_start o))])
              (length (h ++ n)) day) as [new E]; [alloc_lt..|].
  exists ([getTime (deref (h ++ n) (obj_start o))] ++ new).
  rewrite bind_unfold, toDateM_run. cbn beta iota.
  rewrite E. run_store. by rewrite <- app_assoc.
Qed.

Lemma filter_fmap {A B : Type} (p : B -> bool) (f : A -> B) (l : list A) :
  List.filter p (f <$> l) = f <$> List.filter (fun x => p (f x)) l.
Proof.
  induction l as [|x l IH]; cbn; [done|]. rewrite IH. by destruct (p (f x)).
Qed.

(** The event objects of a day stand for the events of the day. *)
Lemma getEventsForDayM_on h events day :
  Forall (fun o => (obj_start o < length h)%nat
                   /\ (obj_end o < length h)%nat) events ->
  (day < length h)%nat ->
  exists objs,
    runsOn (getEventsForDayM events day) h (Ok objs)
    /\ objs `sublist_of` events
    /\ derefEvent h <$> objs
       = CalendarGrid.getEventsForDay (derefEvent h <$> events) (deref h day).
Proof.
  intros Hev Hd.
  exists (List.filter
            (fun o => isSameDay (toDate (deref h (obj_start o))) (deref h day))
            events).
  split; [|split].
  - apply runsOn_filterM. intros o Ho.
    apply (proj1 (Forall_forall _ _) Hev) in Ho as [Hs _].
    by apply sameDay_on.
  - apply CalendarGridFacts.filter_sublist.
  - unfold CalendarGrid.getEventsForDay. by rewrite filter_fmap.
Qed.

Lemma eventPillM_on h o :
  (obj_start o < length h)%nat -> (obj_end o < length h)%nat ->
  runsOn (eventPillM o) h (CalendarGrid.eventPill (derefEvent h o)).
Proof.
  intros Hs He. unfold eventPillM, CalendarGrid.eventPill.
  apply runsOn_bind_res; [by apply formatM_on|]. intros time _.
  apply (runsOn_bind _ _ _ (derefEvent h o)); [by apply snapshot_on|].
  apply runsOn_ret.
Qed.

Lemma dayCellM_on h cur events now i day :
  allocated h cur events -> (day < length h)%nat ->
  runsOn (dayCellM cur events now i day) h
    (CalendarGrid.dayCell (deref h cur) (derefEvent h <$> events) now i
       (deref h day)).
Proof.
  intros [Hc Hev] Hd. unfold dayCellM, CalendarGrid.dayCell.
  destruct (getEventsForDayM_on h events day Hev Hd) as (objs & Hrun & Hsub & Hobjs).
  rewrite <- Hobjs.
  apply (runsOn_bind _ _ _ objs); [done|].
  apply (runsOn_bind _ _ _ (isSameMonth (deref h day) (deref h cur)));
    [by apply isSameMonthM_on|].
  apply (runsOn_bind _ _ _ (isToday (now i) (deref h day)));
    [by apply isTodayM_on|].
  apply runsOn_bind_res; [by apply formatM_on|]. intros number _.
  rewrite <- fmap_take, mapM_fmap, length_fmap.
  apply runsOn_bind_res.
  - apply runsOn_mapM. intros o Ho.
    apply elem_of_take in Ho as (k & Ho%list_elem_of_lookup_2 & _).
    assert (o ∈ events) as Hin by (by eapply elem_of_sublist).
    apply (proj1 (Forall_forall _ _) Hev) in Hin as [Hs He].
    by apply eventPillM_on.
  - intros pills _. apply (runsOn_bind _ _ _ (deref h day)); [by apply read_on|].
    apply runsOn_ret.
Qed.

Lemma runs_bind_res {A B : Type} (m : M A) (k : A -> M B) g
    (r : Res A) (f : A -> Res B) :
  runs m g r ->
  (forall a new, m g = (g ++ new, Ok a) -> runs (k a) (g ++ new) (f a)) ->
  runs (m ≫= k) g (r ≫= f).
Proof.
  intros [new E] Hk. destruct r as [a|e]; cbn.
  - apply (runs_bind E). by apply Hk.
  - exists new. by rewrite (bind_throw _ _ _ _ _ E).
Qed.

Lemma allocated_app h n cur events :
  allocated h cur events -> allocated (h ++ n) cur events.
Proof.
  intros [Hc Hev]. split; [alloc_lt|].
  eapply Forall_impl; [done|]. intros o [Hs He]. cbn. split; alloc_lt.
Qed.

Lemma derefEvents_app h n cur events :
  allocated h cur events ->
  derefEvent (h ++ n) <$> events = derefEvent h <$> events.
Proof.
  intros [_ Hev]. apply Forall_fmap_ext_1. eapply Forall_impl; [done|].
  intros o [Hs He]. by apply derefEvent_app.
Qed.

(** The month view on the store extends the store and is the month view
    of the values of its arguments. *)
Lemma CalendarGridM_run h cur events now :
  allocated h cur events ->
  runs (CalendarGridM cur events now) h
    (CalendarGrid.CalendarGrid (deref h cur) (derefEvent h <$> events) now).
Proof.
  intros Halloc. pose proof Halloc as [Hc Hev].
  unfold CalendarGridM, CalendarGrid.CalendarGrid.
  apply (runs_bind (startOfMonthM_run h cur)).
  apply (runs_bind (endOfMonthM_run _ cur)).
  apply (runs_bind (startOfWeekM_run _ (length h) None)).
  apply (runs_bind (endOfWeekM_run _ (length (h ++ [_])) None)).
  run_store.
  set (h4 := (((h ++ [_]) ++ [_]) ++ [_]) ++ [_]).
  destruct (eachDayOfIntervalM_run h4 (length ((h ++ [getTime (startOfMonth (deref h cur))])
                 ++ [getTime (endOfMonth (deref h cur))]))
              (length (((h ++ [getTime (startOfMonth (deref h cur))])
                 ++ [getTime (endOfMonth (deref h cur))])
                 ++ [getTime (startOfWeek (startOfMonth (deref h cur)) None)])))
    as (new & refs & E & Hall & Hrefs); [unfold h4; alloc_lt..|].
  apply (runs_bind E).
  assert (Hdays : deref (h4 ++ new) <$> refs = CalendarGrid.days (deref h cur)).
  { rewrite Hrefs. unfold h4, CalendarGrid.days. by run_store. }
  assert (Halloc5 : allocated (h4 ++ new) cur events).
  { unfold h4. rewrite <- !app_assoc. by apply allocated_app. }
  rewrite <- Hdays, imapM_fmap.
  assert (Hev5 : derefEvent (h4 ++ new) <$> events = derefEvent h <$> events).
  { unfold h4. rewrite <- !app_assoc. by eapply derefEvents_app. }
  assert (Hcur5 : deref (h4 ++ new) cur = deref h cur).
  { unfold h4. rewrite <- !app_assoc. by apply deref_app. }
  rewrite <- Hev5, <- Hcur5.
  apply runs_bind_res.
  - apply runsOn_runs, runsOn_imapM. intros i r Hr.
    apply dayCellM_on; [done|].
    apply (proj1 (Forall_forall _ _) Hall). by eapply list_elem_of_lookup_2.
  - intros cells new' _. exists []. by rewrite app_nil_r.
Qed.

Lemma getEventPositionM_on h o :
  (obj_start o < length h)%nat -> (obj_end o < length h)%nat ->
  runsOn (getEventPositionM o) h
    (Ok (CalendarWeekView.getEventPosition (derefEvent h o))).
Proof.
  intros Hs He n. unfold getEventPositionM.
  apply (runs_bind (startOfDayM_run _ (obj_start o))).
  destruct (differenceInMinutesM_run
              ((h ++ n) ++ [getTime (startOfDay (deref (h ++ n) (obj_start o)))])
              (obj_start o) (length (h ++ n))) as [new1 E1]; [alloc_lt..|].
  apply (runs_bind E1).
  destruct (differenceInMinutesM_run
              (((h ++ n) ++ [getTime (startOfDay (deref (h ++ n) (obj_start o)))])
               ++ new1) (obj_end o) (obj_start o)) as [new2 E2]; [alloc_lt..|].
  apply (runs_bind E2). exists []. rewrite app_nil_r.
  unfold CalendarWeekView.getEventPosition, derefEvent. cbn [start end_].
  by run_store.
Qed.

Lemma eventBlockM_on h o :
  (obj_start o < length h)%nat -> (obj_end o < length h)%nat ->
  runsOn (eventBlockM o) h (CalendarWeekView.eventBlock (derefEvent h o)).
Proof.
  intros Hs He. unfold eventBlockM, CalendarWeekView.eventBlock.
  apply (runsOn_bind _ _ _ _ _ (getEventPositionM_on h o Hs He)).
  destruct (CalendarWeekView.getEventPosition (derefEvent h o)) as [top height].
  apply runsOn_bind_res; [by apply formatM_on|]. intros time _.
  apply (runsOn_bind _ _ _ (derefEvent h o)); [by apply snapshot_on|].
  apply runsOn_ret.
Qed.

Lemma dayColumnM_on h cur events now i day :
  allocated h cur events -> (day < length h)%nat ->
  runsOn (dayColumnM events now i day) h
    (CalendarWeekView.dayColumn (derefEvent h <$> events) now i (deref h day)).
Proof.
  intros [Hc Hev] Hd. unfold dayColumnM, CalendarWeekView.dayColumn.
  destruct (getEventsForDayM_on h events day Hev Hd) as (objs & Hrun & Hsub & Hobjs).
  change (CalendarWeekView.getEventsForDay ?l ?d)
    with (CalendarGrid.getEventsForDay l d).
  rewrite <- Hobjs.
  apply (runsOn_bind _ _ _ objs); [done|].
  apply (runsOn_bind _ _ _ (isToday (now i) (deref h day)));
    [by apply isTodayM_on|].
  apply runsOn_bind_res; [by apply toISOStringM_on|]. intros key _.
  apply runsOn_bind_res; [by apply formatM_on|]. intros name _.
  apply runsOn_bind_res; [by apply formatM_on|]. intros number _.
  rewrite mapM_fmap. apply runsOn_bind_res.
  - apply runsOn_mapM. intros o Ho.
    assert (o ∈ events) as Hin by (by eapply elem_of_sublist).
    apply (proj1 (Forall_forall _ _) Hev) in Hin as [Hs He].
    by apply eventBlockM_on.
  - intros blocks _. apply (runsOn_bind _ _ _ (deref h day)); [by apply read_on|].
    apply runsOn_ret.
Qed.

Lemma hourLabelM_on h cur hour :
  (cur < length h)%nat ->
  runsOn (hourLabelM cur hour) h
    (format (addMinutes (startOfDay (deref h cur)) (hour * 60)) fmt_ha).
Proof.
  intros Hc n. unfold hourLabelM.
  apply (runs_bind (startOfDayM_run _ cur)).
  apply (runs_bind (addMinutesM_run _ (length (h ++ n)) (hour * 60))).
  eexists. rewrite formatM_run. by run_store.
Qed.

(** The week view on the store extends the store and is the week view of
    the values of its arguments. *)
Lemma CalendarWeekViewM_run h cur events now :
  allocated h cur events ->
  runs (CalendarWeekViewM cur events now) h
    (CalendarWeekView.CalendarWeekView (deref h cur) (derefEvent h <$> events)
       now).
Proof.
  intros Halloc. pose proof Halloc as [Hc Hev].
  unfold CalendarWeekViewM, CalendarWeekView.CalendarWeekView.
  apply (runs_bind (startOfWeekM_run h cur None)).
  apply (runs_bind (endOfWeekM_run _ cur None)).
  run_store.
  set (h2 := (h ++ [_]) ++ [_]).
  destruct (eachDayOfIntervalM_run h2 (length h)
              (length (h ++ [getTime (startOfWeek (deref h cur) None)])))
    as (new & refs & E & Hall & Hrefs); [unfold h2; alloc_lt..|].
  apply (runs_bind E).
  assert (Hdays : deref (h2 ++ new) <$> refs = CalendarWeekView.days (deref h cur)).
  { rewrite Hrefs. unfold h2, CalendarWeekView.days. by run_store. }
  assert (Halloc5 : allocated (h2 ++ new) cur events).
  { unfold h2. rewrite <- !app_assoc. by apply allocated_app. }
  assert (Hev5 : derefEvent (h2 ++ new) <$> events = derefEvent h <$> events).
  { unfold h2. rewrite <- !app_assoc. by eapply derefEvents_app. }
  assert (Hcur5 : deref (h2 ++ new) cur = deref h cur).
  { unfold h2. rewrite <- !app_assoc. by apply deref_app. }
  rewrite <- Hdays, imapM_fmap, <- Hev5, <- Hcur5.
  apply runsOn_runs. apply runsOn_bind_res.
  - apply runsOn_mapM. intros hour _. apply hourLabelM_on, Halloc5.
  - intros labels _. apply runsOn_bind_res.
    + apply runsOn_imapM. intros i r Hr.
      apply (dayColumnM_on _ cur); [done|].
      apply (proj1 (Forall_forall _ _) Hall). by eapply list_elem_of_lookup_2.
    + intros cols _. apply runsOn_ret.
Qed.

Lemma contentM_run view h cur events now :
  allocated h cur events ->
  runs (contentM view cur events now) h
    (CalendarView.content view (deref h cur) (derefEvent h <$> events) now).
Proof.
  intros Halloc. destruct view; cbn [contentM CalendarView.content].
  - apply runs_bind_res; [by apply CalendarGridM_run|].
    intros g new _. exists []. by rewrite app_nil_r.
  - apply runs_bind_res; [by apply CalendarWeekViewM_run|].
    intros g new _. exists []. by rewrite app_nil_r.
Qed.

(** *** The clock *)

Lemma isToday_same_day n n' day :
  localDay n = localDay n' -> isToday n day = isToday n' day.
Proof.
  intros Hn. unfold isToday. destruct day as [|d]; [done|].
  by rewrite !isSameDay_Valid, Hn.
Qed.

(** The views depend on the readings of the clock only through the local
    days on which they fall. *)
Lemma content_same_days view cur events now now' :
  (forall i, localDay (now i) = localDay (now' i)) ->
  CalendarView.content view cur events now
  = CalendarView.content view cur events now'.
Proof.
  intros Hnow. destruct view; cbn [CalendarView.content]; f_equal.
  - unfold CalendarGrid.CalendarGrid. f_equal. apply imapM_ext. intros i day.
    unfold CalendarGrid.dayCell. by rewrite (isToday_same_day _ _ _ (Hnow i)).
  - unfold CalendarWeekView.CalendarWeekView.
    destruct (mapM _ CalendarWeekView.hours) as [labels|error]; [|done].
    cbn. f_equal. apply imapM_ext. intros i day.
    unfold CalendarWeekView.dayColumn.
    by rewrite (isToday_same_day _ _ _ (Hnow i)).
Qed.

(** C7, as the code has it: the layout is a function of its inputs (events,
    current date, view mode) and of the readings of the clock that
    [isToday] takes, one for each day shown.  Run on a store that holds
    the current date and the dates of the events, it only allocates: every
    object of the store keeps its value, so that the current date and the
    events are what they were, and its result is that of the function of
    the values.  Two runs on identical inputs have identical results when
    the readings of the clock fall on the same local days. *)
Theorem layout_store view h cur events now now' :
  allocated h cur events ->
  (forall i, localDay (now i) = localDay (now' i)) ->
  exists h1 h2 out,
    contentM view cur events now h = (h1, out)
    /\ contentM view cur events now' h = (h2, out)
    /\ out = CalendarView.content view (deref h cur) (derefEvent h <$> events)
               now
    /\ (forall r, (r < length h)%nat -> h1 !! r = h !! r /\ h2 !! r = h !! r)
    /\ (deref h1 cur = deref h cur /\ deref h2 cur = deref h cur)
    /\ (derefEvent h1 <$> events = derefEvent h <$> events
        /\ derefEvent h2 <$> events = derefEvent h <$> events).
Proof.
  intros Halloc Hnow.
  destruct (contentM_run view h cur events now Halloc) as [new E].
  destruct (contentM_run view h cur events now' Halloc) as [new' E'].
  rewrite <- (content_same_days view _ _ now now' Hnow) in E'.
  exists (h ++ new), (h ++ new').
  exists (CalendarView.content view (deref h cur) (derefEvent h <$> events) now).
  split; [done|]. split; [done|].
  split; [done|]. pose proof Halloc as [Hc _]. split; [|split].
  - intros r Hr. by rewrite !lookup_app_l.
  - by rewrite !deref_app.
  - split; by eapply derefEvents_app.
Qed.

End Functions.

(** The scenario of C7: two runs of the week view while the clock moves
    from 9:00 to 10:00 on the 3rd of November 2025. *)
Lemma layout_store_witness :
  (allocated Examples.store0 0 [Examples.midtermObj]
   /\ forall i : nat,
        localDay (tz := Examples.utc) (Examples.clock i)
        = localDay (tz := Examples.utc) (Examples.at_utc 2025 10 3 10 0))
  /\ exists h1 h2 out,
       contentM (tz := Examples.utc) week 0 [Examples.midtermObj] Examples.clock Examples.store0
       = (h1, out)
       /\ contentM (tz := Examples.utc) week 0 [Examples.midtermObj]
            (fun _ => Examples.at_utc 2025 10 3 10 0) Examples.store0
          = (h2, out)
       /\ out = CalendarView.content (tz := Examples.utc) week
                  (Valid (Examples.at_utc 2025 2 12 0 0)) [Examples.midterm1]
                  Examples.clock
       /\ take 3 h1 = Examples.store0 /\ take 3 h2 = Examples.store0.
Proof.
  assert (Halloc : allocated Examples.store0 0 [Examples.midtermObj]).
  { split; [cbn; lia|]. repeat constructor; cbn; lia. }
  assert (Hnow : forall i : nat,
             localDay (tz := Examples.utc) (Examples.clock i)
             = localDay (tz := Examples.utc) (Examples.at_utc 2025 10 3 10 0))
    by (intros i; reflexivity).
  split; [done|].
  destruct (layout_store (tz := Examples.utc) week Examples.store0 0 [Examples.midtermObj]
              Examples.clock (fun _ => Examples.at_utc 2025 10 3 10 0)
              Halloc Hnow)
    as (h1 & h2 & out & E1 & E2 & Hout & Hkeep & _).
  exists h1, h2, out. split; [done|]. split; [done|]. split; [exact Hout|].
  assert (Hlen : forall h' : Heap,
            (forall r, (r < 3)%nat -> h' !! r = Examples.store0 !! r) ->
            take 3 h' = Examples.store0).
  { intros h' H. apply list_eq. intros r.
    destruct (Nat.lt_ge_cases r 3) as [Hr|Hr].
    - rewrite lookup_take_lt by done. by apply H.
    - rewrite lookup_take_ge by done. symmetry. by apply lookup_ge_None. }
  split; apply Hlen; intros r Hr; by apply Hkeep.
Defined.

End StoreFacts.

(** ** The container and the clock *)

Module CalendarViewFacts.
Import JSDate Calendar.

(** C7 is false as stated: the result depends on the clock.  With the same
    events, current date and view mode, the month view built on the 10th of
    March 2025 flags the cell of the 10th as today, and the month view
    built a day later does not. *)
Lemma content_depends_on_clock :
  CalendarView.content (tz := Examples.utc) month
    (Valid (Examples.at_utc 2025 2 1 0 0)) [Examples.midterm1]
    (fun _ => Examples.at_utc 2025 2 10 9 0)
  = Ok (CalendarView.MonthContent Examples.march_on_10th)
  /\ CalendarView.content (tz := Examples.utc) month
       (Valid (Examples.at_utc 2025 2 1 0 0)) [Examples.midterm1]
       (fun _ => Examples.at_utc 2025 2 11 9 0)
     = Ok (CalendarView.MonthContent Examples.march_on_11th)
  /\ Examples.march_on_10th <> Examples.march_on_11th
  /\ CalendarGrid.isCurrentDay
       <$> CalendarGrid.body Examples.march_on_10th !! 15%nat = Some true
  /\ CalendarGrid.isCurrentDay
       <$> CalendarGrid.body Examples.march_on_11th !! 15%nat = Some false.
Proof.
  split; [vm_compute; reflexivity|]. split; [vm_compute; reflexivity|].
  assert (H10 : CalendarGrid.isCurrentDay
                  <$> CalendarGrid.body Examples.march_on_10th !! 15%nat
                = Some true) by (vm_compute; reflexivity).
  assert (H11 : CalendarGrid.isCurrentDay
                  <$> CalendarGrid.body Examples.march_on_11th !! 15%nat
                = Some false) by (vm_compute; reflexivity).
  split; [|done]. intros Heq. rewrite Heq, H11 in H10. discriminate H10.
Qed.

End CalendarViewFacts.

(** ** Navigation: [addWeeks], [addMonths] and the handlers *)

Module NavigationFacts.
Import ES ESFacts JSDate DateFns DateFnsFacts Navigation.

(** The month of [MakeDay] carries into the year. *)
Lemma MakeDay_carry y M d :
  MakeDay y M d = MakeDay (y + M / 12) (M mod 12) d.
Proof.
  unfold MakeDay.
  replace (y + M / 12 + M mod 12 / 12) with (y + M / 12) by divmod.
  by rewrite Z.mod_mod.
Qed.

Lemma MakeDay_succ_carry y M d :
  MakeDay y (M + 1) d = MakeDay (y + M / 12) (M mod 12 + 1) d.
Proof.
  unfold MakeDay.
  replace (y + M / 12 + (M mod 12 + 1) / 12) with (y + (M + 1) / 12) by divmod.
  replace ((M mod 12 + 1) mod 12) with ((M + 1) mod 12) by divmod.
  done.
Qed.

Lemma lengthOfMonth_range y M : 28 <= lengthOfMonth y M <= 31.
Proof.
  apply monthLength_range. destruct (leapOfYear_cases (y + M / 12)); lia.
Qed.

Lemma MakeDay_next y M :
  MakeDay y (M + 1) 1 = MakeDay y M 1 + lengthOfMonth y M.
Proof.
  rewrite MakeDay_succ_carry, (MakeDay_carry y M).
  apply MakeDay_next_month. divmod.
Qed.

(** The fields of a time value on day [d] of a month. *)
Lemma fields_MakeDay y M d time :
  1 <= d <= lengthOfMonth y M -> 0 <= time < msPerDay ->
  let t := MakeDate (MakeDay y M d) time in
  YearFromTime t = y + M / 12 /\ MonthFromTime t = M mod 12
  /\ DateFromTime t = d /\ TimeWithinDay t = time.
Proof.
  intros Hd Htime t.
  assert (HD : Day t = MakeDay y M d) by by apply Day_MakeDate.
  assert (Hm : 0 <= M mod 12 <= 11) by divmod.
  assert (Hym : YearFromTime t = y + M / 12 /\ MonthFromTime t = M mod 12).
  { apply month_interval; [done|].
    rewrite <- MakeDay_succ_carry, <- MakeDay_carry, MakeDay_next, HD.
    replace d with (1 + (d - 1)) by lia. rewrite MakeDay_date. lia. }
  destruct Hym as [Hy Hmn]. split; [done|]. split; [done|]. split.
  - pose proof (MakeDay_fields t) as HF. rewrite Hy, Hmn, HD in HF.
    rewrite (MakeDay_carry y M d) in HF. revert HF. unfold MakeDay. lia.
  - by apply TimeWithinDay_MakeDate.
Qed.

Section Facts.
Context {tz : TimeZone}.

Lemma UTC_LocalTime x : UTC (LocalTime x) = x.
Proof. unfold UTC, LocalTime. lia. Qed.

Lemma addDays_Valid t n : addDays (Valid t) n = Valid (t + n * msPerDay).
Proof.
  unfold addDays, toDate. destruct (Z.eqb_spec n 0) as [->|Hn].
  - f_equal. lia.
  - cbn [getDate getter JSNum.add JSNum.lift2]. rewrite setDate_Valid.
    f_equal. unfold localDay.
    pose proof (MakeDate_Day (LocalTime t)) as H. revert H.
    unfold MakeDate, UTC, LocalTime. lia.
Qed.

Lemma addWeeks_Valid t n :
  addWeeks (Valid t) n = Valid (t + n * (7 * msPerDay)).
Proof. unfold addWeeks. rewrite addDays_Valid. f_equal. lia. Qed.

Lemma localDay_add_days t n : localDay (t + n * msPerDay) = localDay t + n.
Proof. unfold localDay, LocalTime, Day, msPerDay. divmod. Qed.

Lemma dayOfWeek_add_week X n : dayOfWeek (X + n * 7) = dayOfWeek X.
Proof. unfold dayOfWeek. divmod. Qed.

(** The year and the month of the time value, the month moved by
    [amount]; the day of the month of it is kept unless the month is too
    short. *)
Lemma addMonths_Valid t amount :
  let lt := LocalTime t in
  let y := YearFromTime lt in
  let M := MonthFromTime lt + amount in
  addMonths (Valid t) amount
  = Valid (UTC (MakeDate
                  (MakeDay y M (Z.min (DateFromTime lt) (lengthOfMonth y M)))
                  (TimeWithinDay lt))).
Proof.
  intros lt y M. unfold addMonths, toDate.
  pose proof (DateFromTime_range lt) as Hd.
  pose proof (TimeWithinDay_range lt) as Htwd.
  destruct (Z.eqb_spec amount 0) as [->|Hn].
  - f_equal. subst M. rewrite Z.add_0_r.
    assert (Hl : lengthOfMonth y (MonthFromTime lt)
                 = monthLength (MonthFromTime lt) (InLeapYear lt)).
    { unfold lengthOfMonth, y, InLeapYear.
      pose proof (MonthFromTime_range lt).
      rewrite Z.mod_small, Z.div_small, Z.add_0_r by lia. done. }
    rewrite Hl, Z.min_l by lia. unfold y. rewrite MakeDay_fields.
    rewrite MakeDate_Day. apply eq_sym, UTC_LocalTime.
  - cbn [getTime ofTime getDate getMonth getFullYear getter JSNum.add
         JSNum.lift2 setMonth].
    fold lt. fold y. replace (MonthFromTime lt + amount + 1) with (M + 1)
      by (unfold M; lia).
    rewrite LocalTime_UTC.
    pose proof (lengthOfMonth_range y M) as Hlen.
    assert (HE : MakeDay y (M + 1) 0 = MakeDay y M (lengthOfMonth y M)).
    { replace 0 with (1 + -1) at 1 by done.
      replace (lengthOfMonth y M) with (1 + (lengthOfMonth y M - 1)) at 1
        by lia.
      rewrite !MakeDay_date, MakeDay_next. lia. }
    rewrite HE.
    destruct (fields_MakeDay y M (lengthOfMonth y M) (TimeWithinDay lt))
      as (Hy' & Hm' & Hd' & _); [lia|done|].
    rewrite Hd'. cbn [JSNum.leb].
    destruct (Z.leb_spec (lengthOfMonth y M) (DateFromTime lt)).
    + by rewrite Z.min_r by lia.
    + rewrite Z.min_l by lia. rewrite Hy', Hm'. cbn [setFullYear]. fold lt.
      by rewrite <- MakeDay_carry.
Qed.

(** The fields of the local time of the result of [addMonths]. *)
Lemma addMonths_fields t amount :
  let lt := LocalTime t in
  let y := YearFromTime lt in
  let M := MonthFromTime lt + amount in
  exists t',
    addMonths (Valid t) amount = Valid t'
    /\ YearFromTime (LocalTime t') = y + M / 12
    /\ MonthFromTime (LocalTime t') = M mod 12
    /\ DateFromTime (LocalTime t')
       = Z.min (DateFromTime lt) (lengthOfMonth y M)
    /\ TimeWithinDay (LocalTime t') = TimeWithinDay lt.
Proof.
  intros lt y M. eexists. split; [apply addMonths_Valid|].
  rewrite LocalTime_UTC. fold lt y M.
  pose proof (DateFromTime_range lt). pose proof (lengthOfMonth_range y M).
  apply fields_MakeDay; [lia|apply TimeWithinDay_range].
Qed.

End Facts.
(** Year and month as one number: the month [12 * y + M] of year 0. *)
Lemma MakeDay_index y M d : MakeDay y M d = MakeDay 0 (12 * y + M) d.
Proof.
  unfold MakeDay.
  replace (0 + (12 * y + M) / 12) with (y + M / 12) by divmod.
  replace ((12 * y + M) mod 12) with (M mod 12) by divmod. done.
Qed.

Lemma lengthOfMonth_index y M : lengthOfMonth y M = lengthOfMonth 0 (12 * y + M).
Proof.
  unfold lengthOfMonth.
  replace (0 + (12 * y + M) / 12) with (y + M / 12) by divmod.
  replace ((12 * y + M) mod 12) with (M mod 12) by divmod. done.
Qed.

Section Handlers.
Context {tz : TimeZone}.

Lemma monthFirst_index t : monthFirst t = MakeDay 0 (monthIndex t) 1.
Proof. unfold monthFirst. by rewrite MakeDay_index. Qed.

Lemma monthLast_index t : monthLast t = MakeDay 0 (monthIndex t + 1) 1 - 1.
Proof.
  unfold monthLast. rewrite MakeDay_index. by rewrite Z.add_assoc.
Qed.

Lemma month_length_index t :
  monthLast t - monthFirst t + 1 = lengthOfMonth 0 (monthIndex t).
Proof. rewrite monthLast_index, monthFirst_index, MakeDay_next. lia. Qed.

(** [addMonths] by the number of the month. *)
Lemma addMonths_index t amount :
  exists t',
    addMonths (Valid t) amount = Valid t'
    /\ t' = UTC (MakeDate
                   (MakeDay 0 (monthIndex t + amount)
                      (Z.min (DateFromTime (LocalTime t))
                         (lengthOfMonth 0 (monthIndex t + amount))))
                   (TimeWithinDay (LocalTime t)))
    /\ monthIndex t' = monthIndex t + amount
    /\ DateFromTime (LocalTime t')
       = Z.min (DateFromTime (LocalTime t)) (monthLast t' - monthFirst t' + 1)
    /\ TimeWithinDay (LocalTime t') = TimeWithinDay (LocalTime t).
Proof.
  destruct (addMonths_fields t amount) as (t' & E & Hy & Hm & Hd & Htwd).
  exists t'. split; [done|].
  assert (HI : monthIndex t' = monthIndex t + amount).
  { unfold monthIndex. rewrite Hy, Hm. divmod. }
  split.
  - rewrite addMonths_Valid in E. injection E as <-.
    rewrite MakeDay_index, lengthOfMonth_index.
    unfold monthIndex. by rewrite !Z.add_assoc.
  - split; [done|]. split; [|done].
    rewrite month_length_index, HI, Hd, lengthOfMonth_index.
    unfold monthIndex. by rewrite Z.add_assoc.
Qed.

(** The month grid is a function of the number of the month. *)
Lemma fields_index t t' :
  monthIndex t = monthIndex t' ->
  YearFromTime (LocalTime t) = YearFromTime (LocalTime t')
  /\ MonthFromTime (LocalTime t) = MonthFromTime (LocalTime t').
Proof.
  unfold monthIndex.
  pose proof (MonthFromTime_range (LocalTime t)).
  pose proof (MonthFromTime_range (LocalTime t')). lia.
Qed.

Lemma grid_days_index t t' :
  monthIndex t = monthIndex t' ->
  CalendarGrid.days (Valid t) = CalendarGrid.days (Valid t').
Proof.
  intros HI. rewrite !CalendarGridFacts.days_Valid.
  unfold CalendarGrid.gridFirst, CalendarGrid.gridLast.
  by rewrite !monthFirst_index, !monthLast_index, HI.
Qed.

Lemma CalendarGrid_index t t' events now :
  monthIndex t = monthIndex t' ->
  CalendarGrid.CalendarGrid (Valid t) events now
  = CalendarGrid.CalendarGrid (Valid t') events now.
Proof.
  intros HI. unfold CalendarGrid.CalendarGrid.
  rewrite (grid_days_index t t' HI).
  rewrite (ResFacts.imapM_ext _ (CalendarGrid.dayCell (Valid t') events now));
    [done|].
  intros i day. unfold CalendarGrid.dayCell.
  destruct (fields_index t t' HI) as [Hy Hm].
  replace (isSameMonth day (Valid t)) with (isSameMonth day (Valid t')); [done|].
  unfold isSameMonth. cbn [getFullYear getMonth getter]. by rewrite Hy, Hm.
Qed.

Lemma LocalTime_midnight X : LocalTime (midnight X) = MakeDate X 0.
Proof. unfold midnight. apply LocalTime_UTC. Qed.

Lemma UTC_MakeDate_0 X : UTC (MakeDate X 0) = midnight X.
Proof. done. Qed.

End Handlers.
End NavigationFacts.

(** ** The month view: columns, numbers and today *)

Module MonthViewFacts.
Import ES ESFacts JSDate DateFns DateFnsFacts Calendar.
Import Navigation NavigationFacts CalendarGrid CalendarGridFacts.

Lemma append_empty_r (s : string) : (s +:+ "")%string = s.
Proof.
  induction s as [|a s IH]; [done|].
  change (String a (s +:+ "") = String a s)%string. by rewrite IH.
Qed.

Section Facts.
Context {tz : TimeZone}.

Lemma format_d_midnight X :
  format (Valid (midnight X)) fmt_d = Ok (pretty (DateFromTime (MakeDate X 0))).
Proof.
  unfold format, fmt_d. cbn [foldr formatToken].
  by rewrite append_empty_r, LocalTime_midnight.
Qed.

Lemma format_EEE_midnight X :
  format (Valid (midnight X)) fmt_EEE
  = Ok (default "" (dayNames !! Z.to_nat (dayOfWeek X))).
Proof.
  unfold format, fmt_EEE. cbn [foldr formatToken].
  by rewrite append_empty_r, WeekDay_localDay, localDay_midnight.
Qed.

(** The day of the month of a day of the month with number [I]. *)
Lemma DateFromTime_index I X :
  MakeDay 0 I 1 <= X < MakeDay 0 (I + 1) 1 ->
  DateFromTime (MakeDate X 0) = X - MakeDay 0 I 1 + 1.
Proof.
  intros HX. rewrite MakeDay_next in HX.
  destruct (fields_MakeDay 0 I (X - MakeDay 0 I 1 + 1) 0)
    as (_ & _ & Hd & _); [lia|unfold msPerDay; lia|].
  rewrite <- Hd at 1. do 2 f_equal.
  replace (X - MakeDay 0 I 1 + 1) with (1 + (X - MakeDay 0 I 1)) by lia.
  rewrite MakeDay_date. lia.
Qed.

Lemma dayOfWeek_offset F i :
  dayOfWeek F = 0 -> dayOfWeek (F + Z.of_nat i) = Z.of_nat (i mod 7).
Proof.
  unfold dayOfWeek. intros HF. rewrite Nat2Z.inj_mod. divmod.
Qed.

(** X1: the cells of the month grid stand under the names of their days:
    the cell with index [i] is a day whose name is the entry [i mod 7] of
    the header row, Sunday to Saturday.  The cells of the month of the
    current date carry the numbers 1, 2, ... in order; the cells after it
    carry 1, 2, ... again, and the cells before it the last numbers of the
    month before. *)
Theorem month_grid_columns t events now :
  exists g,
    CalendarGrid (Valid t) events now = Ok g
    /\ header_row g = ["Sun"; "Mon"; "Tue"; "Wed"; "Thu"; "Fri"; "Sat"]
    /\ forall i c,
         body g !! i = Some c ->
         let X := gridFirst t + Z.of_nat i in
         cell_day c = Valid (midnight X)
         /\ (exists name,
               format (cell_day c) fmt_EEE = Ok name
               /\ header_row g !! (i mod 7)%nat = Some name)
         /\ (isCurrentMonth c = true <-> monthFirst t <= X <= monthLast t)
         /\ (monthFirst t <= X <= monthLast t ->
             cell_number c = pretty (X - monthFirst t + 1))
         /\ (monthLast t < X -> cell_number c = pretty (X - monthLast t))
         /\ (X < monthFirst t ->
             cell_number c
             = pretty (lengthOfMonth 0 (monthIndex t - 1)
                       - (monthFirst t - X) + 1)).
Proof.
  destruct (CalendarGrid_total t events now) as [g Hg]. exists g.
  split; [done|].
  destruct (CalendarGrid_Ok _ _ _ _ Hg) as (Hh & _ & _).
  split; [done|]. intros i c Hc X.
  destruct (body_lookup _ _ _ _ _ _ Hg Hc) as [Hi Hcell]. fold X in Hcell.
  apply dayCell_Ok in Hcell as (_ & Hday & Hmonth & _ & Hnum & _).
  pose proof (grid_bounds t) as (H0 & H6 & HF & HL).
  rewrite Hday. split; [done|]. split.
  { eexists. split; [apply format_EEE_midnight|].
    rewrite Hh. unfold X. rewrite dayOfWeek_offset, Nat2Z.id by done.
    assert (Hlt : (i mod 7 < 7)%nat) by (apply Nat.mod_upper_bound; lia).
    destruct (i mod 7)%nat as [|[|[|[|[|[|[|n]]]]]]]; (done || lia). }
  rewrite format_d_midnight in Hnum. injection Hnum as <-.
  split; [rewrite Hmonth; apply isSameMonth_midnight|].
  pose proof (lengthOfMonth_range 0 (monthIndex t - 1)) as Hprev.
  pose proof (lengthOfMonth_range 0 (monthIndex t + 1)) as Hnext.
  pose proof (MakeDay_next 0 (monthIndex t - 1)) as Hp.
  pose proof (MakeDay_next 0 (monthIndex t + 1)) as Hn.
  replace (monthIndex t - 1 + 1) with (monthIndex t) in Hp by lia.
  pose proof (monthFirst_index t) as HMF.
  pose proof (monthLast_index t) as HML.
  split; [|split].
  - intros HX. rewrite (DateFromTime_index (monthIndex t)) by lia.
    by rewrite <- HMF.
  - intros HX. rewrite (DateFromTime_index (monthIndex t + 1)) by lia.
    f_equal. lia.
  - intros HX. rewrite (DateFromTime_index (monthIndex t - 1)).
    + f_equal. lia.
    + replace (monthIndex t - 1 + 1) with (monthIndex t) by lia. lia.
Qed.

(** The flags of the cell with index [i]. *)
Lemma cell_flags t events now g i c :
  CalendarGrid (Valid t) events now = Ok g ->
  body g !! i = Some c ->
  let X := gridFirst t + Z.of_nat i in
  cell_day c = Valid (midnight X)
  /\ X <= gridLast t
  /\ (isCurrentDay c = true <-> localDay (now i) = X)
  /\ (isCurrentMonth c = true <-> monthFirst t <= X <= monthLast t).
Proof.
  intros Hg Hc X.
  destruct (body_lookup _ _ _ _ _ _ Hg Hc) as [Hi Hcell].
  apply dayCell_Ok in Hcell as (_ & Hday & Hmonth & Htoday & _).
  subst X. split; [done|]. split; [lia|]. split.
  - rewrite Htoday. unfold isToday.
    rewrite isSameDay_Valid, bool_decide_eq_true, localDay_midnight.
    split; intros; congruence.
  - rewrite Hmonth. apply isSameMonth_midnight.
Qed.

Lemma body_lookup_day t events now g X :
  CalendarGrid (Valid t) events now = Ok g ->
  gridFirst t <= X <= gridLast t ->
  exists c, body g !! Z.to_nat (X - gridFirst t) = Some c.
Proof.
  intros Hg HX. apply lookup_lt_is_Some_2.
  destruct (CalendarGrid_Ok _ _ _ _ Hg) as (_ & -> & _).
  apply Nat2Z.inj_lt. rewrite length_days. lia.
Qed.

(** X2: a cell of the month grid is flagged as today exactly when its day
    is the day of local time of the clock read for it.  While the clock
    stays within one day, at most one cell is flagged, and one is exactly
    when that day lies in the grid. *)
Theorem month_grid_today t events now :
  exists g,
    CalendarGrid (Valid t) events now = Ok g
    /\ (forall i c,
          body g !! i = Some c ->
          (isCurrentDay c = true
           <-> localDay (now i) = gridFirst t + Z.of_nat i))
    /\ (forall D,
          (forall i, localDay (now i) = D) ->
          (forall i c,
             body g !! i = Some c -> isCurrentDay c = true ->
             Z.of_nat i = D - gridFirst t
             /\ cell_day c = Valid (midnight D))
          /\ ((exists c, c ∈ body g /\ isCurrentDay c = true)
              <-> gridFirst t <= D <= gridLast t)).
Proof.
  destruct (CalendarGrid_total t events now) as [g Hg]. exists g.
  split; [done|].
  split; [intros i c Hc; by apply (cell_flags _ _ _ _ _ _ Hg Hc)|].
  intros D HD. split.
  - intros i c Hc Ht.
    destruct (cell_flags _ _ _ _ _ _ Hg Hc) as (Hday & _ & Hiff & _).
    apply Hiff in Ht. rewrite HD in Ht. split; [lia|]. by rewrite Hday, Ht.
  - split.
    + intros (c & [i Hc]%list_elem_of_lookup_1 & Ht).
      destruct (cell_flags _ _ _ _ _ _ Hg Hc) as (_ & Hi & Hiff & _).
      apply Hiff in Ht. rewrite HD in Ht. lia.
    + intros HDr. destruct (body_lookup_day _ _ _ _ D Hg HDr) as [c Hc].
      exists c. split; [by eapply list_elem_of_lookup_2|].
      apply (cell_flags _ _ _ _ _ _ Hg Hc). rewrite HD. lia.
Qed.

End Facts.
End MonthViewFacts.

(** ** The week view: labels, columns and blocks *)

Module WeekViewFacts.
Import ES ESFacts ResFacts JSDate DateFns DateFnsFacts Calendar.
Import NavigationFacts MonthViewFacts CalendarWeekView CalendarWeekViewFacts.

(** The label of an hour in the format "ha". *)
Local Abbreviation hourLabel := (fun hour : Z =>
  let h := hour mod 12 in
  let n := if h =? 0 then 12 else h in
  let a : string := if 12 <=? hour then "PM" else "AM" in
  (pretty n +:+ a)%string).

Lemma filter_disjoint {A : Type} (p q : A -> bool) (l : list A) :
  (forall x, p x = true -> q x = true -> False) ->
  List.filter p l ++ List.filter q l
  ≡ₚ List.filter (fun x => p x || q x) l.
Proof.
  intros Hpq. induction l as [|x l IH]; [done|]. cbn.
  destruct (p x) eqn:Ep, (q x) eqn:Eq; cbn.
  - destruct (Hpq x Ep Eq).
  - by rewrite IH.
  - rewrite <- Permutation_middle. by rewrite IH.
  - done.
Qed.

Section Facts.
Context {tz : TimeZone}.

Lemma label_hour X hour :
  0 <= hour < 24 ->
  format (addMinutes (startOfDay (Valid (midnight X))) (hour * 60)) fmt_ha
  = Ok (hourLabel hour).
Proof.
  intros Hh. rewrite startOfDay_Valid, localDay_midnight.
  unfold addMinutes, toDate, format, fmt_ha.
  cbn [getTime ofTime JSNum.add JSNum.lift2 JSNum.mul foldr formatToken].
  rewrite append_empty_r.
  assert (HH : HourFromTime
                 (LocalTime (midnight X + hour * 60 * millisecondsInMinute))
               = hour).
  { unfold HourFromTime, LocalTime, midnight, UTC, MakeDate, msPerDay,
      msPerHour, millisecondsInMinute. divmod. }
  by rewrite HH.
Qed.

Lemma hours_range hour : hour ∈ hours -> 0 <= hour < 24.
Proof.
  unfold hours. intros (n & -> & Hn%elem_of_seq)%list_elem_of_fmap. lia.
Qed.

Lemma labels_Ok t labels :
  mapM (fun hour => format (addMinutes (startOfDay (Valid t)) (hour * 60)) fmt_ha)
    hours = Ok labels ->
  labels = hourLabel <$> hours.
Proof.
  intros H%mapM_Ok. rewrite startOfDay_Valid in H.
  revert labels H. generalize hours_range.
  induction hours as [|hour l IH]; intros Hr labels H.
  - by inversion H.
  - inversion H as [|? y ? k Hy Hk]; subst. cbn. f_equal.
    + rewrite <- (localDay_midnight (localDay t)) in Hy at 1.
      rewrite <- startOfDay_Valid, label_hour in Hy.
      * by injection Hy.
      * apply Hr. by left.
    + apply IH; [|done]. intros h Hh. apply Hr. by right.
Qed.

(** The column with index [i]. *)
Lemma col_lookup t events now g i c :
  CalendarWeekView (Valid t) events now = Ok g ->
  day_cols g !! i = Some c ->
  (i < 7)%nat
  /\ dayColumn events now i (Valid (midnight (weekFirst t + Z.of_nat i)))
     = Ok c.
Proof.
  intros Hg Hc. destruct (CalendarWeekView_Ok _ _ _ _ Hg) as [Hlen Hcol].
  destruct (days (Valid t) !! i) as [day|] eqn:Ed.
  - pose proof (Hcol _ _ _ Ed Hc) as Hok.
    apply week_days_lookup in Ed as [-> Hi]. done.
  - apply lookup_lt_Some in Hc. apply lookup_ge_None in Ed. lia.
Qed.

Lemma col_flags t events now g i c :
  CalendarWeekView (Valid t) events now = Ok g ->
  day_cols g !! i = Some c ->
  col_day c = Valid (midnight (weekFirst t + Z.of_nat i))
  /\ (col_today c = true <-> localDay (now i) = weekFirst t + Z.of_nat i).
Proof.
  intros Hg Hc. destruct (col_lookup _ _ _ _ _ _ Hg Hc) as [_ Hok].
  apply dayColumn_Ok in Hok as (-> & -> & _). split; [done|].
  unfold isToday.
  rewrite isSameDay_Valid, bool_decide_eq_true, localDay_midnight.
  split; intros; congruence.
Qed.

Lemma day_cols_length t events now g :
  CalendarWeekView (Valid t) events now = Ok g -> length (day_cols g) = 7%nat.
Proof.
  intros Hg. destruct (CalendarWeekView_Ok _ _ _ _ Hg) as [-> _].
  by rewrite week_days_Valid, length_fmap, length_seqZ.
Qed.

(** X3: in a time zone at a fixed offset from UTC, one without
    daylight-saving changes, the time column of the week view has the same
    24 labels for every current date, "12AM", "1AM" to "11AM", "12PM",
    "1PM" to "11PM".  (The label of the hour [h] is the hour of the time
    60 * [h] minutes after the midnight of the current date: on a day with
    a daylight-saving change, which this time zone does not have, a label
    would be left out and another given twice.)  The columns of the days
    carry the names "Sun" to "Sat" in this order; a column is flagged as
    today exactly when its day is the day of local time of the clock read
    for it. *)
Theorem week_view_headers t events now :
  exists g,
    CalendarWeekView (Valid t) events now = Ok g
    /\ time_col g
       = ["12AM"; "1AM"; "2AM"; "3AM"; "4AM"; "5AM"; "6AM"; "7AM"; "8AM";
          "9AM"; "10AM"; "11AM"; "12PM"; "1PM"; "2PM"; "3PM"; "4PM"; "5PM";
          "6PM"; "7PM"; "8PM"; "9PM"; "10PM"; "11PM"]
    /\ col_name <$> day_cols g
       = ["Sun"; "Mon"; "Tue"; "Wed"; "Thu"; "Fri"; "Sat"]
    /\ forall i c,
         day_cols g !! i = Some c ->
         (col_today c = true <-> localDay (now i) = weekFirst t + Z.of_nat i).
Proof.
  destruct (CalendarWeekView_total t events now) as [g Hg]. exists g.
  split; [done|]. split.
  { pose proof Hg as Hg'. unfold CalendarWeekView in Hg'.
    apply bind_Ok in Hg' as (labels & Hl & Hg').
    apply bind_Ok in Hg' as (cols & _ & [= <-]).
    by rewrite (labels_Ok _ _ Hl). }
  pose proof (weekFirst_bounds t) as [H0 _].
  split.
  - apply list_eq. intros i. rewrite list_lookup_fmap.
    destruct (day_cols g !! i) as [c|] eqn:Ec; cbn.
    + destruct (col_lookup _ _ _ _ _ _ Hg Ec) as [Hi Hok].
      apply dayColumn_Ok in Hok as (_ & _ & _ & Hname & _).
      rewrite format_EEE_midnight in Hname. injection Hname as <-.
      rewrite dayOfWeek_offset, Nat2Z.id by done.
      by destruct i as [|[|[|[|[|[|[|n]]]]]]]; [..|lia].
    + apply lookup_ge_None in Ec. rewrite (day_cols_length _ _ _ _ Hg) in Ec.
      symmetry. apply lookup_ge_None. cbn. lia.
  - intros i c Hc. by apply (col_flags _ _ _ _ _ _ Hg Hc).
Qed.

Lemma isSameDay_midnight (d : Date) Y :
  isSameDay d (Valid (midnight Y))
  = match d with
    | Valid s => bool_decide (localDay s = Y)
    | Invalid => false
    end.
Proof.
  destruct d as [|s]; [done|]. by rewrite isSameDay_Valid, localDay_midnight.
Qed.

(** The events of consecutive days, taken together, are the events that
    start on one of the days. *)
Lemma events_of_days events F (n : nat) :
  concat ((fun X => getEventsForDay events (Valid (midnight X)))
            <$> seqZ F (Z.of_nat n))
  ≡ₚ List.filter
       (fun e => match start e with
                 | Valid s => (F <=? localDay s) && (localDay s <? F + Z.of_nat n)
                 | Invalid => false
                 end) events.
Proof.
  induction n as [|n IH].
  - cbn. rewrite Z.add_0_r. induction events as [|e l IHl]; [done|]. cbn.
    destruct (start e) as [|s]; [done|].
    by destruct (Z.leb_spec F (localDay s)), (Z.ltb_spec (localDay s) F);
      try lia.
  - rewrite seqZ_S, fmap_app, concat_app, IH. cbn [fmap list_fmap concat].
    rewrite app_nil_r. unfold getEventsForDay at 1.
    rewrite filter_disjoint.
    + erewrite List.filter_ext; [done|]. intros e. cbn.
      unfold toDate. rewrite isSameDay_midnight.
      destruct (start e) as [|s]; [done|].
      destruct (Z.leb_spec F (localDay s)), (Z.ltb_spec (localDay s) (F + Z.of_nat n)),
        (Z.ltb_spec (localDay s) (F + Z.of_nat (S n)));
        case_bool_decide; cbn; (done || lia).
    + intros e. cbn. unfold toDate. rewrite isSameDay_midnight.
      destruct (start e) as [|s]; [done|].
      destruct (Z.leb_spec F (localDay s)), (Z.ltb_spec (localDay s) (F + Z.of_nat n));
        case_bool_decide; cbn; (done || lia).
Qed.

Lemma week_columns t events now g :
  CalendarWeekView (Valid t) events now = Ok g ->
  (fun c => block_onClick <$> col_events c) <$> day_cols g
  = (fun X => getEventsForDay events (Valid (midnight X)))
      <$> seqZ (weekFirst t) 7.
Proof.
  intros Hg. pose proof (cols_days _ _ _ _ Hg) as Hd.
  rewrite week_days_Valid in Hd.
  apply list_eq. intros i. rewrite !list_lookup_fmap.
  apply (f_equal (fun l => l !! i)) in Hd. rewrite !list_lookup_fmap in Hd.
  destruct (day_cols g !! i) as [c|] eqn:Ec;
    destruct (seqZ (weekFirst t) 7 !! i) as [X|] eqn:EX; cbn in *;
    try done.
  injection Hd as Hd. f_equal.
  destruct (col_elem _ _ _ _ c Hg) as (X' & _ & HX' & Hb);
    [by eapply list_elem_of_lookup_2|].
  rewrite Hd in HX'. injection HX' as ->%midnight_inj.
  by apply blocks_onClick in Hb.
Qed.

(** X4: the week view shows every event that starts on one of its seven
    days, once, and no other event: the events of its columns, taken
    together, are a rearrangement of the events of the input that start,
    in local time, on a day of the week shown. *)
Theorem week_view_partition t events now :
  exists g,
    CalendarWeekView (Valid t) events now = Ok g
    /\ concat ((fun c => block_onClick <$> col_events c) <$> day_cols g)
       ≡ₚ List.filter
            (fun e => match start e with
                      | Valid s =>
                          (weekFirst t <=? localDay s)
                          && (localDay s <? weekFirst t + 7)
                      | Invalid => false
                      end) events.
Proof.
  destruct (CalendarWeekView_total t events now) as [g Hg]. exists g.
  split; [done|]. rewrite (week_columns _ _ _ _ Hg).
  apply (events_of_days events (weekFirst t) 7).
Qed.

(** X5: in a time zone at a fixed offset from UTC, one without
    daylight-saving changes, where every day has 1440 minutes, the block of
    an event in the week view starts within the column: its offset is at
    least 0 and less than the height of the 24 hour slots.  (On a day of 25
    hours, which this time zone does not have, the minutes from midnight
    would reach 1499.)  Its height is 30 at least, or NaN when the end of
    the event is an invalid date. *)
Theorem week_block_bounds t events now :
  exists g,
    CalendarWeekView (Valid t) events now = Ok g
    /\ forall c b,
         c ∈ day_cols g -> b ∈ col_events c ->
         (exists top,
            block_top b = Some top
            /\ (0 <= top)%Q
            /\ (top < inject_Z (Z.of_nat (length (col_slots c)) * HOUR_HEIGHT))%Q)
         /\ match block_height b with
            | Some height =>
                (inject_Z 30 <= height)%Q
                /\ isValid (end_ (block_onClick b)) = true
            | None => end_ (block_onClick b) = Invalid
            end.
Proof.
  destruct (CalendarWeekView_total t events now) as [g Hg]. exists g.
  split; [done|]. intros c b Hc Hb.
  destruct (block_elem _ _ _ _ _ _ Hg Hc Hb)
    as (X & s & _ & _ & Hs & _ & Htop & Hheight).
  destruct (getEventPosition_Valid _ _ Hs) as [Ht Hh].
  rewrite <- Htop in Ht. rewrite <- Hheight in Hh.
  pose proof (minutesOfDay_range s) as Hm.
  assert (Hslots : length (col_slots c) = 24%nat).
  { apply list_elem_of_lookup_1 in Hc as [i Hc].
    destruct (CalendarWeekView_Ok _ _ _ _ Hg) as [Hlen Hcol].
    destruct (days (Valid t) !! i) as [day|] eqn:Ed.
    - pose proof (Hcol _ _ _ Ed Hc) as Hok. unfold dayColumn in Hok.
      apply bind_Ok in Hok as (? & _ & Hok).
      apply bind_Ok in Hok as (? & _ & Hok).
      apply bind_Ok in Hok as (? & _ & Hok).
      apply bind_Ok in Hok as (? & _ & [= <-]). done.
    - apply lookup_lt_Some in Hc. apply lookup_ge_None in Ed. lia. }
  split.
  - destruct (block_top b) as [top|]; [|done]. exists top. cbn in Ht.
    split; [done|]. rewrite Hslots, Ht. split.
    + change 0%Q with (inject_Z 0). rewrite <- Zle_Qle. lia.
    + rewrite <- Zlt_Qlt. unfold HOUR_HEIGHT. lia.
  - destruct (end_ (block_onClick b)) as [|e].
    + by rewrite Hh.
    + destruct (block_height b) as [height|]; [|done]. cbn in Hh.
      split; [|done]. rewrite Hh, <- Zle_Qle. lia.
Qed.

End Facts.
End WeekViewFacts.

(** ** The state of [CalendarView] and its handlers *)

Module CalendarPageFacts.
Import ES ESFacts JSDate DateFns DateFnsFacts Calendar.
Import Navigation NavigationFacts CalendarPage.

Section Facts.
Context {tz : TimeZone}.

(** X6: in the week view the buttons Next and Previous move the current
    date by seven days and keep the time of the day, so that the week
    shown is the week after, or before, the one shown; the view and the
    selected event stay, and Previous after Next, or Next after Previous,
    gives back the state. *)
Theorem week_navigation t sel now now' :
  let s := {| currentDate := Valid t; view := week; selectedEvent := sel |} in
  let sn := handleNavigate now next s in
  let sp := handleNavigate now prev s in
  (sn = {| currentDate := Valid (t + 7 * msPerDay); view := week;
           selectedEvent := sel |}
   /\ sp = {| currentDate := Valid (t - 7 * msPerDay); view := week;
              selectedEvent := sel |})
  /\ (handleNavigate now' prev sn = s /\ handleNavigate now' next sp = s)
  /\ (CalendarWeekView.days (currentDate s)
      = (fun X => Valid (midnight X)) <$> seqZ (CalendarWeekView.weekFirst t) 7
      /\ CalendarWeekView.days (currentDate sn)
         = (fun X => Valid (midnight X))
             <$> seqZ (CalendarWeekView.weekFirst t + 7) 7
      /\ CalendarWeekView.days (currentDate sp)
         = (fun X => Valid (midnight X))
             <$> seqZ (CalendarWeekView.weekFirst t - 7) 7).
Proof.
  intros s sn sp.
  assert (En : sn = {| currentDate := Valid (t + 7 * msPerDay); view := week;
                       selectedEvent := sel |}).
  { unfold sn, handleNavigate, setCurrentDate, s.
    cbn [currentDate view selectedEvent].
    rewrite addWeeks_Valid. do 2 f_equal; lia. }
  assert (Ep : sp = {| currentDate := Valid (t - 7 * msPerDay); view := week;
                       selectedEvent := sel |}).
  { unfold sp, handleNavigate, setCurrentDate, s.
    cbn [currentDate view selectedEvent].
    rewrite addWeeks_Valid. do 2 f_equal; lia. }
  split; [done|]. rewrite En, Ep. split.
  - unfold handleNavigate, setCurrentDate, s.
    cbn [currentDate view selectedEvent].
    rewrite !addWeeks_Valid. split; do 2 f_equal; lia.
  - cbn [currentDate s]. rewrite !CalendarWeekViewFacts.week_days_Valid.
    assert (Hw : forall n,
               CalendarWeekView.weekFirst (t + n * msPerDay * 7)
               = CalendarWeekView.weekFirst t + n * 7).
    { intros n. unfold CalendarWeekView.weekFirst.
      replace (t + n * msPerDay * 7) with (t + (n * 7) * msPerDay) by lia.
      rewrite localDay_add_days, dayOfWeek_add_week. lia. }
    split; [done|]. split.
    + replace (t + 7 * msPerDay) with (t + 1 * msPerDay * 7) by lia.
      by rewrite Hw.
    + replace (t - 7 * msPerDay) with (t + (-1) * msPerDay * 7) by lia.
      rewrite Hw. do 2 f_equal.
Qed.

(** X7: in the month view the buttons Next and Previous move the current
    date to the next and to the previous month of the calendar, never
    further: the month shown after Next starts on the day after the month
    shown ends, the month shown after Previous ends on the day before it
    starts.  The time of the day is kept, and so is the day of the month
    unless the month reached is shorter, when its last day is taken. *)
Theorem month_navigation t sel now :
  let s := {| currentDate := Valid t; view := month; selectedEvent := sel |} in
  exists tn tp,
    (handleNavigate now next s
     = {| currentDate := Valid tn; view := month; selectedEvent := sel |}
     /\ handleNavigate now prev s
        = {| currentDate := Valid tp; view := month; selectedEvent := sel |})
    /\ (monthIndex tn = monthIndex t + 1 /\ monthIndex tp = monthIndex t - 1)
    /\ (monthFirst tn = monthLast t + 1 /\ monthLast tp = monthFirst t - 1)
    /\ (DateFromTime (LocalTime tn)
        = Z.min (DateFromTime (LocalTime t)) (monthLast tn - monthFirst tn + 1)
        /\ DateFromTime (LocalTime tp)
           = Z.min (DateFromTime (LocalTime t))
               (monthLast tp - monthFirst tp + 1))
    /\ (TimeWithinDay (LocalTime tn) = TimeWithinDay (LocalTime t)
        /\ TimeWithinDay (LocalTime tp) = TimeWithinDay (LocalTime t)).
Proof.
  intros s.
  destruct (addMonths_index t 1) as (tn & En & _ & HIn & Hdn & Htn).
  destruct (addMonths_index t (-1)) as (tp & Ep & _ & HIp & Hdp & Htp).
  exists tn, tp. split.
  { unfold handleNavigate, setCurrentDate, s.
    cbn [currentDate view selectedEvent]. by rewrite En, Ep. }
  split; [split; [done|lia]|]. split; [|done].
  rewrite (monthFirst_index tn), (monthLast_index tp), (monthLast_index t),
    (monthFirst_index t), HIn, HIp.
  split; [lia|]. by replace (monthIndex t + -1 + 1) with (monthIndex t) by lia.
Qed.

Lemma addMonths_round_trip t amount :
  exists tn tb,
    addMonths (Valid t) amount = Valid tn
    /\ addMonths (Valid tn) (- amount) = Valid tb
    /\ monthIndex tb = monthIndex t
    /\ DateFromTime (LocalTime tb)
       = Z.min (DateFromTime (LocalTime t)) (monthLast tn - monthFirst tn + 1)
    /\ TimeWithinDay (LocalTime tb) = TimeWithinDay (LocalTime t)
    /\ (tb = t
        <-> DateFromTime (LocalTime t) <= monthLast tn - monthFirst tn + 1).
Proof.
  destruct (addMonths_index t amount) as (tn & En & _ & HIn & Hdn & Htn).
  destruct (addMonths_index tn (- amount)) as (tb & Eb & Hb & HIb & Hdb & Htb).
  exists tn, tb.
  assert (HI : monthIndex tb = monthIndex t) by lia.
  split; [done|]. split; [done|]. split; [done|].
  pose proof (DateFromTime_range (LocalTime t)) as Hd.
  assert (Hlen : monthLast tb - monthFirst tb + 1
                 = monthLength (MonthFromTime (LocalTime t))
                     (InLeapYear (LocalTime t))).
  { rewrite !monthFirst_index, !monthLast_index, HI.
    rewrite <- monthFirst_index, <- monthLast_index, monthLast_eq. lia. }
  assert (Hdate : DateFromTime (LocalTime tb)
                  = Z.min (DateFromTime (LocalTime t))
                      (monthLast tn - monthFirst tn + 1)).
  { rewrite Hdb, Hdn, Hlen. lia. }
  split; [done|]. split; [congruence|]. split.
  - intros ->. lia.
  - intros Hle.
    assert (Day (LocalTime tb) = Day (LocalTime t)) as HD.
    { rewrite <- (MakeDay_fields (LocalTime tb)),
        <- (MakeDay_fields (LocalTime t)).
      rewrite (MakeDay_index (YearFromTime (LocalTime tb))),
        (MakeDay_index (YearFromTime (LocalTime t))).
      fold (monthIndex tb). fold (monthIndex t).
      rewrite HI, Hdate, Z.min_l by done. done. }
    pose proof (MakeDate_Day (LocalTime tb)) as H1.
    pose proof (MakeDate_Day (LocalTime t)) as H2.
    rewrite HD, Htb, Htn, H2 in H1. revert H1. unfold LocalTime. lia.
Qed.

(** X8: in the month view, Previous after Next, and Next after Previous,
    come back to the month they left, and the month grid is the one shown
    before.  The current date itself comes back exactly when the month in
    between has its day of the month; when not (the 31st of January, through
    February), the day of the month is the last day of the month in
    between. *)
Theorem month_round_trip t sel now now' (forward : bool) :
  let s := {| currentDate := Valid t; view := month; selectedEvent := sel |} in
  let there := if forward then next else prev in
  let back := if forward then prev else next in
  exists tn tb,
    handleNavigate now there s
    = {| currentDate := Valid tn; view := month; selectedEvent := sel |}
    /\ handleNavigate now' back (handleNavigate now there s)
       = {| currentDate := Valid tb; view := month; selectedEvent := sel |}
    /\ monthIndex tb = monthIndex t
    /\ (monthFirst tb = monthFirst t /\ monthLast tb = monthLast t)
    /\ (forall events clock,
          CalendarGrid.CalendarGrid (Valid tb) events clock
          = CalendarGrid.CalendarGrid (Valid t) events clock)
    /\ DateFromTime (LocalTime tb)
       = Z.min (DateFromTime (LocalTime t)) (monthLast tn - monthFirst tn + 1)
    /\ TimeWithinDay (LocalTime tb) = TimeWithinDay (LocalTime t)
    /\ (tb = t
        <-> DateFromTime (LocalTime t) <= monthLast tn - monthFirst tn + 1).
Proof.
  intros s there back.
  destruct (addMonths_round_trip t (if forward then 1 else -1))
    as (tn & tb & En & Eb & HI & Hrest).
  exists tn, tb.
  split.
  { unfold there, handleNavigate, setCurrentDate, s.
    cbn [currentDate view selectedEvent]. by destruct forward; rewrite En. }
  split.
  { unfold there, back, handleNavigate, setCurrentDate, s.
    cbn [currentDate view selectedEvent].
    destruct forward; rewrite En; cbn [currentDate view selectedEvent];
      [change (- (1)) with (-1) in Eb|change (- (-1)) with 1 in Eb];
      by rewrite Eb. }
  split; [done|].
  split. { by rewrite !monthFirst_index, !monthLast_index, HI. }
  split; [intros events clock; by apply CalendarGrid_index|done].
Qed.

(** Every action keeps the current date at the midnight that starts a day
    of local time. *)
Lemma step_midnight s a :
  (exists X, currentDate s = Valid (midnight X)) ->
  exists X, currentDate (step s a) = Valid (midnight X).
Proof.
  intros [X HX].
  destruct a as [[| |] now|v|e|];
    cbn [step handleNavigate setCurrentDate setView handleEventClick
         setSelectedEvent currentDate view selectedEvent];
    try by exists X.
  - destruct (view s).
    + destruct (addMonths_index (midnight X) (-1)) as (t' & E & -> & _).
      rewrite HX, E, LocalTime_midnight.
      rewrite TimeWithinDay_MakeDate by (unfold msPerDay; lia).
      eexists. by rewrite UTC_MakeDate_0.
    + rewrite HX, addWeeks_Valid. exists (X + -1 * 7). f_equal.
      unfold midnight, UTC, MakeDate. lia.
  - destruct (view s).
    + destruct (addMonths_index (midnight X) 1) as (t' & E & -> & _).
      rewrite HX, E, LocalTime_midnight.
      rewrite TimeWithinDay_MakeDate by (unfold msPerDay; lia).
      eexists. by rewrite UTC_MakeDate_0.
    + rewrite HX, addWeeks_Valid. exists (X + 1 * 7). f_equal.
      unfold midnight, UTC, MakeDate. lia.
  - exists (localDay now). apply startOfDay_Valid.
Qed.

Lemma run_midnight actions s :
  (exists X, currentDate s = Valid (midnight X)) ->
  exists X, currentDate (run s actions) = Valid (midnight X).
Proof.
  revert s. induction actions as [|a actions IH]; intros s Hs; [done|].
  cbn. apply IH. by apply step_midnight.
Qed.

Lemma toolbar_total t v onExport :
  exists tb, CalendarToolbar.CalendarToolbar (Valid t) v onExport = Ok tb.
Proof. destruct v; by eexists. Qed.

Lemma content_total v t events now :
  exists c, CalendarView.content v (Valid t) events now = Ok c.
Proof.
  destruct v; unfold CalendarView.content.
  - destruct (CalendarGridFacts.CalendarGrid_total t events now) as [g ->].
    by eexists.
  - destruct (CalendarWeekViewFacts.CalendarWeekView_total t events now)
      as [g ->].
    by eexists.
Qed.

(** The popup is built when both dates of the event are valid, and throws
    when one of them is not. *)
Lemma popup_outcome e :
  if isValid (start e) && isValid (end_ e)
  then exists p, EventDetailPopup.EventDetailPopup e = Ok p
  else EventDetailPopup.EventDetailPopup e
       = Throw "RangeError: Invalid time value".
Proof.
  unfold EventDetailPopup.EventDetailPopup.
  destruct (start e), (end_ e); cbn; (done || by eexists).
Qed.

(** X9: whatever the user does on the page, from the state the component
    starts in, the current date is a valid date, the midnight that starts
    a day of local time.  So the page is built without an exception unless
    the popup is open on an event with an invalid start or end, when
    [format] throws; without a course, or with a course without events, the
    page is the empty state. *)
Theorem calendar_page_reachable newDate course onExport now0 actions now :
  let s := run (initial now0) actions in
  (exists X, currentDate s = Valid (midnight X))
  /\ match course with
     | None => CalendarView newDate course onExport s now = Ok NoCourseSelected
     | Some c =>
         match Api.events c with
         | [] => CalendarView newDate course onExport s now = Ok NoEventsFound
         | _ :: _ =>
             match selectedEvent s with
             | None =>
                 exists page,
                   CalendarView newDate course onExport s now
                   = Ok (CalendarPage page)
                   /\ popup page = None
             | Some e =>
                 if isValid (start e) && isValid (end_ e)
                 then exists page p,
                        CalendarView newDate course onExport s now
                        = Ok (CalendarPage page)
                        /\ popup page = Some p
                        /\ EventDetailPopup.EventDetailPopup e = Ok p
                 else CalendarView newDate course onExport s now
                      = Throw "RangeError: Invalid time value"
             end
         end
     end.
Proof.
  intros s.
  assert (Hs : exists X, currentDate s = Valid (midnight X)).
  { apply run_midnight. exists (localDay now0). apply startOfDay_Valid. }
  split; [done|]. destruct Hs as [X HX].
  destruct course as [c|]; [|done]. unfold CalendarView.
  destruct (Api.events c) as [|ev evs]; [done|].
  cbn [fmap list_fmap length Nat.eqb]. rewrite HX.
  destruct (toolbar_total (midnight X) (view s) onExport) as [tb ->].
  cbn [mbind Res_bind].
  destruct (content_total (view s) (midnight X)
              (mapBackendEventToCalendarEvent newDate ev
               :: (mapBackendEventToCalendarEvent newDate <$> evs)) now)
    as [c' Hc].
  change (list_fmap _ _ (mapBackendEventToCalendarEvent newDate) evs)
    with (mapBackendEventToCalendarEvent newDate <$> evs).
  rewrite Hc. cbn [mbind Res_bind].
  destruct (selectedEvent s) as [e|]; [|by eexists].
  pose proof (popup_outcome e) as Hp.
  destruct (isValid (start e) && isValid (end_ e)).
  - destruct Hp as [p Hp]. rewrite Hp. eexists _, p. by cbn.
  - by rewrite Hp.
Qed.

(** X10: an event of the back end whose end is null or the empty string
    gets its start as its end.  In the week view its block then has the
    height 30, the least height, and the popup shows the same text for its
    start and its end; the popup is built whenever the start is a valid
    date.  An end that is a string with characters is parsed on its own. *)
Theorem event_without_end newDate (event : Api.BackendEvent) :
  let e := mapBackendEventToCalendarEvent newDate event in
  start e = newDate (Api.start event)
  /\ match Api.end_ event with
     | Some (String _ _ as iso) => end_ e = newDate iso
     | _ =>
         end_ e = start e
         /\ (isValid (start e) = true ->
             JSPx.eqv (CalendarWeekView.getEventPosition e).2 (inject_Z 30)
             /\ exists p,
                  EventDetailPopup.EventDetailPopup e = Ok p
                  /\ EventDetailPopup.start_value p
                     = EventDetailPopup.end_value p)
     end.
Proof.
  intros e. split; [done|].
  assert (H : end_ e = start e ->
              isValid (start e) = true ->
              JSPx.eqv (CalendarWeekView.getEventPosition e).2 (inject_Z 30)
              /\ exists p,
                   EventDetailPopup.EventDetailPopup e = Ok p
                   /\ EventDetailPopup.start_value p
                      = EventDetailPopup.end_value p).
  { intros Hend Hv. destruct (start e) as [|s] eqn:Hs; [done|]. split.
    - destruct (CalendarWeekViewFacts.getEventPosition_Valid e s Hs)
        as [_ Hh].
      rewrite Hend in Hh. by rewrite Z.sub_diag in Hh.
    - unfold EventDetailPopup.EventDetailPopup. rewrite Hend, Hs.
      unfold LongFormat.format. cbn [mbind Res_bind mret Res_ret].
      eexists. split; reflexivity. }
  destruct (Api.end_ event) as [[|c iso]|] eqn:E.
  - assert (Hend : end_ e = start e)
      by (unfold e, mapBackendEventToCalendarEvent; cbn; by rewrite E).
    split; [done|by apply H].
  - unfold e, mapBackendEventToCalendarEvent. cbn. by rewrite E.
  - assert (Hend : end_ e = start e)
      by (unfold e, mapBackendEventToCalendarEvent; cbn; by rewrite E).
    split; [done|by apply H].
Qed.

End Facts.
End CalendarPageFacts.

(** ** The two views together *)

Module ViewsFacts.
Import ES ESFacts ResFacts JSDate DateFns DateFnsFacts Calendar.
Import Navigation NavigationFacts CalendarPage.

Section Facts.
Context {tz : TimeZone}.

Lemma drop_seqZ m n (k : nat) :
  Z.of_nat k <= n -> drop k (seqZ m n) = seqZ (m + Z.of_nat k) (n - Z.of_nat k).
Proof.
  intros Hk. replace n with (Z.of_nat k + (n - Z.of_nat k)) at 1 by lia.
  rewrite seqZ_app by lia. apply drop_app_length'.
  rewrite length_seqZ. lia.
Qed.

Lemma take_seqZ m n (k : nat) :
  Z.of_nat k <= n -> take k (seqZ m n) = seqZ m (Z.of_nat k).
Proof.
  intros Hk. replace n with (Z.of_nat k + (n - Z.of_nat k)) at 1 by lia.
  rewrite seqZ_app by lia. apply take_app_length'.
  rewrite length_seqZ. lia.
Qed.

(** X11: the two views cut the weeks alike: the seven days of the week
    view of a date are one of the rows of the month view of the same date,
    the row of the week of the date. *)
Theorem week_is_row_of_month t :
  let row := Z.to_nat ((CalendarWeekView.weekFirst t
                        - CalendarGrid.gridFirst t) / 7) in
  CalendarWeekView.days (Valid t)
  = take 7 (drop (7 * row) (CalendarGrid.days (Valid t)))
  /\ (7 * row + 7 <= length (CalendarGrid.days (Valid t)))%nat
  /\ CalendarGrid.gridFirst t + 7 * Z.of_nat row = CalendarWeekView.weekFirst t.
Proof.
  intros row.
  rewrite CalendarWeekViewFacts.week_days_Valid, CalendarGridFacts.days_Valid.
  pose proof (CalendarGridFacts.grid_bounds t) as (H0 & H6 & HF & HL).
  pose proof (CalendarWeekViewFacts.weekFirst_bounds t) as (Hw & Hwt).
  pose proof (month_range t) as (Hm & _).
  assert (Hrow : CalendarGrid.gridFirst t + 7 * Z.of_nat row
                 = CalendarWeekView.weekFirst t
                 /\ CalendarWeekView.weekFirst t + 6 <= CalendarGrid.gridLast t).
  { unfold row. revert H0 H6 HF HL Hw Hwt Hm. unfold dayOfWeek.
    generalize (CalendarWeekView.weekFirst t) (CalendarGrid.gridFirst t)
      (CalendarGrid.gridLast t) (monthFirst t) (monthLast t) (localDay t).
    intros W F L mF mL D. intros.
    assert (0 <= (W - F) / 7) by divmod.
    rewrite Z2Nat.id by done. divmod. }
  destruct Hrow as [Hrow Hlast]. split; [|split; [|done]].
  - rewrite <- fmap_drop, <- fmap_take. f_equal.
    rewrite drop_seqZ by lia. rewrite (take_seqZ _ _ 7) by lia.
    f_equal. lia.
  - rewrite length_fmap, length_seqZ. lia.
Qed.

(** X12: the month view accounts for every event that starts on a day of
    its grid: a cell shows at most three entries, the entries shown and the
    count of "+n more" of a cell add up to the number of the events of its
    day, and over all the cells they add up to the number of the events of
    the input that start, in local time, on a day of the grid. *)
Theorem month_grid_accounts t events now :
  exists g,
    CalendarGrid.CalendarGrid (Valid t) events now = Ok g
    /\ (forall c,
          c ∈ CalendarGrid.body g ->
          (length (CalendarGrid.cell_pills c) <= 3)%nat
          /\ (length (CalendarGrid.cell_pills c)
              + Z.to_nat (default 0%Z (CalendarGrid.cell_more c)))%nat
             = length (CalendarGrid.getEventsForDay events
                         (CalendarGrid.cell_day c)))
    /\ list_sum
         ((fun c =>
             (length (CalendarGrid.cell_pills c)
              + Z.to_nat (default 0%Z (CalendarGrid.cell_more c)))%nat)
            <$> CalendarGrid.body g)
       = length
           (List.filter
              (fun e => match start e with
                        | Valid s =>
                            (CalendarGrid.gridFirst t <=? localDay s)
                            && (localDay s <=? CalendarGrid.gridLast t)
                        | Invalid => false
                        end) events).
Proof.
  destruct (CalendarGridFacts.CalendarGrid_total t events now) as [g Hg].
  exists g. split; [done|].
  assert (Hcell : forall c,
            c ∈ CalendarGrid.body g ->
            (length (CalendarGrid.cell_pills c) <= 3)%nat
            /\ (length (CalendarGrid.cell_pills c)
                + Z.to_nat (default 0%Z (CalendarGrid.cell_more c)))%nat
               = length (CalendarGrid.getEventsForDay events
                           (CalendarGrid.cell_day c))).
  { intros c [i Hc]%list_elem_of_lookup_1.
    destruct (CalendarGridFacts.cell_lookup _ _ _ _ _ _ Hg Hc)
      as (_ & _ & Hp & Hm).
    apply (f_equal length) in Hp. rewrite length_fmap, length_take in Hp.
    rewrite Hm, Hp.
    generalize (length (CalendarGrid.getEventsForDay events
                          (CalendarGrid.cell_day c))).
    intros n.
    destruct (Nat.ltb_spec 3 n); cbn [from_option]; unfold Datatypes.id; lia. }
  split; [done|].
  rewrite (list_fmap_ext _
             (fun c => length (CalendarGrid.getEventsForDay events
                                 (CalendarGrid.cell_day c)))).
  2: { intros i c Hc. apply Hcell. by eapply list_elem_of_lookup_2. }
  assert (Hl : (fun c => length (CalendarGrid.getEventsForDay events
                                   (CalendarGrid.cell_day c)))
                 <$> CalendarGrid.body g
               = (fun X => length (CalendarGrid.getEventsForDay events
                                     (Valid (midnight X))))
                   <$> seqZ (CalendarGrid.gridFirst t)
                         (CalendarGrid.gridLast t
                          - CalendarGrid.gridFirst t + 1)).
  { pose proof (CalendarGridFacts.body_days _ _ _ _ Hg) as Hd.
    rewrite CalendarGridFacts.days_Valid in Hd.
    apply list_eq. intros i. rewrite !list_lookup_fmap.
    apply (f_equal (fun l => l !! i)) in Hd. rewrite !list_lookup_fmap in Hd.
    destruct (CalendarGrid.body g !! i) as [c|];
      destruct (seqZ _ _ !! i) as [X|]; cbn in *; try done.
    injection Hd as Hd. by rewrite Hd. }
  rewrite Hl. clear Hl Hcell Hg.
  pose proof (CalendarGridFacts.grid_size t) as Hn. cbn zeta in Hn.
  revert Hn.
  generalize (CalendarGrid.gridLast t), (CalendarGrid.gridFirst t).
  intros L F Hn.
  pose proof (WeekViewFacts.events_of_days events F (Z.to_nat (L - F + 1)))
    as HP.
  rewrite Z2Nat.id in HP by lia.
  apply Permutation_length in HP. rewrite length_concat in HP.
  change (@map) with (@fmap list list_fmap) in HP.
  rewrite <- list_fmap_compose in HP.
  change CalendarWeekView.getEventsForDay with CalendarGrid.getEventsForDay
    in HP.
  unfold compose in HP. rewrite HP. f_equal. apply List.filter_ext. intros e.
  destruct (start e) as [|s]; [done|]. f_equal.
  destruct (Z.ltb_spec (localDay s) (F + (L - F + 1))),
    (Z.leb_spec (localDay s) L); (done || lia).
Qed.

(** X13: the button Today sets the current date to the start of the day
    of the clock, which is the date the component starts with, and leaves
    the view and the selected event.  While the clock stays within that
    day, the day is shown and flagged as today in both views, and nothing
    else is: in the month view one cell, a cell of the current month; in
    the week view the column of its day of the week. *)
Theorem today_button s now0 events now :
  (forall i, localDay (now i) = localDay now0) ->
  let s' := handleNavigate now0 today s in
  let D := localDay now0 in
  (currentDate s' = Valid (midnight D)
   /\ currentDate (initial now0) = Valid (midnight D)
   /\ view s' = view s /\ selectedEvent s' = selectedEvent s)
  /\ (exists g c,
        CalendarGrid.CalendarGrid (currentDate s') events now = Ok g
        /\ CalendarGrid.body g
             !! Z.to_nat (D - CalendarGrid.gridFirst (midnight D)) = Some c
        /\ CalendarGrid.cell_day c = Valid (midnight D)
        /\ CalendarGrid.isCurrentDay c = true
        /\ CalendarGrid.isCurrentMonth c = true
        /\ forall j c',
             CalendarGrid.body g !! j = Some c' ->
             CalendarGrid.isCurrentDay c' = true ->
             j = Z.to_nat (D - CalendarGrid.gridFirst (midnight D)))
  /\ (exists g c,
        CalendarWeekView.CalendarWeekView (currentDate s') events now = Ok g
        /\ CalendarWeekView.day_cols g !! Z.to_nat (dayOfWeek D) = Some c
        /\ CalendarWeekView.col_day c = Valid (midnight D)
        /\ CalendarWeekView.col_today c = true
        /\ forall j c',
             CalendarWeekView.day_cols g !! j = Some c' ->
             CalendarWeekView.col_today c' = true ->
             j = Z.to_nat (dayOfWeek D)).
Proof.
  intros Hnow s' D. split; [done|].
  change (currentDate s') with (Valid (midnight D)).
  pose proof (localDay_midnight D) as HD.
  split.
  - destruct (CalendarGridFacts.CalendarGrid_total (midnight D) events now)
      as [g Hg].
    pose proof (CalendarGridFacts.grid_bounds (midnight D))
      as (_ & _ & HF & HL).
    pose proof (month_range (midnight D)) as [Hm _]. rewrite HD in Hm.
    destruct (MonthViewFacts.body_lookup_day _ _ _ _ D Hg) as [c Hc]; [lia|].
    exists g, c. split; [done|]. split; [done|].
    destruct (MonthViewFacts.cell_flags _ _ _ _ _ _ Hg Hc)
      as (Hday & _ & Ht & Hcm).
    rewrite Z2Nat.id in Hday, Ht, Hcm by lia.
    replace (CalendarGrid.gridFirst (midnight D)
             + (D - CalendarGrid.gridFirst (midnight D))) with D
      in Hday, Ht, Hcm by lia.
    split; [done|]. split; [by apply Ht|]. split; [by apply Hcm|].
    intros j c' Hc' Ht'.
    destruct (MonthViewFacts.cell_flags _ _ _ _ _ _ Hg Hc') as (_ & _ & Hj & _).
    apply Hj in Ht'. rewrite Hnow in Ht'. fold D in Ht'. lia.
  - destruct (CalendarWeekViewFacts.CalendarWeekView_total (midnight D)
                events now) as [g Hg].
    pose proof (dayOfWeek_range D) as Hr.
    assert (HW : CalendarWeekView.weekFirst (midnight D) = D - dayOfWeek D).
    { unfold CalendarWeekView.weekFirst. by rewrite HD. }
    destruct (lookup_lt_is_Some_2 (CalendarWeekView.day_cols g)
                (Z.to_nat (dayOfWeek D))) as [c Hc].
    { rewrite (WeekViewFacts.day_cols_length _ _ _ _ Hg). lia. }
    exists g, c. split; [done|]. split; [done|].
    destruct (WeekViewFacts.col_flags _ _ _ _ _ _ Hg Hc) as (Hday & Ht).
    rewrite HW, Z2Nat.id in Hday, Ht by lia.
    replace (D - dayOfWeek D + dayOfWeek D) with D in Hday, Ht by lia.
    split; [done|]. split; [by apply Ht|].
    intros j c' Hc' Ht'.
    destruct (WeekViewFacts.col_flags _ _ _ _ _ _ Hg Hc') as (_ & Hj).
    apply Hj in Ht'. rewrite Hnow, HW in Ht'. fold D in Ht'. lia.
Qed.

End Facts.

(** Monday the 3rd of November 2025 at 9:00 in UTC: the column with
    index 1 of the week view is today. *)
Lemma today_button_witness :
  (forall i : nat,
     localDay (tz := Examples.utc) (Examples.clock i)
     = localDay (tz := Examples.utc) (Examples.at_utc 2025 10 3 9 0))
  /\ exists g c,
       CalendarWeekView.CalendarWeekView (tz := Examples.utc)
         (Valid (Examples.at_utc 2025 10 3 0 0)) [] Examples.clock = Ok g
       /\ CalendarWeekView.day_cols g !! 1%nat = Some c
       /\ CalendarWeekView.col_today c = true.
Proof.
  assert (H : forall i : nat,
            localDay (tz := Examples.utc) (Examples.clock i)
            = localDay (tz := Examples.utc) (Examples.at_utc 2025 10 3 9 0))
    by (intros i; reflexivity).
  split; [exact H|].
  destruct (today_button (tz := Examples.utc)
              (initial (tz := Examples.utc) (Examples.at_utc 2025 10 3 9 0))
              (Examples.at_utc 2025 10 3 9 0) [] Examples.clock H)
    as (_ & _ & g & c & Hg & Hc & _ & Ht & _).
  exists g, c. split; [exact Hg|]. split; [exact Hc|exact Ht].
Defined.

End ViewsFacts.

(** ** The order of the rules of [getEventColor] *)

Module ColorFacts.
Import Calendar CalendarFacts.

Lemma append_assoc (a b c : string) :
  ((a +:+ b) +:+ c = a +:+ (b +:+ c))%string.
Proof.
  induction a as [|x a IH]; [done|].
  change (String x ((a +:+ b) +:+ c) = String x (a +:+ (b +:+ c)))%string.
  by rewrite IH.
Qed.

(** A keyword that occurs in a string occurs in every string around it. *)
Lemma includes_around (before s after k : string) :
  includes s k = true -> includes (before +:+ s +:+ after) k = true.
Proof.
  rewrite !includes_spec. intros (pre & post & ->).
  exists (before +:+ pre)%string, (post +:+ after)%string.
  by rewrite !append_assoc.
Qed.

(** With more keywords found, the first rule that matches comes no later
    in the list of the rules. *)
Lemma firstMatch_earlier rules n n' :
  (forall k, includes n k = true -> includes n' k = true) ->
  exists i j : nat,
    ((snd <$> rules) ++ ["gray"]) !! i = Some (firstMatch rules n)
    /\ ((snd <$> rules) ++ ["gray"]) !! j = Some (firstMatch rules n')
    /\ (j <= i)%nat.
Proof.
  intros Hn. induction rules as [|[keywords color] rules IH].
  - by exists 0%nat, 0%nat.
  - cbn [firstMatch].
    destruct (existsb (includes n') keywords) eqn:E'.
    + destruct (list_elem_of_lookup_1 _ _
                  (firstMatch_range ((keywords, color) :: rules) n))
        as [i Hi].
      exists i, 0%nat. split; [done|]. split; [done|lia].
    + assert (E : existsb (includes n) keywords = false).
      { destruct (existsb (includes n) keywords) eqn:E; [|done].
        apply existsb_exists in E as (k & Hk & E).
        assert (existsb (includes n') keywords = true); [|congruence].
        apply existsb_exists. exists k. split; [done|by apply Hn]. }
      rewrite E. destruct IH as (i & j & Hi & Hj & Hij).
      exists (S i), (S j). split; [done|]. split; [done|lia].
Qed.

(** X14: words added before or after a type never move its colour to a
    later rule: in the order blue, orange, red, purple, green, gray, the
    colour of the longer string is the colour of the type or an earlier
    one.  A type that is blue stays blue whatever is added. *)
Theorem color_priority (before type after : string) :
  exists i j : nat,
    colors !! i = Some (getEventColor type)
    /\ colors !! j = Some (getEventColor (before +:+ type +:+ after))
    /\ (j <= i)%nat
    /\ (getEventColor type = "blue"
        -> getEventColor (before +:+ type +:+ after) = "blue").
Proof.
  destruct (firstMatch_earlier colorRules (toLowerCase type)
              (toLowerCase (before +:+ type +:+ after)))
    as (i & j & Hi & Hj & Hij).
  { intros k. rewrite !toLowerCase_app. apply includes_around. }
  rewrite <- !getEventColor_firstMatch in Hi, Hj.
  exists i, j. split; [done|]. split; [done|]. split; [done|].
  intros Hb. rewrite Hb in Hi.
  assert (i = 0)%nat as ->.
  { by destruct i as [|[|[|[|[|[|i]]]]]]. }
  assert (j = 0)%nat as -> by lia. by injection Hj.
Qed.

End ColorFacts.

(** ** The list of the parsed events *)

Module ParsedEventsFacts.
Import Calendar CalendarFacts ParsedEvents.

(** X15: the icon and the colour of a card of the list of events always
    belong together: books and blue, microscope and purple, memo and
    orange, graduation cap and red, clipboard and green, calendar and gray;
    so two types get the same colour exactly when they get the same icon. *)
Theorem parsed_event_icon_color (type type' : string) :
  (getEventTypeColor type, getEventTypeIcon type)
    ∈ [("blue", books); ("purple", microscope); ("orange", memo);
       ("red", graduation_cap); ("green", clipboard); ("gray", calendar)]
  /\ (getEventTypeColor type = getEventTypeColor type'
      <-> getEventTypeIcon type = getEventTypeIcon type').
Proof.
  assert (H : forall ty,
            (getEventTypeColor ty, getEventTypeIcon ty)
              ∈ [("blue", books); ("purple", microscope); ("orange", memo);
                 ("red", graduation_cap); ("green", clipboard);
                 ("gray", calendar)]).
  { intros ty. unfold getEventTypeColor, getEventTypeIcon.
    rewrite !elem_of_cons.
    destruct (includes (toLowerCase ty) "lecture"
              || includes (toLowerCase ty) "class"); [tauto|].
    destruct (includes (toLowerCase ty) "lab"); [tauto|].
    destruct (includes (toLowerCase ty) "midterm"
              || includes (toLowerCase ty) "test"); [tauto|].
    destruct (includes (toLowerCase ty) "final"
              || includes (toLowerCase ty) "exam"); [tauto|].
    destruct (includes (toLowerCase ty) "assignment"
              || includes (toLowerCase ty) "project"); tauto. }
  split; [apply H|].
  pose proof (H type) as H1. pose proof (H type') as H2.
  rewrite !elem_of_cons, elem_of_nil in H1, H2.
  destruct H1 as [[= E1 I1]|[[= E1 I1]|[[= E1 I1]|[[= E1 I1]|[[= E1 I1]
    |[[= E1 I1]|[]]]]]]];
    destruct H2 as [[= E2 I2]|[[= E2 I2]|[[= E2 I2]|[[= E2 I2]|[[= E2 I2]
      |[[= E2 I2]|[]]]]]]];
    rewrite E1, E2, I1, I2; split; intros; (done || discriminate).
Qed.

(** A case of the comparison of the two colours, with the tests decided. *)
Ltac colors_case :=
  cbn; split;
  [ intros E;
    first
      [ discriminate E
      | by auto
      | right; split; [discriminate|];
        first
          [ by auto
          | right; right;
            repeat split; first [discriminate | done | intros; discriminate] ] ]
  | intros HP;
    first
      [ reflexivity
      | exfalso;
        destruct HP as [[|]|[Hl [[|]|[[|]|(Ha & Hh & [Hq Hp])]]]];
        first
          [ discriminate
          | by apply Hl
          | by apply Ha
          | by apply Hh
          | discriminate (Hq eq_refl)
          | discriminate (Hp eq_refl) ] ] ].

(** X16: the list of the parsed events and the calendar do not colour
    every event alike.  The two colours of a type are the same exactly
    when the type has "lecture" or "class", or has no "lab" and either has
    one of "midterm", "test", "final", "exam", or has no "assignment" and no
    "homework" and has "quiz" and "project" both or neither (letters of
    either case).  So a lab is purple in the list and blue in the calendar,
    an assignment green and purple, a quiz gray and green, a project green
    and gray. *)
Theorem list_and_calendar_colors (type : string) :
  let has := occursNoCase type in
  getEventTypeColor type = getEventColor type
  <-> (has "lecture" \/ has "class")
      \/ (~ has "lab"
          /\ ((has "midterm" \/ has "test") \/ (has "final" \/ has "exam")
              \/ (~ has "assignment" /\ ~ has "homework"
                  /\ (has "quiz" <-> has "project")))).
Proof.
  intros has. unfold has. rewrite <- !includes_toLowerCase.
  unfold getEventTypeColor, getEventColor.
  generalize (includes (toLowerCase type) "lecture")
    (includes (toLowerCase type) "class") (includes (toLowerCase type) "lab")
    (includes (toLowerCase type) "midterm")
    (includes (toLowerCase type) "test") (includes (toLowerCase type) "final")
    (includes (toLowerCase type) "exam")
    (includes (toLowerCase type) "assignment")
    (includes (toLowerCase type) "homework")
    (includes (toLowerCase type) "quiz")
    (includes (toLowerCase type) "project").
  intros lecture class lab midterm test final exam assignment homework quiz
    project.
  destruct lecture; [destruct class; colors_case|].
  destruct class; [colors_case|].
  destruct lab; [colors_case|].
  destruct midterm; [colors_case|].
  destruct test; [colors_case|].
  destruct final; [colors_case|].
  destruct exam; [colors_case|].
  destruct assignment, homework, quiz, project; colors_case.
Qed.

End ParsedEventsFacts.

(** ** The files selected for upload *)

Module AppFacts.
Import App.

Section Facts.
Context {File : Type}.

Lemma filterIndex_delete (index i : nat) (l : list File) :
  filterIndex File (fun j => negb (j =? i + index)%nat) i l = delete index l.
Proof.
  revert index i. induction l as [|x l IH]; intros index i; [done|]. cbn.
  destruct index as [|index].
  - rewrite Nat.add_0_r, Nat.eqb_refl. cbn [negb].
    change (delete 0%nat (x :: l)) with l.
    clear IH. generalize (Nat.lt_succ_diag_r i). generalize (S i) as k.
    induction l as [|y l IH]; intros k Hk; [done|]. cbn.
    destruct (Nat.eqb_spec k i); [lia|]. cbn [negb]. f_equal. apply IH. lia.
  - destruct (Nat.eqb_spec i (i + S index)); [lia|]. cbn [negb].
    change (delete (S index) (x :: l)) with (x :: delete index l). f_equal.
    rewrite <- (IH index (S i)). f_equal.
    replace (S i + index)%nat with (i + S index)%nat by lia. done.
Qed.

Lemma delete_beyond (index : nat) (l : list File) :
  (length l <= index)%nat -> delete index l = l.
Proof.
  intros Hi. rewrite delete_take_drop, take_ge, drop_ge by lia.
  apply app_nil_r.
Qed.

Lemma step_bound (s : State File) a :
  (length (selectedFiles File s) <= 2)%nat ->
  (length (selectedFiles File (step File s a)) <= 2)%nat.
Proof.
  intros Hs. destruct a as [incoming|index]; cbn.
  - unfold handleFileChange. destruct (length incoming =? 0)%nat; [done|].
    cbn. rewrite length_take. lia.
  - rewrite (filterIndex_delete index 0).
    destruct (decide (index < length (selectedFiles File s))%nat).
    + rewrite length_delete by by apply lookup_lt_is_Some_2. lia.
    + rewrite delete_beyond by lia. done.
Qed.

Lemma run_bound actions (s : State File) :
  (length (selectedFiles File s) <= 2)%nat ->
  (length (selectedFiles File (run File s actions)) <= 2)%nat.
Proof.
  revert s. induction actions as [|a actions IH]; intros s Hs; [done|].
  cbn. apply IH. by apply step_bound.
Qed.

(** X17: whatever files are added and removed, at most two files are
    selected.  Adding files keeps the files selected before, in their
    places, takes the first of the new files while there is room, and sets
    the error message exactly when a file is left out; adding no file
    changes nothing.  Removing the file with an index takes out that file
    alone, and no file when there is none with the index. *)
Theorem file_selection (actions : list (Action File)) :
  let s := run File (initial File) actions in
  let files := selectedFiles File s in
  (length files <= 2)%nat
  /\ handleFileChange File [] s = s
  /\ (forall incoming,
        incoming <> [] ->
        let s' := handleFileChange File incoming s in
        selectedFiles File s' = files ++ take (2 - length files) incoming
        /\ (error File s' <> None
            <-> (2 < length files + length incoming)%nat)
        /\ course File s' = None)
  /\ (forall index,
        selectedFiles File (removeFile File index s) = delete index files
        /\ ((index < length files)%nat ->
            length (selectedFiles File (removeFile File index s))
            = (length files - 1)%nat)
        /\ ((length files <= index)%nat ->
            selectedFiles File (removeFile File index s) = files)).
Proof.
  intros s files.
  assert (Hb : (length files <= 2)%nat) by (apply run_bound; cbn; lia).
  split; [done|]. split; [done|]. split.
  - intros incoming Hne s'. unfold s', handleFileChange.
    destruct incoming as [|f incoming]; [by destruct Hne|].
    cbn [length Nat.eqb].
    cbn [selectedFiles error course]. fold files. split; [|split; [|done]].
    + rewrite take_app. rewrite take_ge by done. done.
    + rewrite length_app. cbn [length].
      destruct (Nat.ltb_spec 2 (length files + S (length incoming)));
        split; (done || lia).
  - intros index. cbn [removeFile selectedFiles]. fold files.
    rewrite (filterIndex_delete index 0). split; [done|]. split.
    + intros Hi. rewrite length_delete by by apply lookup_lt_is_Some_2. lia.
    + intros Hi. by apply delete_beyond.
Qed.

End Facts.
End AppFacts.

(** ** The chat with the calendar *)

Module CalendarAssistantFacts.
Import Calendar CalendarAssistant.

Lemma trimEnd_cons (c : ascii) (s : string) :
  trimEnd (String c s)
  = match trimEnd s with
    | EmptyString => if isWhiteSpace c then EmptyString else String c EmptyString
    | String _ _ as rest => String c rest
    end.
Proof. done. Qed.

Lemma trimEnd_idemp (s : string) : trimEnd (trimEnd s) = trimEnd s.
Proof.
  induction s as [|c s IH]; [done|]. rewrite trimEnd_cons.
  destruct (trimEnd s) as [|d r] eqn:E.
  - destruct (isWhiteSpace c) eqn:Ec; [done|].
    rewrite trimEnd_cons. cbn [trimEnd]. by rewrite Ec.
  - by rewrite trimEnd_cons, IH.
Qed.

Lemma trimStart_trimmedStart (s : string) : trimmedStart (trimStart s).
Proof.
  induction s as [|c s IH]; [done|]. cbn [trimStart].
  by destruct (isWhiteSpace c) eqn:Ec.
Qed.

Lemma trimmedStart_fix (s : string) : trimmedStart s -> trimStart s = s.
Proof. destruct s as [|c s]; [done|]. cbn. by intros ->. Qed.

Lemma trimEnd_trimmedStart (s : string) :
  trimmedStart s -> trimmedStart (trimEnd s).
Proof.
  destruct s as [|c s]; [done|]. rewrite trimEnd_cons. cbn [trimmedStart].
  intros Hc. destruct (trimEnd s); by rewrite ?Hc.
Qed.

Lemma trim_idemp (s : string) : trim (trim s) = trim s.
Proof.
  unfold trim.
  rewrite (trimmedStart_fix (trimEnd (trimStart s))).
  - apply trimEnd_idemp.
  - apply trimEnd_trimmedStart, trimStart_trimmedStart.
Qed.

Lemma step_inv w e :
  inv w ->
  inv (step w e) /\ messages (state w) `prefix_of` messages (state (step w e)).
Proof.
  intros [Hp Hm]. unfold inv. destruct e as [value| |i outcome].
  - done.
  - cbn [step]. unfold send.
    destruct (truthy (trim (input (state w)))) eqn:Et; cbn [negb orb].
    + destruct Hp as [[Hp Hl]|[Hp Hl]]; rewrite Hl.
      * cbn. rewrite Hp. split; [|by apply prefix_app_r].
        split; [by right|]. apply Forall_app. split; [done|].
        apply Forall_singleton. intros _. cbn. split; [|apply trim_idemp].
        by destruct (trim (input (state w))).
      * cbn. rewrite app_nil_r. split; [|done]. split; [by right|done].
    + cbn. rewrite app_nil_r. by split.
  - cbn [step]. destruct Hp as [[Hp Hl]|[Hp Hl]]; rewrite Hp.
    + cbn. split; [|done]. split; [by left|done].
    + destruct i as [|i]; cbn.
      * destruct outcome as [reply|message]; cbn.
        -- split; [|by apply prefix_app_r]. split; [by left|].
           apply Forall_app. split; [done|]. by apply Forall_singleton.
        -- split; [|done]. split; [by left|done].
      * split; [|done]. split; [by right|done].
Qed.

Lemma run_inv events w : inv w -> inv (run w events).
Proof.
  revert w. induction events as [|e events IH]; intros w Hw; [done|].
  cbn. apply IH. by apply step_inv.
Qed.

(** X18: in every state the chat reaches, at most one call to the back end
    is on its way, the component is loading exactly while it is, and the
    messages sent with it are the messages shown: a reply is appended to
    the conversation as it stands, and no message is lost or changed by
    any event.  Every message of the user is trimmed and not empty; an
    input of white space only, or a second send while loading, changes
    nothing and makes no call. *)
Theorem chat_history (events : list Event) :
  let w := run {| state := initial; pending := [] |} events in
  (pending w = [] /\ loading (state w) = false
   \/ pending w = [messages (state w)] /\ loading (state w) = true)
  /\ Forall
       (fun m => role m = user ->
                 content m <> "" /\ trim (content m) = content m)
       (messages (state w))
  /\ (forall e, messages (state w) `prefix_of` messages (state (step w e)))
  /\ (trim (input (state w)) = "" \/ loading (state w) = true ->
      step w Send = w).
Proof.
  intros w.
  assert (Hw : inv w).
  { apply run_inv. split; [by left|]. constructor. }
  destruct Hw as [Hp Hm]. split; [done|]. split; [done|]. split.
  - intros e. by apply step_inv.
  - intros Hb. cbn [step]. unfold send.
    assert (negb (truthy (trim (input (state w)))) || loading (state w)
            = true) as ->.
    { destruct Hb as [-> | ->]; [done|]. apply orb_true_r. }
    rewrite app_nil_r. by destruct w.
Qed.

End CalendarAssistantFacts.

(** ** Navigation on the store *)

Module NavigationStoreFacts.
Import ES JSDate DateFns Calendar Store StoreFacts.
Import Navigation CalendarPage NavigationStore.

Section Facts.
Context {tz : TimeZone}.

Ltac alloc_lt := rewrite ?length_app, ?length_insert; cbn [length]; lia.

Ltac run_store :=
  unfold getTimeM, getFullYearM, getMonthM, getDateM, getDayM, setDateM,
    setFullYearM, setHoursM, setMonthM, toDateM, read, write, newDate;
  unfold mbind, M_bind, mret, M_ret; cbn beta iota;
  repeat (first [ rewrite deref_new
                | rewrite deref_app by alloc_lt
                | rewrite insert_new
                | rewrite ofTime_getTime
                | rewrite getTime_ofTime ];
          cbn beta iota).

Lemma addDaysM_run g r amount :
  addDaysM r amount g
  = (g ++ [getTime (addDays (deref g r) amount)], Ok (length g)).
Proof.
  unfold addDaysM, addDays, toDate. run_store.
  destruct (amount =? 0); run_store; done.
Qed.

Lemma addWeeksM_run g r amount :
  addWeeksM r amount g
  = (g ++ [getTime (addWeeks (deref g r) amount)], Ok (length g)).
Proof. apply addDaysM_run. Qed.

Lemma startOfTodayM_run g now :
  startOfTodayM now g
  = (g ++ [Int now; getTime (startOfToday now)], Ok (S (length g))).
Proof.
  unfold startOfTodayM. run_store. rewrite startOfDayM_run.
  rewrite deref_new, length_app, <- app_assoc. cbn [length app ofTime].
  do 3 f_equal. lia.
Qed.

(** [addMonths] makes one or two objects and returns one of them. *)
Lemma addMonthsM_run g r amount :
  exists new r',
    addMonthsM r amount g = (g ++ new, Ok r')
    /\ (length g <= r' < length (g ++ new))%nat
    /\ deref (g ++ new) r' = addMonths (deref g r) amount.
Proof.
  unfold addMonthsM, addMonths, toDate. run_store.
  destruct (amount =? 0).
  { eexists [_], _. split; [done|]. split; [alloc_lt|]. by run_store. }
  run_store. set (D := deref g r).
  set (E := setMonth D (getMonth D + amount + 1)%num 0).
  assert (H1 : deref ((g ++ [getTime D]) ++ [getTime E]) (length g) = D).
  { rewrite <- app_assoc. cbn [app]. by rewrite deref_new, ofTime_getTime. }
  assert (H2 : deref ((g ++ [getTime D]) ++ [getTime E])
                 (length (g ++ [getTime D])) = E).
  { by rewrite deref_new, ofTime_getTime. }
  destruct (getDate E <=? getDate D)%num.
  - exists [getTime D; getTime E], (S (length g)).
    rewrite <- app_assoc. cbn [app]. split.
    + do 2 f_equal. rewrite length_app. cbn [length]. lia.
    + split; [alloc_lt|].
      replace (S (length g)) with (length (g ++ [getTime D])) by alloc_lt.
      change (g ++ [getTime D; getTime E])
        with (g ++ [getTime D] ++ [getTime E]).
      by rewrite app_assoc, H2.
  - rewrite H1, H2.
    eexists [_; getTime E], (length g).
    rewrite <- app_assoc. cbn [app]. rewrite insert_new.
    split; [done|]. split; [alloc_lt|]. by rewrite deref_new, ofTime_getTime.
Qed.

(** The function handed to [setCurrentDate] on the store. *)
Lemma navigateM_run h now direction view previous :
  exists new r,
    navigateM now direction view previous h = (h ++ new, Ok r)
    /\ (length h <= r < length (h ++ new))%nat
    /\ deref (h ++ new) r
       = currentDate
           (handleNavigate now direction
              {| currentDate := deref h previous; view := view;
                 selectedEvent := None |}).
Proof.
  destruct direction; cbn [navigateM handleNavigate setCurrentDate currentDate
                            CalendarPage.view].
  - destruct view.
    + apply addMonthsM_run.
    + eexists [_], _. rewrite addWeeksM_run. split; [done|].
      split; [alloc_lt|]. by rewrite deref_new, ofTime_getTime.
  - destruct view.
    + apply addMonthsM_run.
    + eexists [_], _. rewrite addWeeksM_run. split; [done|].
      split; [alloc_lt|]. by rewrite deref_new, ofTime_getTime.
  - eexists [_; _], _. rewrite startOfTodayM_run. split; [done|].
    split; [alloc_lt|].
    change (h ++ [Int now; getTime (startOfToday now)])
      with (h ++ [Int now] ++ [getTime (startOfToday now)]).
    rewrite app_assoc.
    replace (S (length h)) with (length (h ++ [Int now])) by alloc_lt.
    by rewrite deref_new, ofTime_getTime.
Qed.

(** X19: the function [handleNavigate] hands to [setCurrentDate] changes
    no [Date] object that exists: it leaves the object of the state, and
    every other object, as they are, and returns a new object, whose date
    is the current date of the state after [handleNavigate].  So the
    function can run twice on the same state, as React may run it, with the
    same date as the result. *)
Theorem navigation_store h now direction view previous sel :
  (previous < length h)%nat ->
  exists h1 r1 h2 r2,
    navigateM now direction view previous h = (h1, Ok r1)
    /\ navigateM now direction view previous h1 = (h2, Ok r2)
    /\ (forall r, (r < length h)%nat -> h1 !! r = h !! r /\ h2 !! r = h !! r)
    /\ ((length h <= r1 < length h1)%nat /\ (length h1 <= r2 < length h2)%nat)
    /\ deref h1 r1
       = currentDate
           (handleNavigate now direction
              {| currentDate := deref h previous; view := view;
                 selectedEvent := sel |})
    /\ deref h2 r2 = deref h1 r1.
Proof.
  intros Hp.
  destruct (navigateM_run h now direction view previous)
    as (new1 & r1 & E1 & Hr1 & Hd1).
  destruct (navigateM_run (h ++ new1) now direction view previous)
    as (new2 & r2 & E2 & Hr2 & Hd2).
  exists (h ++ new1), r1, ((h ++ new1) ++ new2), r2.
  split; [done|]. split; [done|]. split.
  { intros r Hr. rewrite <- app_assoc. by rewrite !lookup_app_l. }
  split; [by split|]. split; [by destruct direction|].
  rewrite Hd2, Hd1. by rewrite deref_app.
Qed.

End Facts.

(** From the 12th of March 2025, Next in the month view: the date of the
    new object is the 12th of April, the object of the state is as it
    was. *)
Lemma navigation_store_witness :
  (0 < length Examples.store0)%nat
  /\ exists h1 r1,
       navigateM (tz := Examples.utc) 0 next month 0 Examples.store0
       = (h1, Ok r1)
       /\ deref h1 r1 = Valid (Examples.at_utc 2025 3 12 0 0)
       /\ deref h1 0 = Valid (Examples.at_utc 2025 2 12 0 0).
Proof.
  assert (H : (0 < length Examples.store0)%nat) by (cbn; lia).
  split; [exact H|].
  destruct (navigation_store (tz := Examples.utc) Examples.store0 0 next
              month 0 None H)
    as (h1 & r1 & h2 & r2 & E1 & _ & Hkeep & _ & Hd & _).
  exists h1, r1. split; [exact E1|]. split.
  - rewrite Hd. reflexivity.
  - unfold deref. rewrite (proj1 (Hkeep 0%nat H)). reflexivity.
Defined.

End NavigationStoreFacts.

(** ** The embedding on concrete inputs *)

Module Checks.
Import Calendar Navigation CalendarPage.
Import Examples.

(** The 31st of January 2025 and a month is the 28th of February; a
    month back it is the 28th of January.  In 2024 it is the 29th of
    February. *)
Example addMonths_january_31 :
  addMonths (tz := utc) (Valid (at_utc 2025 0 31 8 30)) 1
  = Valid (at_utc 2025 1 28 8 30)
  /\ addMonths (tz := utc) (Valid (at_utc 2025 1 28 8 30)) (-1)
     = Valid (at_utc 2025 0 28 8 30)
  /\ addMonths (tz := utc) (Valid (at_utc 2024 0 31 8 30)) 1
     = Valid (at_utc 2024 1 29 8 30).
Proof. by vm_compute. Qed.

(** From December to January of the next year and back. *)
Example addMonths_december :
  addMonths (tz := utc) (Valid (at_utc 2025 11 15 0 0)) 1
  = Valid (at_utc 2026 0 15 0 0)
  /\ addMonths (tz := utc) (Valid (at_utc 2026 0 15 0 0)) (-1)
     = Valid (at_utc 2025 11 15 0 0).
Proof. by vm_compute. Qed.

Example addWeeks_march_10 :
  addWeeks (tz := utc) (Valid (at_utc 2025 2 10 0 0)) 1
  = Valid (at_utc 2025 2 17 0 0)
  /\ addWeeks (tz := brisbane) (Valid (at_utc 2025 2 10 0 0)) (-1)
     = Valid (at_utc 2025 2 3 0 0).
Proof. by vm_compute. Qed.

(** The labels of the toolbar for the 10th of March 2025. *)
Example toolbar_labels :
  exists tm tw,
    CalendarToolbar.CalendarToolbar (tz := utc)
      (Valid (at_utc 2025 2 10 0 0)) month true = Ok tm
    /\ CalendarToolbar.CalendarToolbar (tz := utc)
         (Valid (at_utc 2025 2 10 0 0)) week true = Ok tw
    /\ CalendarToolbar.dateLabel tm = "March 2025"
    /\ CalendarToolbar.dateLabel tw = "Mar 10, 2025".
Proof. do 2 eexists. split; [reflexivity|]. split; [reflexivity|]. by vm_compute. Qed.

(** The popup of the midterm of the scenario. *)
Example popup_midterm :
  exists p,
    EventDetailPopup.EventDetailPopup (tz := utc) midterm1 = Ok p
    /\ EventDetailPopup.start_value p = "Monday, March 10, 2025 at 2:00 PM"
    /\ EventDetailPopup.end_value p = "Monday, March 10, 2025 at 3:30 PM"
    /\ EventDetailPopup.badge_color p = "orange".
Proof. eexists. split; [reflexivity|]. by vm_compute. Qed.

(** The popup of the quiz, whose end is invalid, throws. *)
Example popup_quiz :
  EventDetailPopup.EventDetailPopup (tz := utc) quiz
  = Throw "RangeError: Invalid time value".
Proof. done. Qed.

(** A lab is purple in the list of the events and blue in the calendar. *)
Example colors_of_lab :
  ParsedEvents.getEventTypeColor "Lab 3" = "purple"
  /\ getEventColor "Lab 3" = "blue"
  /\ ParsedEvents.getEventTypeColor "Group project" = "green"
  /\ getEventColor "Group project" = "gray".
Proof. by vm_compute. Qed.

Example trim_input :
  CalendarAssistant.trim "  move my lab  " = "move my lab"
  /\ CalendarAssistant.trim "   " = "".
Proof. by vm_compute. Qed.

End Checks.
